(** * terraform-provider-httpx: the request pipeline, embedded and checked

    A shallow embedding of the provider's core — request builder, transport
    wrapper, retry/poll loop, expectation validator, destroy-time template
    expansion and resource-ID hashing, then the JSON path evaluator, the
    extraction of outputs, the redaction helpers and the data source's
    read — followed by the theorems that relate it to the written
    specification and by further properties of the code.

    Conventions.
    - A Go [string] is a Rocq [string] (a sequence of bytes); [len] is
      [String.length].
    - An [int64] is a [Z] together with [Go.wrap64] wherever Go arithmetic
      can wrap.
    - A Go [error] is its message ([err.Error()]); [%w] wrapping is
      concatenation of messages.
    - A Go map that is only looked up is a [gmap]; a Go map that the code
      ranges over is the sequence of its entries in the order the runtime
      visits them, so a statement proved for every sequence holds for every
      iteration order.
    - Everything that belongs to the Go standard library, the operating
      system or the network (URL and JSON parsing, regular-expression
      matching of poll conditions, date parsing, the random source, the
      transport, context cancellation) is a field of the environment [Env]. *)

From Stdlib Require Import ZArith Lia List Ascii String Bool DecimalString.
From Stdlib Require DecimalPos.
From stdpp Require Import base option gmap strings list.

#[local] Open Scope string_scope.
#[local] Open Scope Z_scope.

(** [simpl] may unfold string concatenation on a constructor. *)
#[local] Arguments String.append !s1 s2 : simpl nomatch.

(** ** Go primitives *)

Module Go.

(** Two's-complement wrap-around of [int64] arithmetic. *)
Definition minInt64 : Z := - 2 ^ 63.
Definition maxInt64 : Z := 2 ^ 63 - 1.
Definition wrap64 (z : Z) : Z := (z + 2 ^ 63) mod 2 ^ 64 - 2 ^ 63.
Definition int64_mul (a b : Z) : Z := wrap64 (a * b).
Definition int64_add (a b : Z) : Z := wrap64 (a + b).

(** [fmt]'s [%d] and [%v] verbs at the types the provider prints. *)
Definition fmt_d (z : Z) : string := NilEmpty.string_of_int (Z.to_int z).

Fixpoint Join (elems : list string) (sep : string) : string :=
  match elems with
  | [] => ""
  | [x] => x
  | x :: rest => x +:+ sep +:+ Join rest sep
  end.

Definition fmt_v_ints (l : list Z) : string := "[" +:+ Join (map fmt_d l) " " +:+ "]".
Definition fmt_v_strings (l : list string) : string := "[" +:+ Join l " " +:+ "]".

(** [len(s)] as an [int]. *)
Definition len (s : string) : Z := Z.of_nat (String.length s).

(** [s[:n]] for [0 <= n <= len(s)]. *)
Fixpoint take (n : nat) (s : string) : string :=
  match n, s with
  | S k, String c s' => String c (take k s')
  | _, _ => ""
  end.

(** ASCII case mapping. Header names are ASCII tokens; bytes outside
    [A-Z] are left alone. *)
Definition is_upper (c : ascii) : bool :=
  let n := N_of_ascii c in ((65 <=? n) && (n <=? 90))%N.

Definition lower (c : ascii) : ascii :=
  if is_upper c then ascii_of_N (N_of_ascii c + 32) else c.

Fixpoint ToLower (s : string) : string :=
  match s with
  | "" => ""
  | String c s' => String (lower c) (ToLower s')
  end.

Definition EqualFold (s t : string) : bool := String.eqb (ToLower s) (ToLower t).

Definition HasPrefix (s p : string) : bool := String.prefix p s.

Fixpoint Contains (s substr : string) : bool :=
  String.prefix substr s
  || match s with
     | "" => false
     | String _ s' => Contains s' substr
     end.

(** [strings.Index]: the byte offset of the first occurrence, or -1. *)
Fixpoint Index (s substr : string) : Z :=
  if String.prefix substr s then 0
  else match s with
       | "" => -1
       | String _ s' => let i := Index s' substr in if i <? 0 then -1 else i + 1
       end.

(** [strip_prefix p s] is [Some r] exactly when [s = p ++ r]. *)
Fixpoint strip_prefix (p s : string) : option string :=
  match p with
  | "" => Some s
  | String a p' =>
      match s with
      | "" => None
      | String b s' => if Ascii.eqb a b then strip_prefix p' s' else None
      end
  end.

(** Left-to-right, non-overlapping scanning, the discipline shared by
    [strings.ReplaceAll] and [regexp.ReplaceAllStringFunc]: at each
    position the matcher either recognises an occurrence, returning what
    it found and the text after it, or the byte is copied and the scan
    moves one byte on.  [fuel] bounds the number of steps; the length of
    the text is always enough. *)
Inductive token (A : Type) : Type :=
| Lit (c : ascii)
| Hit (a : A).
Arguments Lit {A} c.
Arguments Hit {A} a.

Fixpoint tokenize {A : Type} (m : string -> option (A * string))
         (fuel : nat) (s : string) : list (token A) :=
  match fuel with
  | O => []
  | S fuel' =>
      match s with
      | "" => []
      | String c s' =>
          match m s with
          | Some (a, rest) => Hit a :: tokenize m fuel' rest
          | None => Lit c :: tokenize m fuel' s'
          end
      end
  end.

(** A matcher that consumes at least one byte whenever it matches. *)
Definition consuming {A : Type} (m : string -> option (A * string)) : Prop :=
  forall s a rest, m s = Some (a, rest) -> (String.length rest < String.length s)%nat.

Definition scan {A : Type} (m : string -> option (A * string)) (s : string)
  : list (token A) :=
  tokenize m (String.length s) s.

Fixpoint render {A : Type} (f : A -> string) (ts : list (token A)) : string :=
  match ts with
  | [] => ""
  | Lit c :: ts' => String c (render f ts')
  | Hit a :: ts' => f a +:+ render f ts'
  end.

Definition match_literal (old : string) (s : string) : option (unit * string) :=
  match strip_prefix old s with
  | Some rest => Some (tt, rest)
  | None => None
  end.

(** An empty [old] matches before every byte and at the end. *)
Fixpoint intersperse (new s : string) : string :=
  match s with
  | "" => ""
  | String c s' => String c (new +:+ intersperse new s')
  end.

Definition ReplaceAll (s old new : string) : string :=
  match old with
  | "" => new +:+ intersperse new s
  | _ => render (fun _ => new) (scan (match_literal old) s)
  end.

(** [strings.TrimSpace] on ASCII white space. *)
Definition is_space (c : ascii) : bool :=
  let n := N_of_ascii c in ((9 <=? n) && (n <=? 13) || (n =? 32))%N.

Fixpoint trim_left (s : string) : string :=
  match s with
  | String c s' => if is_space c then trim_left s' else s
  | "" => ""
  end.

Fixpoint trim_right (s : string) : string :=
  match s with
  | "" => ""
  | String c s' =>
      match trim_right s' with
      | "" => if is_space c then "" else String c ""
      | r => String c r
      end
  end.

Definition TrimSpace (s : string) : string := trim_right (trim_left s).

(** [strconv.ParseInt(s, 10, 64)]: an optional sign, then one or more
    decimal digits; a value outside [int64] is an error. *)
Definition digit_val (c : ascii) : option Z :=
  let n := N_of_ascii c in
  if ((48 <=? n) && (n <=? 57))%N then Some (Z.of_N n - 48) else None.

Fixpoint parse_digits (acc : Z) (s : string) : option Z :=
  match s with
  | "" => Some acc
  | String c s' =>
      match digit_val c with
      | Some d => parse_digits (10 * acc + d) s'
      | None => None
      end
  end.

Definition parse_unsigned (s : string) : option Z :=
  match s with
  | "" => None
  | _ => parse_digits 0 s
  end.

Definition in_int64 (z : Z) : bool := (minInt64 <=? z) && (z <=? maxInt64).

Definition ParseInt (s : string) : option Z :=
  let signed :=
    match s with
    | String "+" s' => parse_unsigned s'
    | String "-" s' => option_map Z.opp (parse_unsigned s')
    | _ => parse_unsigned s
    end in
  match signed with
  | Some v => if in_int64 v then Some v else None
  | None => None
  end.

(** [base64.StdEncoding.EncodeToString]. *)
Definition base64_alphabet : string :=
  "ABCDEFGHIJKLMNOPQRSTUVWXYZabcdefghijklmnopqrstuvwxyz0123456789+/".

Definition base64_char (i : N) : ascii :=
  match String.get (N.to_nat i) base64_alphabet with
  | Some c => c
  | None => "="%char
  end.

Fixpoint base64_encode (s : string) : string :=
  match s with
  | "" => ""
  | String a "" =>
      let n := (N_of_ascii a * 65536)%N in
      String (base64_char (n / 262144))
        (String (base64_char (n / 4096 mod 64)) "==")
  | String a (String b "") =>
      let n := (N_of_ascii a * 65536 + N_of_ascii b * 256)%N in
      String (base64_char (n / 262144))
        (String (base64_char (n / 4096 mod 64))
           (String (base64_char (n / 64 mod 64)) "="))
  | String a (String b (String c rest)) =>
      let n := (N_of_ascii a * 65536 + N_of_ascii b * 256 + N_of_ascii c)%N in
      String (base64_char (n / 262144))
        (String (base64_char (n / 4096 mod 64))
           (String (base64_char (n / 64 mod 64))
              (String (base64_char (n mod 64)) (base64_encode rest))))
  end.

(** [m[key]] on a Go map given by its entries: the zero value when the key
    is absent. *)
Fixpoint map_index (m : list (string * string)) (key : string) : string :=
  match m with
  | [] => ""
  | (k, v) :: m' => if String.eqb k key then v else map_index m' key
  end.

(** [fmt]'s [%q] on printable ASCII: the text in double quotes, with a
    backslash before a double quote or a backslash. *)
Definition dquote : ascii := "034"%char.
Definition backslash : ascii := "092"%char.

Fixpoint quote_body (s : string) : string :=
  match s with
  | "" => ""
  | String c s' =>
      if Ascii.eqb c dquote || Ascii.eqb c backslash
      then String backslash (String c (quote_body s'))
      else String c (quote_body s')
  end.

Definition fmt_q (s : string) : string :=
  String dquote (quote_body s +:+ String dquote "").

(** An [io.Reader] as what it will deliver: the bytes, and whether the
    stream then ends cleanly or with an error.  [io.ReadAll] returns both. *)
Definition Reader : Type := (string * option string)%type.

Definition ReadAll (r : Reader) : string * option string := r.

(** [[]byte(s)]. *)
Fixpoint bytes (s : string) : list Z :=
  match s with
  | "" => []
  | String c s' => Z.of_N (N_of_ascii c) :: bytes s'
  end.

(** [strings.Split(s, sep)] for a separator of one byte: always at least
    one piece, the empty string for an empty [s]. *)
Fixpoint Split (s : string) (sep : ascii) : list string :=
  match s with
  | "" => [""]
  | String c s' =>
      if Ascii.eqb c sep then "" :: Split s' sep
      else match Split s' sep with
           | piece :: pieces => String c piece :: pieces
           | [] => [String c ""]
           end
  end.

(** [s[lo:hi]] for [0 <= lo <= hi <= len(s)]. *)
Fixpoint drop (n : nat) (s : string) : string :=
  match n, s with
  | S k, String _ s' => drop k s'
  | _, _ => s
  end.

Definition slice (s : string) (lo hi : Z) : string :=
  take (Z.to_nat (hi - lo)) (drop (Z.to_nat lo) s).

(** [fmt.Sscanf(str, "%d", &n)] on ASCII input: white space other than a
    line feed is skipped, a line feed there is an error; then an optional
    sign and one or more decimal digits are read, and whatever follows
    them is left unread.  A number outside [int64] is an error. *)
Definition is_blank (c : ascii) : bool :=
  let n := N_of_ascii c in ((n =? 9) || (11 <=? n) && (n <=? 13) || (n =? 32))%N.

Fixpoint SkipSpace (s : string) : option string :=
  match s with
  | "" => Some ""
  | String c s' =>
      if (N_of_ascii c =? 10)%N then None
      else if is_blank c then SkipSpace s'
      else Some s
  end.

Fixpoint span_digits (s : string) : string :=
  match s with
  | "" => ""
  | String c s' =>
      match digit_val c with
      | Some _ => String c (span_digits s')
      | None => ""
      end
  end.

Definition Sscanf_d (str : string) : option Z :=
  match SkipSpace str with
  | None => None
  | Some s =>
      let '(sign, s) :=
        match s with
        | String "+" s' => ("+", s')
        | String "-" s' => ("-", s')
        | _ => ("", s)
        end in
      match span_digits s with
      | "" => None
      | tok => ParseInt (sign +:+ tok)
      end
  end.

End Go.

(** ** Package [utils] *)

Module utils.

Definition truncation_marker : string := "... [TRUNCATED]".

(** [TruncateString]; [None] is the run-time panic of [s[:maxLen]] with a
    negative bound. *)
Definition TruncateString (s : string) (maxLen : Z) : option string :=
  if Go.len s <=? maxLen then Some s
  else if maxLen <? 0 then None
  else Some (Go.take (Z.to_nat maxLen) s +:+ truncation_marker).

Definition RedactError (errMsg : string) (redactList : list string) : string :=
  fold_left
    (fun result pattern =>
       if Go.Contains (Go.ToLower result) (Go.ToLower pattern)
       then Go.ReplaceAll result pattern "[REDACTED]"
       else result)
    redactList errMsg.

(** [RedactHeaders]: [redactMap] holds the lower-cased names; indexing it
    with an absent key gives [false]. *)
Definition RedactHeaders (headers : gmap string string) (redactList : list string)
  : gmap string string :=
  match redactList with
  | [] => headers
  | _ =>
      let redactMap : gmap string bool :=
        fold_left (fun m h => <[Go.ToLower h := true]> m) redactList ∅ in
      map_imap
        (fun k v =>
           Some (if default false (redactMap !! Go.ToLower k) then "[REDACTED]" else v))
        headers
  end.

Definition RedactHeaderValue (headerName headerValue : string) (redactList : list string)
  : string :=
  match redactList with
  | [] => headerValue
  | _ =>
      if existsb (fun h => Go.EqualFold h headerName) redactList then "[REDACTED]"
      else headerValue
  end.

End utils.

(** ** Values of the plugin framework ([types.String], [types.Int64], ...) *)

Module tf.

Inductive value (A : Type) : Type :=
| Null
| Unknown
| Known (a : A).
Arguments Null {A}.
Arguments Unknown {A}.
Arguments Known {A} a.

Definition IsNull {A} (v : value A) : bool :=
  match v with Null => true | _ => false end.

Definition IsUnknown {A} (v : value A) : bool :=
  match v with Unknown => true | _ => false end.

(** The [Value...] accessors return the zero value for null and unknown. *)
Definition ValueString (v : value string) : string :=
  match v with Known s => s | _ => "" end.

Definition ValueInt64 (v : value Z) : Z :=
  match v with Known z => z | _ => 0 end.

Definition ValueBool (v : value bool) : bool :=
  match v with Known b => b | _ => false end.

(** [types.Map] of strings and [types.List]: the elements in iteration
    order. *)
Definition Map : Type := value (list (string * value string)).
Definition List (A : Type) : Type := value (list (value A)).

End tf.

(** ** [net/http] values *)

Inductive result (A : Type) : Type :=
| Ok (a : A)
| Err (msg : string).
Arguments Ok {A} a.
Arguments Err {A} msg.

(** What a call returns: a value, or a run-time panic. *)
Inductive ret (A : Type) : Type :=
| Return (a : A)
| Panic (msg : string).
Arguments Return {A} a.
Arguments Panic {A} msg.

Module http.

(** [textproto.CanonicalMIMEHeaderKey]: a key made of token bytes only gets
    an upper-case letter at the start and after each hyphen and lower-case
    letters elsewhere; any other key is returned unchanged. *)
Definition is_lower_byte (c : ascii) : bool :=
  let n := N_of_ascii c in ((97 <=? n) && (n <=? 122))%N.

Definition upper (c : ascii) : ascii :=
  if is_lower_byte c then ascii_of_N (N_of_ascii c - 32) else c.

Definition validHeaderFieldByte (c : ascii) : bool :=
  let n := N_of_ascii c in
  (((48 <=? n) && (n <=? 57)) || ((65 <=? n) && (n <=? 90))
   || ((97 <=? n) && (n <=? 122))
   || existsb (N.eqb n) [33; 35; 36; 37; 38; 39; 42; 43; 45; 46; 94; 95; 96; 124; 126])%N.

Fixpoint all_bytes (p : ascii -> bool) (s : string) : bool :=
  match s with
  | "" => true
  | String c s' => p c && all_bytes p s'
  end.

Fixpoint canonical_go (up : bool) (s : string) : string :=
  match s with
  | "" => ""
  | String c s' =>
      let c' := if up then upper c else Go.lower c in
      String c' (canonical_go (Ascii.eqb c' "-") s')
  end.

Definition CanonicalMIMEHeaderKey (s : string) : string :=
  if all_bytes validHeaderFieldByte s then canonical_go true s else s.

(** [http.Header]: canonical key to the values in the order added. *)
Abbreviation Header := (gmap string (list string)).

Definition Header_Add (h : Header) (key value : string) : Header :=
  let k := CanonicalMIMEHeaderKey key in
  <[k := (default [] (h !! k) ++ [value])%list]> h.

Definition Header_Set (h : Header) (key value : string) : Header :=
  <[CanonicalMIMEHeaderKey key := [value]]> h.

Definition Header_Values (h : Header) (key : string) : list string :=
  default [] (h !! CanonicalMIMEHeaderKey key).

Record Request : Type := mkRequest {
  Method : string;
  URL : string;
  ReqHeader : Header;
  ReqBody : option string;
}.

(** A response as the client sees it: the bytes the peer delivers on the
    body stream, and whether the stream then ends cleanly or with a read
    error. *)
Record Response : Type := mkResponse {
  StatusCode : Z;
  RespHeader : Header;
  RespBody : string;
  RespReadError : option string;
}.

Definition Body (resp : Response) : Go.Reader := (RespBody resp, RespReadError resp).

Inductive DoResult : Type :=
| DoError (msg : string)
| DoResponse (resp : Response).

End http.

(** ** [crypto/sha256] and [encoding/hex] *)

Module sha256.

(** 32-bit words as [Z], reduced modulo [2^32] after every operation that
    can leave the range. *)
Definition w32 (x : Z) : Z := x mod 2 ^ 32.
Definition add32 (x y : Z) : Z := w32 (x + y).
Definition rotr (n x : Z) : Z := Z.lor (Z.shiftr x n) (w32 (Z.shiftl x (32 - n))).
Definition shr (n x : Z) : Z := Z.shiftr x n.
Definition xor3 (x y z : Z) : Z := Z.lxor (Z.lxor x y) z.

Definition Ch (x y z : Z) : Z := Z.lxor (Z.land x y) (Z.land (w32 (Z.lnot x)) z).
Definition Maj (x y z : Z) : Z := xor3 (Z.land x y) (Z.land x z) (Z.land y z).
Definition Sigma0 (x : Z) : Z := xor3 (rotr 2 x) (rotr 13 x) (rotr 22 x).
Definition Sigma1 (x : Z) : Z := xor3 (rotr 6 x) (rotr 11 x) (rotr 25 x).
Definition sigma0 (x : Z) : Z := xor3 (rotr 7 x) (rotr 18 x) (shr 3 x).
Definition sigma1 (x : Z) : Z := xor3 (rotr 17 x) (rotr 19 x) (shr 10 x).

(** The round constants of FIPS 180-4, section 4.2.2, in decimal. *)
Definition K : list Z :=
  [1116352408; 1899447441; 3049323471; 3921009573; 961987163; 1508970993;
   2453635748; 2870763221; 3624381080; 310598401; 607225278; 1426881987;
   1925078388; 2162078206; 2614888103; 3248222580; 3835390401; 4022224774;
   264347078; 604807628; 770255983; 1249150122; 1555081692; 1996064986;
   2554220882; 2821834349; 2952996808; 3210313671; 3336571891; 3584528711;
   113926993; 338241895; 666307205; 773529912; 1294757372; 1396182291;
   1695183700; 1986661051; 2177026350; 2456956037; 2730485921; 2820302411;
   3259730800; 3345764771; 3516065817; 3600352804; 4094571909; 275423344;
   430227734; 506948616; 659060556; 883997877; 958139571; 1322822218;
   1537002063; 1747873779; 1955562222; 2024104815; 2227730452; 2361852424;
   2428436474; 2756734187; 3204031479; 3329325298].

(** The eight working variables. *)
Definition state : Type := (Z * Z * Z * Z * Z * Z * Z * Z)%type.

Definition init : state :=
  (1779033703, 3144134277, 1013904242, 2773480762,
   1359893119, 2600822924, 528734635, 1541459225).

(** Padding: a one bit, zeros up to 56 modulo 64, the bit length on eight
    bytes. *)
Definition be_bytes (n : nat) (x : Z) : list Z :=
  map (fun i => (x / 2 ^ (8 * Z.of_nat i)) mod 256) (rev (seq 0 n)).

Definition pad (msg : list Z) : list Z :=
  let l := Z.of_nat (length msg) in
  (msg ++ [128] ++ repeat 0 (Z.to_nat ((55 - l) mod 64)) ++ be_bytes 8 (8 * l))%list.

Fixpoint be_word (bytes : list Z) (acc : Z) : Z :=
  match bytes with
  | [] => acc
  | b :: bytes' => be_word bytes' (acc * 256 + b)
  end.

(** The sixteen words of a 64-byte block. *)
Fixpoint words (n : nat) (bytes : list Z) : list Z :=
  match n with
  | O => []
  | S n' => be_word (firstn 4 bytes) 0 :: words n' (skipn 4 bytes)
  end.

(** The message schedule, grown from 16 to 64 words. *)
Fixpoint schedule (n : nat) (w : list Z) : list Z :=
  match n with
  | O => w
  | S n' =>
      let t := length w in
      let at_ i := nth (t - i) w 0 in
      schedule n' (w ++ [add32 (add32 (sigma1 (at_ 2%nat)) (at_ 7%nat))
                               (add32 (sigma0 (at_ 15%nat)) (at_ 16%nat))])%list
  end.

Definition round (st : state) (kw : Z * Z) : state :=
  let '(a, b, c, d, e, f, g, h) := st in
  let t1 := add32 (add32 (add32 h (Sigma1 e)) (add32 (Ch e f g) (fst kw))) (snd kw) in
  let t2 := add32 (Sigma0 a) (Maj a b c) in
  (add32 t1 t2, a, b, c, add32 d t1, e, f, g).

Definition compress (st : state) (block : list Z) : state :=
  let w := schedule 48 (words 16 block) in
  let '(a, b, c, d, e, f, g, h) := fold_left round (combine K w) st in
  let '(a0, b0, c0, d0, e0, f0, g0, h0) := st in
  (add32 a0 a, add32 b0 b, add32 c0 c, add32 d0 d,
   add32 e0 e, add32 f0 f, add32 g0 g, add32 h0 h).

Fixpoint blocks (n : nat) (bytes : list Z) (st : state) : state :=
  match n with
  | O => st
  | S n' => blocks n' (skipn 64 bytes) (compress st (firstn 64 bytes))
  end.

Definition digest_bytes (st : state) : list Z :=
  let '(a, b, c, d, e, f, g, h) := st in
  (be_bytes 4 a ++ be_bytes 4 b ++ be_bytes 4 c ++ be_bytes 4 d
   ++ be_bytes 4 e ++ be_bytes 4 f ++ be_bytes 4 g ++ be_bytes 4 h)%list.

Definition Sum256 (msg : list Z) : list Z :=
  let padded := pad msg in
  digest_bytes (blocks (length padded / 64) padded init).

End sha256.

Module hex.

Definition digit (n : Z) : ascii :=
  match String.get (Z.to_nat n) "0123456789abcdef" with
  | Some c => c
  | None => "0"%char
  end.

Fixpoint EncodeToString (bytes : list Z) : string :=
  match bytes with
  | [] => ""
  | b :: bytes' => String (digit (b / 16)) (String (digit (b mod 16)) (EncodeToString bytes'))
  end.

End hex.

(** ** The environment: standard library, operating system, network *)

Record Env : Type := mkEnv {
  (** [net/url]: the parsed URL's [String()], or the parse error; and its
      [String()] once every query pair was added and re-encoded. *)
  url_Parse : string -> result string;
  url_AddQuery : string -> list (string * string) -> string;
  (** [encoding/json]: [Unmarshal]'s error if any, and what [Marshal]
      returns for the decoded value. *)
  json_Unmarshal : string -> option string;
  json_Marshal : string -> result string;
  (** [os.Open] and [io.ReadAll] on a body file. *)
  os_Open : string -> option string;
  io_ReadAll : string -> result string;
  (** [http.NewRequestWithContext]'s verdict on method and URL. *)
  http_NewRequest : string -> string -> option string;
  (** TLS material. *)
  x509_AppendCertsFromPEM : string -> bool;
  tls_X509KeyPair : string -> string -> option string;
  (** The transport: the outcome of the n-th round trip (from 0). *)
  http_Do : http.Request -> nat -> http.DoResult;
  (** The context: whether it is done before a sleep of the given length
      (nanoseconds) after the given attempt ends, and then [ctx.Err()]. *)
  ctx_Done : Z -> Z -> option string;
  (** Wall clock (nanoseconds) when the delay after the given attempt is
      computed, and [time.Parse] for the n-th layout tried. *)
  time_Now : Z -> Z;
  time_Parse : nat -> string -> option Z;
  (** [int64(float64(delayMs) * 0.25 * rand.Float64())] for one draw. *)
  rand_jitterMs : Z -> Z;
  (** What converting an out-of-range float to [int64] yields on the
      platform. *)
  float_out_of_range : Z;
  (** [regexp.MatchString] and the JSON engine behind the poll
      condition on paths. *)
  regexp_MatchString : string -> string -> result bool;
  json_path_conditions : string -> list (string * string) -> bool;
}.

(** ** Package [config] *)

Module config.

Record BasicAuthModel : Type := mkBasicAuthModel {
  Username : string;
  Password : string;
}.

Record ProviderConfig : Type := mkProviderConfig {
  DefaultHeaders : list (string * string);
  BasicAuth : option BasicAuthModel;
  BearerToken : option string;
  TimeoutMs : Z;
  InsecureSkipVerify : bool;
  ProxyUrl : option string;
  CaCertPem : option string;
  ClientCertPem : option string;
  ClientKeyPem : option string;
  RedactHeaders : list string;
  MaxResponseBodyBytes : Z;
  Debug : bool;
}.

End config.

(** ** Package [client] *)

Module client.

Definition NewHTTPClient (env : Env) (cfg : config.ProviderConfig) : result unit :=
  let ca_ok :=
    match config.CaCertPem cfg with
    | Some pem => if String.eqb pem "" then true else x509_AppendCertsFromPEM env pem
    | None => true
    end in
  if negb ca_ok then Err "failed to parse CA certificate" else
  let cert_err :=
    match config.ClientCertPem cfg, config.ClientKeyPem cfg with
    | Some cert, Some key => tls_X509KeyPair env cert key
    | _, _ => None
    end in
  match cert_err with
  | Some e => Err ("failed to parse client certificate: " +:+ e)
  | None =>
      match config.ProxyUrl cfg with
      | Some proxy =>
          if String.eqb proxy "" then Ok tt else
          match url_Parse env proxy with
          | Err e => Err ("failed to parse proxy URL: " +:+ e)
          | Ok _ => Ok tt
          end
      | None => Ok tt
      end
  end.

(** [LimitReader], that is [io.LimitReader]: nothing is read for a bound of
    zero or less; once [maxBytes] bytes were read the limited reader reports
    end of file without touching the stream again; otherwise the stream's
    own ending is seen. *)
Definition LimitReader (r : Go.Reader) (maxBytes : Z) : Go.Reader :=
  if maxBytes <=? 0 then ("", None)
  else if maxBytes <=? Go.len (fst r)
       then (Go.take (Z.to_nat maxBytes) (fst r), None)
       else r.

End client.

(** ** Package [provider]: response model and single attempt *)

Module ResponseResult.

Record t : Type := mk {
  StatusCode : Z;
  Headers : gmap string string;
  Body : string;
  AttemptCount : Z;
  Error : string;
}.

(** [result.AttemptCount = n]. *)
Definition set_AttemptCount (r : t) (n : Z) : t :=
  {| StatusCode := StatusCode r; Headers := Headers r; Body := Body r;
     AttemptCount := n; Error := Error r |}.

End ResponseResult.

(** What the executor functions return, a result pointer and an error:
    with a nil error the result is never nil. *)
Inductive outcome : Type :=
| Success (result : ResponseResult.t)
| Failure (result : option ResponseResult.t) (err : string).

Module ExpectModel.

Record t : Type := mk {
  StatusCodes : tf.List Z;
  JsonPathExists : tf.List string;
  JsonPathEquals : tf.Map;
  HeaderPresent : tf.List string;
}.

End ExpectModel.

Module RetryConfig.

Record t : Type := mk {
  Attempts : Z;
  MinDelayMs : Z;
  MaxDelayMs : Z;
  Backoff : string;
  Jitter : bool;
  RetryOnStatusCodes : list Z;
  RespectRetryAfter : bool;
}.

End RetryConfig.

Module RetryUntilConfig.

Record t : Type := mk {
  StatusCodes : list Z;
  JsonPathEquals : list (string * string);
  HeaderEquals : list (string * string);
  BodyRegex : string;
}.

End RetryUntilConfig.

Module HeaderBlockModel.

Record t : Type := mk {
  Name : tf.value string;
  Value : tf.value string;
}.

End HeaderBlockModel.

Module ResourceBasicAuthModel.

Record t : Type := mk {
  Username : tf.value string;
  Password : tf.value string;
}.

End ResourceBasicAuthModel.

Module RequestConfig.

(** [Headers] and [Query] are Go maps, nil when the attribute is null. *)
Record t : Type := mk {
  Url : string;
  Method : string;
  Headers : option (list (string * string));
  HeaderBlocks : list HeaderBlockModel.t;
  Query : option (list (string * string));
  Body : tf.value string;
  BodyJson : tf.value string;
  BodyFile : tf.value string;
  BasicAuth : option ResourceBasicAuthModel.t;
  BearerToken : tf.value string;
  ProviderDefaults : option config.ProviderConfig;
}.

End RequestConfig.

Module RetryModel.

Record t : Type := mk {
  Attempts : tf.value Z;
  MinDelayMs : tf.value Z;
  MaxDelayMs : tf.value Z;
  Backoff : tf.value string;
  Jitter : tf.value bool;
  RetryOnStatusCodes : tf.List Z;
  RespectRetryAfter : tf.value bool;
}.

End RetryModel.

Module RetryUntilModel.

Record t : Type := mk {
  StatusCodes : tf.List Z;
  JsonPathEquals : tf.Map;
  HeaderEquals : tf.Map;
  BodyRegex : tf.value string;
}.

End RetryUntilModel.

Module RequestConfigModel.

(** The [on_destroy] block.  The attributes that no modelled function
    reads (time-out, TLS and proxy overrides, persistence hints, extract
    blocks) are left out. *)
Record t : Type := mk {
  Url : tf.value string;
  Method : tf.value string;
  Headers : tf.Map;
  Query : tf.Map;
  Body : tf.value string;
  BodyJson : tf.value string;
  BodyFile : tf.value string;
  BearerToken : tf.value string;
  HeaderBlocks : list HeaderBlockModel.t;
  BasicAuth : option ResourceBasicAuthModel.t;
  Retry : option RetryModel.t;
  RetryUntil : option RetryUntilModel.t;
  Expect : option ExpectModel.t;
}.

End RequestConfigModel.

Module HttpxRequestResourceModel.

(** The resource state, with the same omissions. *)
Record t : Type := mk {
  Id : tf.value string;
  StatusCode : tf.value Z;
  ResponseBody : tf.value string;
  Outputs : tf.Map;
  Url : tf.value string;
  Method : tf.value string;
  Headers : tf.Map;
  Query : tf.Map;
  Body : tf.value string;
  BodyJson : tf.value string;
  BodyFile : tf.value string;
  OnDestroy : option RequestConfigModel.t;
}.

End HttpxRequestResourceModel.

Module InterpolationContext.

Record t : Type := mk {
  ID : string;
  Outputs : gmap string string;
  ResponseBody : string;
  StatusCode : Z;
}.

End InterpolationContext.

Module ExtractBlockModel.

Record t : Type := mk {
  Name : tf.value string;
  JsonPath : tf.value string;
  Header : tf.value string;
}.

End ExtractBlockModel.

Module HttpxRequestDataSourceModel.

(** The data source's configuration and state.  The attributes that
    [Read] never consults (time-out, TLS and proxy overrides, the
    sensitivity flag) are left out. *)
Record t : Type := mk {
  Id : tf.value string;
  Url : tf.value string;
  Method : tf.value string;
  Headers : tf.Map;
  Query : tf.Map;
  Body : tf.value string;
  BodyJson : tf.value string;
  BodyFile : tf.value string;
  BearerToken : tf.value string;
  StoreResponseBody : tf.value bool;
  StatusCode : tf.value Z;
  ResponseHeaders : tf.Map;
  ResponseBody : tf.value string;
  Outputs : tf.Map;
  LastAttemptCount : tf.value Z;
  LastError : tf.value string;
  HeaderBlocks : list HeaderBlockModel.t;
  BasicAuth : option ResourceBasicAuthModel.t;
  Retry : option RetryModel.t;
  RetryUntil : option RetryUntilModel.t;
  Expect : option ExpectModel.t;
  ExtractBlocks : list ExtractBlockModel.t;
}.

End HttpxRequestDataSourceModel.

(** ** [encoding/json] documents *)

Module json.

(** What [json.Unmarshal] stores in an [interface{}]: nil, a bool, a
    float64, a string, a [[]interface{}] or a [map[string]interface{}].
    [F] stands for float64; nothing below looks inside a number. *)
#[warnings="-register-all"] Inductive value (F : Type) : Type :=
| JNull
| JBool (b : bool)
| JNumber (f : F)
| JString (s : string)
| JArray (elems : list (value F))
| JObject (members : gmap string (value F)).
Arguments JNull {F}.
Arguments JBool {F} b.
Arguments JNumber {F} f.
Arguments JString {F} s.
Arguments JArray {F} elems.
Arguments JObject {F} members.

(** [fmt]'s [%T]. *)
Definition type_name {F : Type} (v : value F) : string :=
  match v with
  | JNull => "<nil>"
  | JBool _ => "bool"
  | JNumber _ => "float64"
  | JString _ => "string"
  | JArray _ => "[]interface {}"
  | JObject _ => "map[string]interface {}"
  end.

(** The library calls on documents: decoding (no document on an error),
    encoding, and [fmt]'s [%g] and [%v]. *)
Record codec (F : Type) : Type := mkCodec {
  Unmarshal : string -> option (value F);
  Marshal : value F -> result string;
  fmt_g : F -> string;
  fmt_v : value F -> string;
}.
Arguments Unmarshal {F} _ _.
Arguments Marshal {F} _ _.
Arguments fmt_g {F} _ _.
Arguments fmt_v {F} _ _.

End json.

Module provider.

(** The provider-side [ProviderConfig] has the fields of
    [config.ProviderConfig]; [ToConfigProviderConfig] copies them. *)
Definition ToConfigProviderConfig (p : config.ProviderConfig) : config.ProviderConfig :=
  {| config.DefaultHeaders := config.DefaultHeaders p;
     config.BasicAuth :=
       match config.BasicAuth p with
       | Some b => Some {| config.Username := config.Username b;
                           config.Password := config.Password b |}
       | None => None
       end;
     config.BearerToken := config.BearerToken p;
     config.TimeoutMs := config.TimeoutMs p;
     config.InsecureSkipVerify := config.InsecureSkipVerify p;
     config.ProxyUrl := config.ProxyUrl p;
     config.CaCertPem := config.CaCertPem p;
     config.ClientCertPem := config.ClientCertPem p;
     config.ClientKeyPem := config.ClientKeyPem p;
     config.RedactHeaders := config.RedactHeaders p;
     config.MaxResponseBodyBytes := config.MaxResponseBodyBytes p;
     config.Debug := config.Debug p |}.

(** [ExecuteRequest]: one attempt.  [log] is the list of requests already
    put on the wire; a round trip appends to it. *)
Definition ExecuteRequest (env : Env) (req : http.Request)
           (providerConfig : config.ProviderConfig) (log : list http.Request)
  : ret outcome * list http.Request :=
  let cfg := ToConfigProviderConfig providerConfig in
  match client.NewHTTPClient env cfg with
  | Err e => (Return (Failure None ("failed to create HTTP client: " +:+ e)), log)
  | Ok _ =>
      let log' := (log ++ [req])%list in
      match http_Do env req (length log) with
      | http.DoError e =>
          (Return (Failure
             (Some {| ResponseResult.StatusCode := 0;
                      ResponseResult.Headers := ∅;
                      ResponseResult.Body := "";
                      ResponseResult.AttemptCount := 1;
                      ResponseResult.Error :=
                        utils.RedactError e (config.RedactHeaders cfg) |})
             ("request failed: " +:+ e)), log')
      | http.DoResponse httpResp =>
          let maxBytes := config.MaxResponseBodyBytes cfg in
          let limitedReader := client.LimitReader (http.Body httpResp) maxBytes in
          match Go.ReadAll limitedReader with
          | (_, Some e) =>
              (Return (Failure
                 (Some {| ResponseResult.StatusCode := http.StatusCode httpResp;
                          ResponseResult.Headers := ∅;
                          ResponseResult.Body := "";
                          ResponseResult.AttemptCount := 1;
                          ResponseResult.Error :=
                            utils.RedactError e (config.RedactHeaders cfg) |})
                 ("failed to read response body: " +:+ e)), log')
          | (bodyBytes, None) =>
              let truncated :=
                if maxBytes <=? Go.len bodyBytes
                then utils.TruncateString bodyBytes maxBytes
                else Some bodyBytes in
              match truncated with
              | None => (Panic "slice bounds out of range", log')
              | Some bodyStr =>
                  (Return (Success
                     {| ResponseResult.StatusCode := http.StatusCode httpResp;
                        ResponseResult.Headers :=
                          (fun v => Go.Join v ", ") <$> http.RespHeader httpResp;
                        ResponseResult.Body := bodyStr;
                        ResponseResult.AttemptCount := 1;
                        ResponseResult.Error := "" |}), log')
              end
          end
      end
  end.

(** *** Expectations *)

(** [ConvertTerraformList] with the converters the provider passes: never
    an error; the zero value stands for a null or unknown element. *)
Definition ConvertTerraformList {A B : Type} (tfList : tf.List A)
           (converter : tf.value A -> B) : list B :=
  match tfList with
  | tf.Known elems => map converter elems
  | _ => []
  end.

Definition header_named (headers : gmap string string) (name : string) : bool :=
  existsb (fun kv => Go.EqualFold (fst kv) name) (map_to_list headers).

Definition ValidateExpectations (result : ResponseResult.t)
           (expect : option ExpectModel.t) : option string :=
  match expect with
  | None => None
  | Some expect =>
      let status_errors :=
        if negb (tf.IsNull (ExpectModel.StatusCodes expect))
           && negb (tf.IsUnknown (ExpectModel.StatusCodes expect))
        then
          let expectedCodes :=
            ConvertTerraformList (ExpectModel.StatusCodes expect) tf.ValueInt64 in
          if existsb (Z.eqb (ResponseResult.StatusCode result)) expectedCodes
          then []
          else ["status code " +:+ Go.fmt_d (ResponseResult.StatusCode result)
                +:+ " not in expected codes " +:+ Go.fmt_v_ints expectedCodes]
        else [] in
      let header_errors :=
        if negb (tf.IsNull (ExpectModel.HeaderPresent expect))
           && negb (tf.IsUnknown (ExpectModel.HeaderPresent expect))
        then
          let requiredHeaders :=
            ConvertTerraformList (ExpectModel.HeaderPresent expect) tf.ValueString in
          flat_map
            (fun headerName =>
               if header_named (ResponseResult.Headers result) headerName
               then []
               else ["required header '" +:+ headerName +:+ "' not present"])
            requiredHeaders
        else [] in
      (* json_path_exists and json_path_equals are not consulted. *)
      let errors := (status_errors ++ header_errors)%list in
      match errors with
      | [] => None
      | _ => Some ("expectation validation failed: " +:+ Go.Join errors "; ")
      end
  end.

(** *** Retry and backoff *)

Definition ShouldRetry (rc : RetryConfig.t) (err : option string) (statusCode : Z) : bool :=
  match err with
  | Some _ => true
  | None => existsb (Z.eqb statusCode) (RetryConfig.RetryOnStatusCodes rc)
  end.

(** [time.Time.Sub] saturates at the ends of [Duration]. *)
Definition time_Sub (t u : Z) : Z := Z.max Go.minInt64 (Z.min Go.maxInt64 (t - u)).

(** The layouts tried, in order: RFC1123, RFC1123Z, RFC822, RFC822Z,
    RFC850, ANSIC; the first that parses decides. *)
Definition layouts : list nat := seq 0 6.

Fixpoint parse_http_date (env : Env) (now : Z) (retryAfter : string)
         (ls : list nat) : result Z :=
  match ls with
  | [] => Err ("unable to parse retry-after: " +:+ retryAfter)
  | layout :: ls' =>
      match time_Parse env layout retryAfter with
      | Some t =>
          if now <? t then Ok (time_Sub t now)
          else Err "retry-after date is in the past"
      | None => parse_http_date env now retryAfter ls'
      end
  end.

(** [parseRetryAfter]; durations are nanoseconds. *)
Definition parseRetryAfter (env : Env) (now : Z) (retryAfter : string) : result Z :=
  let retryAfter := Go.TrimSpace retryAfter in
  match Go.ParseInt retryAfter with
  | Some seconds => Ok (Go.int64_mul seconds 1000000000)
  | None => parse_http_date env now retryAfter layouts
  end.

(** [int64(math.Pow(2, float64(k)))]: exact for [0 <= k <= 62], zero for a
    negative exponent, platform-defined from [2^63] on. *)
Definition pow2_int64 (env : Env) (k : Z) : Z :=
  if k <? 0 then 0
  else if k <=? 62 then 2 ^ k
  else float_out_of_range env.

Definition CalculateDelay (env : Env) (rc : RetryConfig.t) (attempt : Z)
           (retryAfter : string) : Z :=
  let from_header :=
    if RetryConfig.RespectRetryAfter rc && negb (String.eqb retryAfter "")
    then match parseRetryAfter env (time_Now env attempt) retryAfter with
         | Ok delay => Some delay
         | Err _ => None
         end
    else None in
  match from_header with
  | Some delay => delay
  | None =>
      let delayMs :=
        if String.eqb (RetryConfig.Backoff rc) "exponential"
        then Go.int64_mul (RetryConfig.MinDelayMs rc) (pow2_int64 env (Go.wrap64 (attempt - 1)))
        else if String.eqb (RetryConfig.Backoff rc) "linear"
        then Go.int64_mul (RetryConfig.MinDelayMs rc) attempt
        else RetryConfig.MinDelayMs rc in
      let delayMs :=
        if RetryConfig.MaxDelayMs rc <? delayMs then RetryConfig.MaxDelayMs rc
        else delayMs in
      let delay := Go.int64_mul delayMs 1000000 in
      if RetryConfig.Jitter rc
      then Go.int64_add delay (Go.int64_mul (rand_jitterMs env delayMs) 1000000)
      else delay
  end.

(** *** Poll conditions *)

Definition checkHeaderConditions (headers : gmap string string)
           (conditions : list (string * string)) : bool :=
  forallb
    (fun cond =>
       existsb (fun kv => Go.EqualFold (fst kv) (fst cond) && String.eqb (snd kv) (snd cond))
               (map_to_list headers))
    conditions.

Definition EvaluateRetryUntil (env : Env) (ruc : option RetryUntilConfig.t)
           (result : ResponseResult.t) : bool * list string :=
  match ruc with
  | None => (true, [])
  | Some ruc =>
      let codes := RetryUntilConfig.StatusCodes ruc in
      let u_status :=
        match codes with
        | [] => []
        | _ =>
            if existsb (Z.eqb (ResponseResult.StatusCode result)) codes then []
            else ["status code " +:+ Go.fmt_d (ResponseResult.StatusCode result)
                  +:+ " not in required codes " +:+ Go.fmt_v_ints codes]
        end in
      let u_json :=
        match RetryUntilConfig.JsonPathEquals ruc with
        | [] => []
        | conds =>
            if json_path_conditions env (ResponseResult.Body result) conds then []
            else ["JSON path conditions not satisfied"]
        end in
      let u_header :=
        match RetryUntilConfig.HeaderEquals ruc with
        | [] => []
        | conds =>
            if checkHeaderConditions (ResponseResult.Headers result) conds then []
            else ["header conditions not satisfied"]
        end in
      let u_regex :=
        if String.eqb (RetryUntilConfig.BodyRegex ruc) "" then []
        else match regexp_MatchString env (RetryUntilConfig.BodyRegex ruc)
                                      (ResponseResult.Body result) with
             | Err e => ["invalid regex pattern: " +:+ e]
             | Ok false => ["body does not match regex: " +:+ RetryUntilConfig.BodyRegex ruc]
             | Ok true => []
             end in
      let unsatisfied := (u_status ++ u_json ++ u_header ++ u_regex)%list in
      (match unsatisfied with [] => true | _ => false end, unsatisfied)
  end.

(** *** The retry loop *)

(** The variables that live across iterations. *)
Record loop_vars : Type := mkVars {
  lastErr : option string;
  lastResult : option ResponseResult.t;
  retryAfter : string;
}.

(** How one iteration ends: with a [return], with [continue], or in a
    panic. *)
Inductive step : Type :=
| StepReturn (o : outcome)
| StepContinue (vars : loop_vars)
| StepPanic (msg : string).

(** The [select] on the context and the timer. *)
Definition sleep (env : Env) (attempt delay : Z) (result : option ResponseResult.t)
           (next : loop_vars) : step :=
  match ctx_Done env attempt delay with
  | Some ctxErr => StepReturn (Failure result ctxErr)
  | None => StepContinue next
  end.

Definition next_retryAfter (rc : RetryConfig.t) (result : ResponseResult.t)
           (vars : loop_vars) : string :=
  if RetryConfig.RespectRetryAfter rc
  then match ResponseResult.Headers result !! "Retry-After" with
       | Some retryAfterHeader => retryAfterHeader
       | None => retryAfter vars
       end
  else retryAfter vars.

(** The body of the [for] loop at iteration [attempt]. *)
Definition iteration (env : Env) (req : http.Request) (cfg : config.ProviderConfig)
           (retryConfig : RetryConfig.t) (retryUntilConfig : option RetryUntilConfig.t)
           (attempts attempt : Z) (vars : loop_vars) (log : list http.Request)
  : step * list http.Request :=
  match ExecuteRequest env req cfg log with
  | (Panic msg, log') => (StepPanic msg, log')
  | (Return (Failure result err), log') =>
      if negb (ShouldRetry retryConfig (Some err) 0) || (attempts <=? attempt)
      then (StepReturn (Failure result err), log')
      else
        let delay := CalculateDelay env retryConfig attempt "" in
        (sleep env attempt delay result
               {| lastErr := Some err; lastResult := result;
                  retryAfter := retryAfter vars |}, log')
  | (Return (Success result), log') =>
      let finish := StepReturn (Success (ResponseResult.set_AttemptCount result attempt)) in
      let again :=
        let ra := next_retryAfter retryConfig result vars in
        let delay := CalculateDelay env retryConfig attempt ra in
        sleep env attempt delay (Some result)
              {| lastErr := lastErr vars; lastResult := Some result; retryAfter := ra |} in
      match retryUntilConfig with
      | Some _ =>
          let '(satisfied, unsatisfied) := EvaluateRetryUntil env retryUntilConfig result in
          if negb satisfied && (attempt <? attempts) then (again, log')
          else if satisfied then (finish, log')
          else (* neither [if] fires, the status check is for a nil
                  [retryUntilConfig] only: "success or no retry needed" *)
            (finish, log')
      | None =>
          if ShouldRetry retryConfig None (ResponseResult.StatusCode result)
             && (attempt <? attempts)
          then (again, log')
          else (finish, log')
      end
  end.

(** The [for] loop: [remaining] iterations are left, the next one is
    [attempt].  [inl] is a [return] (or panic) from inside the loop, [inr]
    is leaving the loop through its condition. *)
Fixpoint retry_loop (env : Env) (req : http.Request) (cfg : config.ProviderConfig)
         (retryConfig : RetryConfig.t) (retryUntilConfig : option RetryUntilConfig.t)
         (attempts : Z) (remaining : nat) (attempt : Z) (vars : loop_vars)
         (log : list http.Request) : (ret outcome + loop_vars) * list http.Request :=
  match remaining with
  | O => (inr vars, log)
  | S remaining' =>
      match iteration env req cfg retryConfig retryUntilConfig attempts attempt vars log with
      | (StepReturn o, log') => (inl (Return o), log')
      | (StepPanic msg, log') => (inl (Panic msg), log')
      | (StepContinue vars', log') =>
          retry_loop env req cfg retryConfig retryUntilConfig attempts
                     remaining' (attempt + 1) vars' log'
      end
  end.

(** The statements after the loop. *)
Definition exhausted (env : Env) (retryUntilConfig : option RetryUntilConfig.t)
           (attempts : Z) (vars : loop_vars) : outcome :=
  match lastResult vars with
  | Some lastResult =>
      let lastResult := ResponseResult.set_AttemptCount lastResult attempts in
      match retryUntilConfig with
      | Some _ =>
          let unsatisfied := snd (EvaluateRetryUntil env retryUntilConfig lastResult) in
          Failure (Some lastResult)
                  ("exhausted " +:+ Go.fmt_d attempts
                   +:+ " retry attempts, conditions not met: "
                   +:+ Go.fmt_v_strings unsatisfied)
      | None =>
          Failure (Some lastResult)
                  ("exhausted " +:+ Go.fmt_d attempts
                   +:+ " retry attempts, last status: "
                   +:+ Go.fmt_d (ResponseResult.StatusCode lastResult))
      end
  | None =>
      match lastErr vars with
      | Some e =>
          Failure (Some {| ResponseResult.StatusCode := 0;
                           ResponseResult.Headers := ∅;
                           ResponseResult.Body := "";
                           ResponseResult.AttemptCount := attempts;
                           ResponseResult.Error := e |})
                  ("exhausted " +:+ Go.fmt_d attempts +:+ " retry attempts: " +:+ e)
      | None =>
          Failure None ("exhausted " +:+ Go.fmt_d attempts +:+ " retry attempts")
      end
  end.

Definition default_poll_retry : RetryConfig.t :=
  {| RetryConfig.Attempts := 60;
     RetryConfig.MinDelayMs := 1000;
     RetryConfig.MaxDelayMs := 5000;
     RetryConfig.Backoff := "exponential";
     RetryConfig.Jitter := true;
     RetryConfig.RetryOnStatusCodes := [];
     RetryConfig.RespectRetryAfter := true |}.

Definition ExecuteRequestWithRetry (env : Env) (req : http.Request)
           (cfg : config.ProviderConfig) (retryConfig : option RetryConfig.t)
           (retryUntilConfig : option RetryUntilConfig.t) (log : list http.Request)
  : ret outcome * list http.Request :=
  match retryConfig, retryUntilConfig with
  | None, None => ExecuteRequest env req cfg log
  | _, _ =>
      let retryConfig := default default_poll_retry retryConfig in
      let attempts :=
        if RetryConfig.Attempts retryConfig <=? 0 then 1
        else RetryConfig.Attempts retryConfig in
      match retry_loop env req cfg retryConfig retryUntilConfig attempts
                       (Z.to_nat attempts) 1
                       {| lastErr := None; lastResult := None; retryAfter := "" |} log with
      | (inl r, log') => (r, log')
      | (inr vars, log') => (Return (exhausted env retryUntilConfig attempts vars), log')
      end
  end.

(** *** The request builder *)

(** [!v.IsNull() && !v.IsUnknown() && v.ValueString() != ""]. *)
Definition is_set (v : tf.value string) : bool :=
  negb (tf.IsNull v) && negb (tf.IsUnknown v) && negb (String.eqb (tf.ValueString v) "").

(** The body reader and [contentTypeSet]. *)
Definition select_body (env : Env) (config : RequestConfig.t)
  : result (option string * bool) :=
  if is_set (RequestConfig.Body config)
  then Ok (Some (tf.ValueString (RequestConfig.Body config)), false)
  else if is_set (RequestConfig.BodyJson config)
  then
    let text := tf.ValueString (RequestConfig.BodyJson config) in
    match json_Unmarshal env text with
    | Some e => Err ("invalid JSON in body_json: " +:+ e)
    | None =>
        match json_Marshal env text with
        | Err e => Err ("failed to marshal JSON: " +:+ e)
        | Ok jsonBytes =>
            Ok (Some jsonBytes,
                String.eqb (Go.map_index (default [] (RequestConfig.Headers config))
                                         "Content-Type") "")
        end
    end
  else if is_set (RequestConfig.BodyFile config)
  then
    let filePath := tf.ValueString (RequestConfig.BodyFile config) in
    match os_Open env filePath with
    | Some e => Err ("failed to open body_file: " +:+ e)
    | None =>
        match io_ReadAll env filePath with
        | Err e => Err ("failed to read body_file: " +:+ e)
        | Ok bodyBytes => Ok (Some bodyBytes, false)
        end
    end
  else Ok (None, false).

(** The merged [headers] map, keyed by lower-cased name. *)
Definition put_single (headers : gmap string (list string)) (kv : string * string)
  : gmap string (list string) :=
  <[Go.ToLower (fst kv) := [snd kv]]> headers.

Definition put_block (headers : gmap string (list string)) (hb : HeaderBlockModel.t)
  : gmap string (list string) :=
  if negb (tf.IsNull (HeaderBlockModel.Name hb))
     && negb (tf.IsNull (HeaderBlockModel.Value hb))
  then
    let key := Go.ToLower (tf.ValueString (HeaderBlockModel.Name hb)) in
    match headers !! key with
    | Some existing =>
        <[key := (existing ++ [tf.ValueString (HeaderBlockModel.Value hb)])%list]> headers
    | None => <[key := [tf.ValueString (HeaderBlockModel.Value hb)]]> headers
    end
  else headers.

Definition merge_headers (config : RequestConfig.t) (contentTypeSet : bool)
  : gmap string (list string) :=
  let headers : gmap string (list string) := ∅ in
  let headers :=
    match RequestConfig.ProviderDefaults config with
    | Some defaults => fold_left put_single (config.DefaultHeaders defaults) headers
    | None => headers
    end in
  let headers :=
    match RequestConfig.Headers config with
    | Some hs => fold_left put_single hs headers
    | None => headers
    end in
  let headers := fold_left put_block (RequestConfig.HeaderBlocks config) headers in
  if contentTypeSet then <["content-type" := ["application/json"]]> headers else headers.

(** [req.Header.Add(k, v)] for every value of every key. *)
Definition apply_headers (headers : gmap string (list string)) : http.Header :=
  map_fold (fun k values h => fold_left (fun h v => http.Header_Add h k v) values h)
           ∅ headers.

Definition basic_value (username password : string) : string :=
  "Basic " +:+ Go.base64_encode (username +:+ ":" +:+ password).

Definition set_basic_auth (config : RequestConfig.t) (h : http.Header) : http.Header :=
  match RequestConfig.BasicAuth config with
  | Some ba =>
      let username :=
        if negb (tf.IsNull (ResourceBasicAuthModel.Username ba))
           && negb (tf.IsUnknown (ResourceBasicAuthModel.Username ba))
        then tf.ValueString (ResourceBasicAuthModel.Username ba) else "" in
      let password :=
        if negb (tf.IsNull (ResourceBasicAuthModel.Password ba))
           && negb (tf.IsUnknown (ResourceBasicAuthModel.Password ba))
        then tf.ValueString (ResourceBasicAuthModel.Password ba) else "" in
      if negb (String.eqb username "") && negb (String.eqb password "")
      then http.Header_Set h "Authorization" (basic_value username password)
      else h
  | None =>
      match RequestConfig.ProviderDefaults config with
      | Some defaults =>
          match config.BasicAuth defaults with
          | Some ba =>
              if negb (String.eqb (config.Username ba) "")
                 && negb (String.eqb (config.Password ba) "")
              then http.Header_Set h "Authorization"
                                   (basic_value (config.Username ba) (config.Password ba))
              else h
          | None => h
          end
      | None => h
      end
  end.

Definition set_bearer (config : RequestConfig.t) (h : http.Header) : http.Header :=
  if is_set (RequestConfig.BearerToken config)
  then http.Header_Set h "Authorization"
                       ("Bearer " +:+ tf.ValueString (RequestConfig.BearerToken config))
  else
    match RequestConfig.ProviderDefaults config with
    | Some defaults =>
        match config.BearerToken defaults with
        | Some token => http.Header_Set h "Authorization" ("Bearer " +:+ token)
        | None => h
        end
    | None => h
    end.

Definition body_count (config : RequestConfig.t) : Z :=
  (if is_set (RequestConfig.Body config) then 1 else 0)
  + (if is_set (RequestConfig.BodyJson config) then 1 else 0)
  + (if is_set (RequestConfig.BodyFile config) then 1 else 0).

Definition BuildRequest (env : Env) (config : RequestConfig.t) : result http.Request :=
  match url_Parse env (RequestConfig.Url config) with
  | Err e => Err ("invalid URL: " +:+ e)
  | Ok parsed =>
      let reqURL :=
        match RequestConfig.Query config with
        | Some ((_ :: _) as query) => url_AddQuery env parsed query
        | _ => parsed
        end in
      if 1 <? body_count config
      then Err "only one of body, body_json, or body_file can be set"
      else
        match select_body env config with
        | Err e => Err e
        | Ok (bodyReader, contentTypeSet) =>
            match http_NewRequest env (RequestConfig.Method config) reqURL with
            | Some e => Err ("failed to create request: " +:+ e)
            | None =>
                let header := apply_headers (merge_headers config contentTypeSet) in
                let header := set_basic_auth config header in
                let header := set_bearer config header in
                Ok {| http.Method := RequestConfig.Method config;
                      http.URL := reqURL;
                      http.ReqHeader := header;
                      http.ReqBody := bodyReader |}
            end
        end
  end.

(** [ConvertTerraformMap]: nil for a null or unknown map. *)
Definition ConvertTerraformMap (tfMap : tf.Map) : option (list (string * string)) :=
  match tfMap with
  | tf.Known elements => Some (map (fun kv => (fst kv, tf.ValueString (snd kv))) elements)
  | _ => None
  end.

(** *** Retry configuration from the schema models *)

Definition known {A : Type} (v : tf.value A) : bool :=
  negb (tf.IsNull v) && negb (tf.IsUnknown v).

Definition BuildRetryConfig (retryModel : option RetryModel.t) : option RetryConfig.t :=
  match retryModel with
  | None => None
  | Some m =>
      Some
        {| RetryConfig.Attempts :=
             if known (RetryModel.Attempts m) then tf.ValueInt64 (RetryModel.Attempts m)
             else 20;
           RetryConfig.MinDelayMs :=
             if known (RetryModel.MinDelayMs m) then tf.ValueInt64 (RetryModel.MinDelayMs m)
             else 250;
           RetryConfig.MaxDelayMs :=
             if known (RetryModel.MaxDelayMs m) then tf.ValueInt64 (RetryModel.MaxDelayMs m)
             else 5000;
           RetryConfig.Backoff :=
             if known (RetryModel.Backoff m)
                && negb (String.eqb (tf.ValueString (RetryModel.Backoff m)) "")
             then tf.ValueString (RetryModel.Backoff m)
             else "exponential";
           RetryConfig.Jitter :=
             if known (RetryModel.Jitter m) then tf.ValueBool (RetryModel.Jitter m)
             else true;
           RetryConfig.RetryOnStatusCodes :=
             match ConvertTerraformList (RetryModel.RetryOnStatusCodes m) tf.ValueInt64 with
             | [] => [408; 429; 500; 502; 503; 504]
             | codes => codes
             end;
           RetryConfig.RespectRetryAfter :=
             if known (RetryModel.RespectRetryAfter m)
             then tf.ValueBool (RetryModel.RespectRetryAfter m)
             else true |}
  end.

Definition map_elements (m : tf.Map) : list (string * string) :=
  match m with
  | tf.Known elements => map (fun kv => (fst kv, tf.ValueString (snd kv))) elements
  | _ => []
  end.

Definition BuildRetryUntilConfig (retryUntilModel : option RetryUntilModel.t)
  : option RetryUntilConfig.t :=
  match retryUntilModel with
  | None => None
  | Some m =>
      Some
        {| RetryUntilConfig.StatusCodes :=
             ConvertTerraformList (RetryUntilModel.StatusCodes m) tf.ValueInt64;
           RetryUntilConfig.JsonPathEquals := map_elements (RetryUntilModel.JsonPathEquals m);
           RetryUntilConfig.HeaderEquals := map_elements (RetryUntilModel.HeaderEquals m);
           RetryUntilConfig.BodyRegex :=
             if known (RetryUntilModel.BodyRegex m)
             then tf.ValueString (RetryUntilModel.BodyRegex m)
             else "" |}
  end.

(** *** JSON paths *)

(** One segment of a path, at position [i] of [parts], applied to
    [current].  The slice between the brackets is taken before anything is
    looked up; it panics when the first bracket is the last byte. *)
Definition segment {F : Type} (parts : list string) (i : nat) (part : string)
           (current : json.value F) : ret (result (json.value F)) :=
  let before := Go.Join (firstn i parts) "." in
  let upto := Go.Join (firstn (S i) parts) "." in
  let idx := Go.Index part "[" in
  if negb (idx =? -1)
  then
    if Go.len part - 1 <? idx + 1
    then Panic ("slice bounds out of range [" +:+ Go.fmt_d (idx + 1) +:+ ":"
                +:+ Go.fmt_d (Go.len part - 1) +:+ "]")
    else
      let key := Go.take (Z.to_nat idx) part in
      let idxStr := Go.slice part (idx + 1) (Go.len part - 1) in
      let navigated :=
        if negb (String.eqb key "")
        then match current with
             | json.JObject m =>
                 match m !! key with
                 | Some val => Ok val
                 | None => Err ("key '" +:+ key +:+ "' not found at path '" +:+ upto +:+ "'")
                 end
             | _ => Err ("expected object at path '" +:+ before +:+ "'")
             end
        else Ok current in
      match navigated with
      | Err e => Return (Err e)
      | Ok current =>
          match current with
          | json.JArray arr =>
              match Go.Sscanf_d idxStr with
              | None => Return (Err ("invalid array index '" +:+ idxStr +:+ "'"))
              | Some idx =>
                  if (idx <? 0) || (Z.of_nat (length arr) <=? idx)
                  then Return (Err ("array index " +:+ Go.fmt_d idx
                                    +:+ " out of bounds (length: "
                                    +:+ Go.fmt_d (Z.of_nat (length arr)) +:+ ")"))
                  else match arr !! Z.to_nat idx with
                       | Some elem => Return (Ok elem)
                       | None => Panic "index out of range"
                       end
              end
          | _ => Return (Err ("expected array at path '" +:+ before +:+ "'"))
          end
      end
  else
    match current with
    | json.JObject m =>
        match m !! part with
        | Some val => Return (Ok val)
        | None => Return (Err ("key '" +:+ part +:+ "' not found at path '" +:+ upto +:+ "'"))
        end
    | _ => Return (Err ("expected object at path '" +:+ before +:+ "', got "
                        +:+ json.type_name current))
    end.

(** The loop over the segments: [todo] are the segments from position [i]
    on. *)
Fixpoint walk {F : Type} (parts : list string) (i : nat) (todo : list string)
         (current : json.value F) : ret (result (json.value F)) :=
  match todo with
  | [] => Return (Ok current)
  | part :: todo' =>
      match segment parts i part current with
      | Return (Ok next) => walk parts (S i) todo' next
      | stop => stop
      end
  end.

Definition evaluateJsonPath {F : Type} (data : json.value F) (path : string)
  : ret (result (json.value F)) :=
  if String.eqb path "" then Return (Ok data)
  else let parts := Go.Split path "." in walk parts 0 parts data.

(** What the callers keep of an evaluation: the value found, if any.  The
    text of an error is only logged. *)
Definition found {F : Type} (r : ret (result (json.value F))) : ret (option (json.value F)) :=
  match r with
  | Return (Ok v) => Return (Some v)
  | Return (Err _) => Return None
  | Panic msg => Panic msg
  end.

(** A byte that is neither the separator of segments nor the opening
    bracket of an index. *)
Definition is_name_byte (c : ascii) : bool :=
  negb (Ascii.eqb c ".") && negb (Ascii.eqb c "[").

(** [checkJsonPathConditions]; the conditions in the order the map is
    visited. *)
Fixpoint check_conditions {F : Type} (lib : json.codec F) (jsonData : json.value F)
         (conditions : list (string * string)) : ret bool :=
  match conditions with
  | [] => Return true
  | (path, expectedValue) :: conditions' =>
      match evaluateJsonPath jsonData path with
      | Panic msg => Panic msg
      | Return (Err _) => Return false
      | Return (Ok actualValue) =>
          let actualStr := json.fmt_v lib actualValue in
          let differs :=
            match json.Unmarshal lib expectedValue with
            | Some expectedParsed =>
                negb (String.eqb (json.fmt_v lib expectedParsed)
                                 (json.fmt_v lib actualValue))
            | None => negb (String.eqb actualStr expectedValue)
            end in
          if differs then Return false
          else check_conditions lib jsonData conditions'
      end
  end.

Definition checkJsonPathConditions {F : Type} (lib : json.codec F) (body : string)
           (conditions : list (string * string)) : ret bool :=
  if String.eqb body "" then Return false
  else match json.Unmarshal lib body with
       | None => Return false
       | Some jsonData => check_conditions lib jsonData conditions
       end.

(** *** Extraction *)

(** The first header, in the order the map is visited, whose name equals
    [headerName] up to letter case. *)
Definition header_value (headers : gmap string string) (headerName : string)
  : option string :=
  snd <$> List.find (fun kv => Go.EqualFold (fst kv) headerName) (map_to_list headers).

(** The [switch] on the type of the extracted value. *)
Definition to_text {F : Type} (lib : json.codec F) (v : json.value F) : string :=
  match v with
  | json.JString s => s
  | json.JBool b => if b then "true" else "false"
  | json.JNumber f => json.fmt_g lib f
  | json.JNull => ""
  | _ =>
      match json.Marshal lib v with
      | Ok jsonBytes => jsonBytes
      | Err _ => json.fmt_v lib v
      end
  end.

(** The body of the loop over the extract blocks.  [jsonData] is the
    decoded body when there is one ([hasJsonData]). *)
Definition extract_block {F : Type} (lib : json.codec F)
           (jsonData : option (json.value F)) (result : ResponseResult.t)
           (outputs : gmap string string) (extract : ExtractBlockModel.t)
  : ret (gmap string string) :=
  if tf.IsNull (ExtractBlockModel.Name extract)
     || tf.IsUnknown (ExtractBlockModel.Name extract)
  then Return outputs
  else
    let name := tf.ValueString (ExtractBlockModel.Name extract) in
    if String.eqb name "" then Return outputs
    else
      (* [None]: [outputs[name] = ""; continue] *)
      let from_path : ret (option string) :=
        if known (ExtractBlockModel.JsonPath extract)
           && negb (String.eqb (tf.ValueString (ExtractBlockModel.JsonPath extract)) "")
        then
          match jsonData with
          | None => Return None
          | Some jsonData =>
              match evaluateJsonPath jsonData
                      (tf.ValueString (ExtractBlockModel.JsonPath extract)) with
              | Panic msg => Panic msg
              | Return (Err _) => Return None
              | Return (Ok extractedValue) => Return (Some (to_text lib extractedValue))
              end
          end
        else Return (Some "") in
      match from_path with
      | Panic msg => Panic msg
      | Return None => Return (<[name := ""]> outputs)
      | Return (Some value) =>
          let value :=
            if known (ExtractBlockModel.Header extract)
               && negb (String.eqb (tf.ValueString (ExtractBlockModel.Header extract)) "")
            then default "" (header_value (ResponseResult.Headers result)
                                          (tf.ValueString (ExtractBlockModel.Header extract)))
            else value in
          Return (<[name := value]> outputs)
      end.

Fixpoint extract_blocks {F : Type} (lib : json.codec F)
         (jsonData : option (json.value F)) (result : ResponseResult.t)
         (extractBlocks : list ExtractBlockModel.t) (outputs : gmap string string)
  : ret (gmap string string) :=
  match extractBlocks with
  | [] => Return outputs
  | extract :: extractBlocks' =>
      match extract_block lib jsonData result outputs extract with
      | Panic msg => Panic msg
      | Return outputs' => extract_blocks lib jsonData result extractBlocks' outputs'
      end
  end.

(** [ExtractValues]; the error it returns is always nil. *)
Definition ExtractValues {F : Type} (lib : json.codec F) (result : ResponseResult.t)
           (extractBlocks : list ExtractBlockModel.t) : ret (gmap string string) :=
  match extractBlocks with
  | [] => Return ∅
  | _ =>
      let jsonData :=
        if String.eqb (ResponseResult.Body result) "" then None
        else json.Unmarshal lib (ResponseResult.Body result) in
      extract_blocks lib jsonData result extractBlocks ∅
  end.

(** *** Template interpolation *)

(** The pattern [\$\{self\.outputs\.([a-zA-Z0-9_]+)\}]. *)
Definition outputs_open : string := "${self.outputs.".

Definition template (key : string) : string := outputs_open +:+ key +:+ "}".

Definition is_key_byte (c : ascii) : bool :=
  let n := N_of_ascii c in
  (((48 <=? n) && (n <=? 57)) || ((65 <=? n) && (n <=? 90))
   || ((97 <=? n) && (n <=? 122)) || (n =? 95))%N.

(** The longest run of key bytes, and what follows it. *)
Fixpoint span_key (s : string) : string * string :=
  match s with
  | "" => ("", "")
  | String c s' =>
      if is_key_byte c
      then let '(k, rest) := span_key s' in (String c k, rest)
      else ("", s)
  end.

(** A match of the pattern at the start of [s]: its key and the text after
    the match.  The matched text is [template key]. *)
Definition match_outputs (s : string) : option (string * string) :=
  match Go.strip_prefix outputs_open s with
  | None => None
  | Some after_open =>
      match span_key after_open with
      | (String _ _ as key, String c rest) =>
          if Ascii.eqb c "}" then Some (key, rest) else None
      | (_, _) => None
      end
  end.

(** The replacement callback and the [lastErr] it leaves behind. *)
Definition expand (outputs : gmap string string) (key : string) : string :=
  match outputs !! key with
  | Some val => val
  | None => template key
  end.

Definition record_missing (outputs : gmap string string) (lastErr : option string)
           (tok : Go.token string) : option string :=
  match tok with
  | Go.Hit key =>
      match outputs !! key with
      | Some _ => lastErr
      | None => Some key
      end
  | Go.Lit _ => lastErr
  end.

Definition last_missing (outputs : gmap string string) (toks : list (Go.token string))
  : option string :=
  fold_left (record_missing outputs) toks None.

Definition InterpolateString (text : string) (interpolCtx : option InterpolationContext.t)
  : result string :=
  match interpolCtx with
  | None => Ok text
  | Some ctx =>
      if String.eqb text "" then Ok text
      else
        let toks := Go.scan match_outputs text in
        let result := Go.render (expand (InterpolationContext.Outputs ctx)) toks in
        match last_missing (InterpolationContext.Outputs ctx) toks with
        | Some key => Err ("output key not found: " +:+ key)
        | None => Ok (Go.ReplaceAll result "${self.id}" (InterpolationContext.ID ctx))
        end
  end.

(** [InterpolateStringValue]: with an error the value returned is null. *)
Definition InterpolateStringValue (val : tf.value string)
           (interpolCtx : option InterpolationContext.t)
  : tf.value string * option string :=
  if tf.IsNull val || tf.IsUnknown val then (val, None)
  else match InterpolateString (tf.ValueString val) interpolCtx with
       | Err e => (tf.Null, Some e)
       | Ok expanded => (tf.Known expanded, None)
       end.

Fixpoint interpolate_entries (m : list (string * string))
         (interpolCtx : option InterpolationContext.t) : result (list (string * string)) :=
  match m with
  | [] => Ok []
  | (key, val) :: m' =>
      match InterpolateString val interpolCtx with
      | Err e =>
          Err ("failed to interpolate map value for key " +:+ Go.fmt_q key +:+ ": " +:+ e)
      | Ok expanded =>
          match interpolate_entries m' interpolCtx with
          | Err e => Err e
          | Ok rest => Ok ((key, expanded) :: rest)
          end
      end
  end.

Definition InterpolateMap (m : option (list (string * string)))
           (interpolCtx : option InterpolationContext.t)
  : result (option (list (string * string))) :=
  match m, interpolCtx with
  | Some ((_ :: _) as entries), Some _ =>
      match interpolate_entries entries interpolCtx with
      | Err e => Err e
      | Ok result => Ok (Some result)
      end
  | _, _ => Ok m
  end.

Fixpoint interpolate_blocks (blocks : list HeaderBlockModel.t)
         (interpolCtx : option InterpolationContext.t) : result (list HeaderBlockModel.t) :=
  match blocks with
  | [] => Ok []
  | block :: blocks' =>
      match InterpolateString (tf.ValueString (HeaderBlockModel.Value block)) interpolCtx with
      | Err e =>
          Err ("failed to interpolate header "
               +:+ Go.fmt_q (tf.ValueString (HeaderBlockModel.Name block)) +:+ ": " +:+ e)
      | Ok expandedValue =>
          match interpolate_blocks blocks' interpolCtx with
          | Err e => Err e
          | Ok rest =>
              Ok ({| HeaderBlockModel.Name := HeaderBlockModel.Name block;
                     HeaderBlockModel.Value := tf.Known expandedValue |} :: rest)
          end
      end
  end.

Definition InterpolateHeaderBlocks (blocks : list HeaderBlockModel.t)
           (interpolCtx : option InterpolationContext.t) : result (list HeaderBlockModel.t) :=
  match blocks, interpolCtx with
  | _ :: _, Some _ => interpolate_blocks blocks interpolCtx
  | _, _ => Ok blocks
  end.

(** [BuildInterpolationContextFromState]: decoding an unknown [outputs]
    map is the one failure. *)
Definition BuildInterpolationContextFromState (state : HttpxRequestResourceModel.t)
  : result InterpolationContext.t :=
  let with_outputs (outputs : gmap string string) :=
    {| InterpolationContext.ID := tf.ValueString (HttpxRequestResourceModel.Id state);
       InterpolationContext.Outputs := outputs;
       InterpolationContext.ResponseBody :=
         if tf.IsNull (HttpxRequestResourceModel.ResponseBody state) then ""
         else tf.ValueString (HttpxRequestResourceModel.ResponseBody state);
       InterpolationContext.StatusCode :=
         tf.ValueInt64 (HttpxRequestResourceModel.StatusCode state) |} in
  match HttpxRequestResourceModel.Outputs state with
  | tf.Null => Ok (with_outputs ∅)
  | tf.Unknown => Err "failed to parse outputs from state"
  | tf.Known elements =>
      Ok (with_outputs
            (fold_left (fun outputs kv => <[fst kv := tf.ValueString (snd kv)]> outputs)
                       elements ∅))
  end.

(** *** The destroy orchestrator *)

(** An error diagnostic: summary and detail. *)
Definition diagnostic : Type := (string * string).

(** [types.MapValueMust] over the expanded entries. *)
Definition to_tf_map (m : option (list (string * string))) : tf.Map :=
  tf.Known (map (fun kv => (fst kv, tf.Known (snd kv))) (default [] m)).

(** [if !v.IsNull() { expanded, err := InterpolateString(...) ... }] for a
    string attribute, and the same for a map attribute. *)
Definition expand_string_field (v : tf.value string)
           (interpolCtx : option InterpolationContext.t) : result (tf.value string) :=
  if tf.IsNull v then Ok v
  else match InterpolateString (tf.ValueString v) interpolCtx with
       | Err e => Err e
       | Ok expanded => Ok (tf.Known expanded)
       end.

Definition expand_map_field (m : tf.Map) (interpolCtx : option InterpolationContext.t)
  : result tf.Map :=
  if tf.IsNull m then Ok m
  else match InterpolateMap (ConvertTerraformMap m) interpolCtx with
       | Err e => Err e
       | Ok expanded => Ok (to_tf_map expanded)
       end.

(** The six expansions of [Delete], in its order; the first failure ends
    the operation with one diagnostic. *)
Definition expand_destroy_config (d : RequestConfigModel.t)
           (interpolCtx : option InterpolationContext.t)
  : diagnostic + RequestConfigModel.t :=
  match expand_string_field (RequestConfigModel.Url d) interpolCtx with
  | Err e => inl ("Failed to interpolate destroy URL", e)
  | Ok url =>
  match expand_map_field (RequestConfigModel.Headers d) interpolCtx with
  | Err e => inl ("Failed to interpolate destroy headers", e)
  | Ok headers =>
  match InterpolateHeaderBlocks (RequestConfigModel.HeaderBlocks d) interpolCtx with
  | Err e => inl ("Failed to interpolate destroy headers", e)
  | Ok blocks =>
  match expand_map_field (RequestConfigModel.Query d) interpolCtx with
  | Err e => inl ("Failed to interpolate destroy query", e)
  | Ok query =>
  match expand_string_field (RequestConfigModel.Body d) interpolCtx with
  | Err e => inl ("Failed to interpolate destroy body", e)
  | Ok body =>
  match expand_string_field (RequestConfigModel.BodyJson d) interpolCtx with
  | Err e => inl ("Failed to interpolate destroy body_json", e)
  | Ok bodyJson =>
      inr {| RequestConfigModel.Url := url;
             RequestConfigModel.Method := RequestConfigModel.Method d;
             RequestConfigModel.Headers := headers;
             RequestConfigModel.Query := query;
             RequestConfigModel.Body := body;
             RequestConfigModel.BodyJson := bodyJson;
             RequestConfigModel.BodyFile := RequestConfigModel.BodyFile d;
             RequestConfigModel.BearerToken := RequestConfigModel.BearerToken d;
             RequestConfigModel.HeaderBlocks := blocks;
             RequestConfigModel.BasicAuth := RequestConfigModel.BasicAuth d;
             RequestConfigModel.Retry := RequestConfigModel.Retry d;
             RequestConfigModel.RetryUntil := RequestConfigModel.RetryUntil d;
             RequestConfigModel.Expect := RequestConfigModel.Expect d |}
  end end end end end end.

(** [Delete]: the error diagnostics it adds, and the wire log. *)
Definition Delete (env : Env) (providerConfig : config.ProviderConfig)
           (model : HttpxRequestResourceModel.t) (log : list http.Request)
  : ret (list diagnostic) * list http.Request :=
  match HttpxRequestResourceModel.OnDestroy model with
  | None => (Return [], log)
  | Some destroyConfig =>
      match BuildInterpolationContextFromState model with
      | Err e => (Return [("Failed to build interpolation context", e)], log)
      | Ok interpolCtx =>
          match expand_destroy_config destroyConfig (Some interpolCtx) with
          | inl diag => (Return [diag], log)
          | inr destroyConfig =>
              match BuildRequest env
                      {| RequestConfig.Url :=
                           tf.ValueString (RequestConfigModel.Url destroyConfig);
                         RequestConfig.Method :=
                           tf.ValueString (RequestConfigModel.Method destroyConfig);
                         RequestConfig.Headers :=
                           ConvertTerraformMap (RequestConfigModel.Headers destroyConfig);
                         RequestConfig.HeaderBlocks :=
                           RequestConfigModel.HeaderBlocks destroyConfig;
                         RequestConfig.Query :=
                           ConvertTerraformMap (RequestConfigModel.Query destroyConfig);
                         RequestConfig.Body := RequestConfigModel.Body destroyConfig;
                         RequestConfig.BodyJson := RequestConfigModel.BodyJson destroyConfig;
                         RequestConfig.BodyFile := RequestConfigModel.BodyFile destroyConfig;
                         RequestConfig.BasicAuth := RequestConfigModel.BasicAuth destroyConfig;
                         RequestConfig.BearerToken :=
                           RequestConfigModel.BearerToken destroyConfig;
                         RequestConfig.ProviderDefaults := Some providerConfig |} with
              | Err e => (Return [("Failed to build destroy request", e)], log)
              | Ok httpReq =>
                  let retryConfig := BuildRetryConfig (RequestConfigModel.Retry destroyConfig) in
                  let retryUntilConfig :=
                    BuildRetryUntilConfig (RequestConfigModel.RetryUntil destroyConfig) in
                  match ExecuteRequestWithRetry env httpReq providerConfig retryConfig
                                                retryUntilConfig log with
                  | (Panic msg, log') => (Panic msg, log')
                  | (Return (Failure _ err), log') =>
                      (Return [("Destroy request failed", err)], log')
                  | (Return (Success result), log') =>
                      match RequestConfigModel.Expect destroyConfig with
                      | Some _ =>
                          match ValidateExpectations
                                  result (RequestConfigModel.Expect destroyConfig) with
                          | Some err =>
                              (Return [("Destroy expectation validation failed", err)], log')
                          | None => (Return [], log')
                          end
                      | None => (Return [], log')
                      end
                  end
              end
          end
      end
  end.

(** The plugin framework's part: after [Delete] returns, the resource is
    dropped from state unless the response carries an error diagnostic, in
    which case the prior state stays as it was. *)
Definition state_after_delete (prior : HttpxRequestResourceModel.t)
           (diagnostics : list diagnostic) : option HttpxRequestResourceModel.t :=
  match diagnostics with
  | [] => None
  | _ => Some prior
  end.

(** *** The resource ID *)

Definition generateResourceID (model : HttpxRequestResourceModel.t) : string :=
  let hashInput :=
    tf.ValueString (HttpxRequestResourceModel.Url model) +:+ "|"
    +:+ tf.ValueString (HttpxRequestResourceModel.Method model) +:+ "|"
    +:+ tf.ValueString (HttpxRequestResourceModel.Body model) in
  let hash := sha256.Sum256 (Go.bytes hashInput) in
  Go.take 16 (hex.EncodeToString hash).

(** *** The data source *)

Definition generateDataSourceID (model : HttpxRequestDataSourceModel.t) : string :=
  let hashInput :=
    tf.ValueString (HttpxRequestDataSourceModel.Url model) +:+ "|"
    +:+ tf.ValueString (HttpxRequestDataSourceModel.Method model) +:+ "|"
    +:+ tf.ValueString (HttpxRequestDataSourceModel.Body model) in
  let hash := sha256.Sum256 (Go.bytes hashInput) in
  Go.take 16 (hex.EncodeToString hash).

(** [types.MapValueMust] over a Go map of strings. *)
Definition strings_to_tf_map (m : gmap string string) : tf.Map :=
  tf.Known (map (fun kv => (fst kv, tf.Known (snd kv))) (map_to_list m)).

Module HttpxRequestDataSource.

(** [Read]: either the one error diagnostic it adds, or the state it
    sets; and the wire log. *)
Definition Read {F : Type} (env : Env) (lib : json.codec F)
           (providerConfig : config.ProviderConfig)
           (model : HttpxRequestDataSourceModel.t) (log : list http.Request)
  : ret (diagnostic + HttpxRequestDataSourceModel.t) * list http.Request :=
  match BuildRequest env
          {| RequestConfig.Url := tf.ValueString (HttpxRequestDataSourceModel.Url model);
             RequestConfig.Method := tf.ValueString (HttpxRequestDataSourceModel.Method model);
             RequestConfig.Headers :=
               ConvertTerraformMap (HttpxRequestDataSourceModel.Headers model);
             RequestConfig.HeaderBlocks := HttpxRequestDataSourceModel.HeaderBlocks model;
             RequestConfig.Query :=
               ConvertTerraformMap (HttpxRequestDataSourceModel.Query model);
             RequestConfig.Body := HttpxRequestDataSourceModel.Body model;
             RequestConfig.BodyJson := HttpxRequestDataSourceModel.BodyJson model;
             RequestConfig.BodyFile := HttpxRequestDataSourceModel.BodyFile model;
             RequestConfig.BasicAuth := HttpxRequestDataSourceModel.BasicAuth model;
             RequestConfig.BearerToken := HttpxRequestDataSourceModel.BearerToken model;
             RequestConfig.ProviderDefaults := Some providerConfig |} with
  | Err e => (Return (inl ("Failed to build request", e)), log)
  | Ok httpReq =>
      let retryConfig := BuildRetryConfig (HttpxRequestDataSourceModel.Retry model) in
      let retryUntilConfig :=
        BuildRetryUntilConfig (HttpxRequestDataSourceModel.RetryUntil model) in
      match ExecuteRequestWithRetry env httpReq providerConfig retryConfig
                                    retryUntilConfig log with
      | (Panic msg, log') => (Panic msg, log')
      | (Return (Failure _ err), log') => (Return (inl ("Request failed", err)), log')
      | (Return (Success result), log') =>
          match ValidateExpectations result (HttpxRequestDataSourceModel.Expect model) with
          | Some err => (Return (inl ("Expectation validation failed", err)), log')
          | None =>
              let id := generateDataSourceID model in
              let storeBody :=
                if known (HttpxRequestDataSourceModel.StoreResponseBody model)
                then tf.ValueBool (HttpxRequestDataSourceModel.StoreResponseBody model)
                else false in
              match ExtractValues lib result
                      (HttpxRequestDataSourceModel.ExtractBlocks model) with
              | Panic msg => (Panic msg, log')
              | Return extractedOutputs =>
                  (Return (inr
                     {| HttpxRequestDataSourceModel.Id := tf.Known id;
                        HttpxRequestDataSourceModel.Url :=
                          HttpxRequestDataSourceModel.Url model;
                        HttpxRequestDataSourceModel.Method :=
                          HttpxRequestDataSourceModel.Method model;
                        HttpxRequestDataSourceModel.Headers :=
                          HttpxRequestDataSourceModel.Headers model;
                        HttpxRequestDataSourceModel.Query :=
                          HttpxRequestDataSourceModel.Query model;
                        HttpxRequestDataSourceModel.Body :=
                          HttpxRequestDataSourceModel.Body model;
                        HttpxRequestDataSourceModel.BodyJson :=
                          HttpxRequestDataSourceModel.BodyJson model;
                        HttpxRequestDataSourceModel.BodyFile :=
                          HttpxRequestDataSourceModel.BodyFile model;
                        HttpxRequestDataSourceModel.BearerToken :=
                          HttpxRequestDataSourceModel.BearerToken model;
                        HttpxRequestDataSourceModel.StoreResponseBody :=
                          HttpxRequestDataSourceModel.StoreResponseBody model;
                        HttpxRequestDataSourceModel.StatusCode :=
                          tf.Known (ResponseResult.StatusCode result);
                        HttpxRequestDataSourceModel.ResponseHeaders :=
                          strings_to_tf_map (ResponseResult.Headers result);
                        HttpxRequestDataSourceModel.ResponseBody :=
                          if storeBody then tf.Known (ResponseResult.Body result)
                          else tf.Null;
                        HttpxRequestDataSourceModel.Outputs :=
                          strings_to_tf_map extractedOutputs;
                        HttpxRequestDataSourceModel.LastAttemptCount :=
                          tf.Known (ResponseResult.AttemptCount result);
                        HttpxRequestDataSourceModel.LastError :=
                          if negb (String.eqb (ResponseResult.Error result) "")
                          then tf.Known (ResponseResult.Error result)
                          else tf.Null;
                        HttpxRequestDataSourceModel.HeaderBlocks :=
                          HttpxRequestDataSourceModel.HeaderBlocks model;
                        HttpxRequestDataSourceModel.BasicAuth :=
                          HttpxRequestDataSourceModel.BasicAuth model;
                        HttpxRequestDataSourceModel.Retry :=
                          HttpxRequestDataSourceModel.Retry model;
                        HttpxRequestDataSourceModel.RetryUntil :=
                          HttpxRequestDataSourceModel.RetryUntil model;
                        HttpxRequestDataSourceModel.Expect :=
                          HttpxRequestDataSourceModel.Expect model;
                        HttpxRequestDataSourceModel.ExtractBlocks :=
                          HttpxRequestDataSourceModel.ExtractBlocks model |}), log')
              end
          end
      end
  end.

End HttpxRequestDataSource.

(** *** Vocabulary of the statements on headers *)

(** The values that a map of headers, in the order it is visited, and the
    [header] blocks give for the lower-case name [key]. *)
Definition map_values (key : string) (m : list (string * string)) : list string :=
  map snd (List.filter (fun kv => String.eqb (Go.ToLower (fst kv)) key) m).

Definition block_values (key : string) (blocks : list HeaderBlockModel.t) : list string :=
  map (fun hb => tf.ValueString (HeaderBlockModel.Value hb))
      (List.filter
         (fun hb =>
            negb (tf.IsNull (HeaderBlockModel.Name hb))
            && negb (tf.IsNull (HeaderBlockModel.Value hb))
            && String.eqb (Go.ToLower (tf.ValueString (HeaderBlockModel.Name hb))) key)
         blocks).

(** *** Vocabulary of the destroy-time statements *)

(** The matched text after its dollar sign, and the bytes it is made of. *)
Definition template_tail (key : string) : string := "{self.outputs." +:+ key +:+ "}".

Definition not_dollar (c : ascii) : bool := negb (Ascii.eqb c "$").

(** [sub] occurs in [text]. *)
Definition occurs (sub text : string) : Prop :=
  exists pre post, text = pre +:+ sub +:+ post.

(** A key the pattern accepts: one or more bytes of [A-Za-z0-9_]. *)
Definition valid_key (key : string) : Prop :=
  key <> "" /\ http.all_bytes is_key_byte key = true.

(** What an interpolation error says about [text]: it names a key that the
    pattern accepts, that is absent from the outputs, and whose template
    occurs in [text]. *)
Definition key_not_found (outputs : gmap string string) (text e : string) : Prop :=
  exists key, e = "output key not found: " +:+ key
              /\ outputs !! key = None /\ valid_key key /\ occurs (template key) text.

(** The strings of a destroy block that [Delete] expands: the URL, the
    values of the [headers] map, the values of the [header] blocks, the
    values of the [query] map, and the two bodies. *)
Inductive template_field (d : RequestConfigModel.t) : string -> Prop :=
| field_url :
    tf.IsNull (RequestConfigModel.Url d) = false ->
    template_field d (tf.ValueString (RequestConfigModel.Url d))
| field_header (k : string) (v : tf.value string) (elements : list (string * tf.value string)) :
    RequestConfigModel.Headers d = tf.Known elements -> In (k, v) elements ->
    template_field d (tf.ValueString v)
| field_block (hb : HeaderBlockModel.t) :
    In hb (RequestConfigModel.HeaderBlocks d) ->
    template_field d (tf.ValueString (HeaderBlockModel.Value hb))
| field_query (k : string) (v : tf.value string) (elements : list (string * tf.value string)) :
    RequestConfigModel.Query d = tf.Known elements -> In (k, v) elements ->
    template_field d (tf.ValueString v)
| field_body :
    tf.IsNull (RequestConfigModel.Body d) = false ->
    template_field d (tf.ValueString (RequestConfigModel.Body d))
| field_body_json :
    tf.IsNull (RequestConfigModel.BodyJson d) = false ->
    template_field d (tf.ValueString (RequestConfigModel.BodyJson d)).

(** What the detail of an interpolation diagnostic says about the destroy
    block [d]: after some context it is a key-not-found error for one of the
    strings that [Delete] expands. *)
Definition missing_key_error (outputs : gmap string string) (d : RequestConfigModel.t)
           (detail : string) : Prop :=
  exists context e text,
    detail = context +:+ e /\ template_field d text /\ key_not_found outputs text e.

End provider.

(** ** Sample inputs *)

Module sample.

(** An environment in which every library call succeeds, the context is
    never cancelled and the transport plays the given script. *)
Definition env (script : nat -> http.DoResult) : Env :=
  {| url_Parse := fun u => Ok u;
     url_AddQuery := fun u _ => u;
     json_Unmarshal := fun _ => None;
     json_Marshal := fun v => Ok v;
     os_Open := fun _ => None;
     io_ReadAll := fun _ => Ok "";
     http_NewRequest := fun _ _ => None;
     x509_AppendCertsFromPEM := fun _ => true;
     tls_X509KeyPair := fun _ _ => None;
     http_Do := fun _ n => script n;
     ctx_Done := fun _ _ => None;
     time_Now := fun _ => 0;
     time_Parse := fun _ _ => None;
     rand_jitterMs := fun _ => 0;
     float_out_of_range := Go.minInt64;
     regexp_MatchString := fun _ _ => Ok true;
     json_path_conditions := fun _ _ => true |}.

Definition cfg (maxBytes : Z) : config.ProviderConfig :=
  {| config.DefaultHeaders := [];
     config.BasicAuth := None;
     config.BearerToken := None;
     config.TimeoutMs := 30000;
     config.InsecureSkipVerify := false;
     config.ProxyUrl := None;
     config.CaCertPem := None;
     config.ClientCertPem := None;
     config.ClientKeyPem := None;
     config.RedactHeaders := ["Authorization"; "Proxy-Authorization"; "X-Api-Key"];
     config.MaxResponseBodyBytes := maxBytes;
     config.Debug := false |}.

Definition get (url : string) : http.Request :=
  {| http.Method := "GET"; http.URL := url; http.ReqHeader := ∅; http.ReqBody := None |}.

Definition respond (status : Z) (body : string) : http.DoResult :=
  http.DoResponse {| http.StatusCode := status; http.RespHeader := ∅;
                     http.RespBody := body; http.RespReadError := None |}.

Definition retry (attempts : Z) (backoff : string) (codes : list Z) : RetryConfig.t :=
  {| RetryConfig.Attempts := attempts;
     RetryConfig.MinDelayMs := 1000;
     RetryConfig.MaxDelayMs := 5000;
     RetryConfig.Backoff := backoff;
     RetryConfig.Jitter := false;
     RetryConfig.RetryOnStatusCodes := codes;
     RetryConfig.RespectRetryAfter := false |}.

Definition until_status (codes : list Z) : RetryUntilConfig.t :=
  {| RetryUntilConfig.StatusCodes := codes;
     RetryUntilConfig.JsonPathEquals := [];
     RetryUntilConfig.HeaderEquals := [];
     RetryUntilConfig.BodyRegex := "" |}.

(** Provider defaults and a POST of a JSON array. *)
Definition defaults (headers : list (string * string))
           (basic : option config.BasicAuthModel) (bearer : option string)
  : config.ProviderConfig :=
  {| config.DefaultHeaders := headers;
     config.BasicAuth := basic;
     config.BearerToken := bearer;
     config.TimeoutMs := 30000;
     config.InsecureSkipVerify := false;
     config.ProxyUrl := None;
     config.CaCertPem := None;
     config.ClientCertPem := None;
     config.ClientKeyPem := None;
     config.RedactHeaders := ["Authorization"; "Proxy-Authorization"; "X-Api-Key"];
     config.MaxResponseBodyBytes := 1048576;
     config.Debug := false |}.

Definition post_json (headers : option (list (string * string)))
           (blocks : list HeaderBlockModel.t)
           (basic : option ResourceBasicAuthModel.t) (bearer : tf.value string)
           (providerDefaults : option config.ProviderConfig) : RequestConfig.t :=
  {| RequestConfig.Url := "https://example.test/items";
     RequestConfig.Method := "POST";
     RequestConfig.Headers := headers;
     RequestConfig.HeaderBlocks := blocks;
     RequestConfig.Query := None;
     RequestConfig.Body := tf.Null;
     RequestConfig.BodyJson := tf.Known "[1,2]";
     RequestConfig.BodyFile := tf.Null;
     RequestConfig.BasicAuth := basic;
     RequestConfig.BearerToken := bearer;
     RequestConfig.ProviderDefaults := providerDefaults |}.

Definition quiet : Env := env (fun _ => respond 200 "").

(** The same environment with a clock that reads [now] while every date
    parses to the instant [t]. *)
Definition clock (now t : Z) : Env :=
  {| url_Parse := fun u => Ok u;
     url_AddQuery := fun u _ => u;
     json_Unmarshal := fun _ => None;
     json_Marshal := fun v => Ok v;
     os_Open := fun _ => None;
     io_ReadAll := fun _ => Ok "";
     http_NewRequest := fun _ _ => None;
     x509_AppendCertsFromPEM := fun _ => true;
     tls_X509KeyPair := fun _ _ => None;
     http_Do := fun _ _ => respond 200 "";
     ctx_Done := fun _ _ => None;
     time_Now := fun _ => now;
     time_Parse := fun _ _ => Some t;
     rand_jitterMs := fun _ => 0;
     float_out_of_range := Go.minInt64;
     regexp_MatchString := fun _ _ => Ok true;
     json_path_conditions := fun _ _ => true |}.

(** A destroy block and the state of a resource that carries it. *)
Definition destroy (url : string) (headers : tf.Map) (expect : option ExpectModel.t)
  : RequestConfigModel.t :=
  {| RequestConfigModel.Url := tf.Known url;
     RequestConfigModel.Method := tf.Known "DELETE";
     RequestConfigModel.Headers := headers;
     RequestConfigModel.Query := tf.Null;
     RequestConfigModel.Body := tf.Null;
     RequestConfigModel.BodyJson := tf.Null;
     RequestConfigModel.BodyFile := tf.Null;
     RequestConfigModel.BearerToken := tf.Null;
     RequestConfigModel.HeaderBlocks := [];
     RequestConfigModel.BasicAuth := None;
     RequestConfigModel.Retry := None;
     RequestConfigModel.RetryUntil := None;
     RequestConfigModel.Expect := expect |}.

Definition state (id : string) (outputs : list (string * tf.value string))
           (onDestroy : option RequestConfigModel.t) : HttpxRequestResourceModel.t :=
  {| HttpxRequestResourceModel.Id := tf.Known id;
     HttpxRequestResourceModel.StatusCode := tf.Known 201;
     HttpxRequestResourceModel.ResponseBody := tf.Null;
     HttpxRequestResourceModel.Outputs := tf.Known outputs;
     HttpxRequestResourceModel.Url := tf.Known "https://api.test/users";
     HttpxRequestResourceModel.Method := tf.Known "POST";
     HttpxRequestResourceModel.Headers := tf.Null;
     HttpxRequestResourceModel.Query := tf.Null;
     HttpxRequestResourceModel.Body := tf.Null;
     HttpxRequestResourceModel.BodyJson := tf.Null;
     HttpxRequestResourceModel.BodyFile := tf.Null;
     HttpxRequestResourceModel.OnDestroy := onDestroy |}.

Definition expect_status (codes : list Z) : ExpectModel.t :=
  {| ExpectModel.StatusCodes := tf.Known (map tf.Known codes);
     ExpectModel.JsonPathExists := tf.Null;
     ExpectModel.JsonPathEquals := tf.Null;
     ExpectModel.HeaderPresent := tf.Null |}.

(** A data source that reads [https://api.test/users/u42], and a decoder
    that knows one document. *)
Definition lookup (storeResponseBody : tf.value bool)
           (extractBlocks : list ExtractBlockModel.t) : HttpxRequestDataSourceModel.t :=
  {| HttpxRequestDataSourceModel.Id := tf.Unknown;
     HttpxRequestDataSourceModel.Url := tf.Known "https://api.test/users/u42";
     HttpxRequestDataSourceModel.Method := tf.Known "GET";
     HttpxRequestDataSourceModel.Headers := tf.Null;
     HttpxRequestDataSourceModel.Query := tf.Null;
     HttpxRequestDataSourceModel.Body := tf.Null;
     HttpxRequestDataSourceModel.BodyJson := tf.Null;
     HttpxRequestDataSourceModel.BodyFile := tf.Null;
     HttpxRequestDataSourceModel.BearerToken := tf.Null;
     HttpxRequestDataSourceModel.StoreResponseBody := storeResponseBody;
     HttpxRequestDataSourceModel.StatusCode := tf.Unknown;
     HttpxRequestDataSourceModel.ResponseHeaders := tf.Unknown;
     HttpxRequestDataSourceModel.ResponseBody := tf.Unknown;
     HttpxRequestDataSourceModel.Outputs := tf.Unknown;
     HttpxRequestDataSourceModel.LastAttemptCount := tf.Unknown;
     HttpxRequestDataSourceModel.LastError := tf.Unknown;
     HttpxRequestDataSourceModel.HeaderBlocks := [];
     HttpxRequestDataSourceModel.BasicAuth := None;
     HttpxRequestDataSourceModel.Retry := None;
     HttpxRequestDataSourceModel.RetryUntil := None;
     HttpxRequestDataSourceModel.Expect := None;
     HttpxRequestDataSourceModel.ExtractBlocks := extractBlocks |}.

Definition decoder (document : json.value Z) : json.codec Z :=
  {| json.Unmarshal := fun _ => Some document;
     json.Marshal := fun _ => Err "unsupported";
     json.fmt_g := Go.fmt_d;
     json.fmt_v := fun _ => "" |}.

(** A resource that posts to [https://api.test/users] with no raw body. *)
Definition resource (headers query : tf.Map) (bodyJson bodyFile : tf.value string)
  : HttpxRequestResourceModel.t :=
  {| HttpxRequestResourceModel.Id := tf.Unknown;
     HttpxRequestResourceModel.StatusCode := tf.Unknown;
     HttpxRequestResourceModel.ResponseBody := tf.Unknown;
     HttpxRequestResourceModel.Outputs := tf.Unknown;
     HttpxRequestResourceModel.Url := tf.Known "https://api.test/users";
     HttpxRequestResourceModel.Method := tf.Known "POST";
     HttpxRequestResourceModel.Headers := headers;
     HttpxRequestResourceModel.Query := query;
     HttpxRequestResourceModel.Body := tf.Null;
     HttpxRequestResourceModel.BodyJson := bodyJson;
     HttpxRequestResourceModel.BodyFile := bodyFile;
     HttpxRequestResourceModel.OnDestroy := None |}.

End sample.

(* ================================================================== *)
(** * Theorems *)

Example ReplaceAll_ex1 : Go.ReplaceAll "aXbXXc" "X" "--" = "a--b----c".
Proof. reflexivity. Qed.

Example ReplaceAll_ex2 : Go.ReplaceAll "ab" "" "-" = "-a-b-".
Proof. reflexivity. Qed.

Example ParseInt_ex : Go.ParseInt "-12" = Some (-12) /\ Go.ParseInt "+" = None
                      /\ Go.ParseInt "9223372036854775808" = None
                      /\ Go.TrimSpace " 10 " = "10".
Proof. repeat split; reflexivity. Qed.

Example RedactError_ex :
  utils.RedactError "error: Authorization: Bearer secret-token" ["Authorization"]
  = "error: [REDACTED]: Bearer secret-token".
Proof. reflexivity. Qed.

(** ** Strings *)

Section string_facts.

Implicit Types s t u p : string.

Lemma string_app_nil_r s : s +:+ "" = s.
Proof. induction s as [|c s IH]; simpl; [reflexivity | now rewrite IH]. Qed.

Lemma string_app_assoc s t u : (s +:+ t) +:+ u = s +:+ (t +:+ u).
Proof. induction s as [|c s IH]; simpl; [reflexivity | now rewrite IH]. Qed.

Lemma string_length_app s t :
  String.length (s +:+ t) = (String.length s + String.length t)%nat.
Proof. induction s as [|c s IH]; simpl; [reflexivity | now rewrite IH]. Qed.

Lemma length_take n s : String.length (Go.take n s) = Nat.min n (String.length s).
Proof.
  revert s; induction n as [|n IH]; intros [|c s]; simpl; try reflexivity.
  now rewrite IH.
Qed.

Lemma take_all n s : (String.length s <= n)%nat -> Go.take n s = s.
Proof.
  revert s; induction n as [|n IH]; intros [|c s]; simpl; intros H;
    try reflexivity; try lia.
  rewrite IH; [reflexivity | lia].
Qed.

Lemma ToLower_app s t : Go.ToLower (s +:+ t) = Go.ToLower s +:+ Go.ToLower t.
Proof. induction s as [|c s IH]; simpl; [reflexivity | now rewrite IH]. Qed.

Lemma strip_prefix_app p r : Go.strip_prefix p (p +:+ r) = Some r.
Proof.
  induction p as [|a p IH]; simpl; [reflexivity |].
  now rewrite Ascii.eqb_refl.
Qed.

Lemma strip_prefix_sound p s r : Go.strip_prefix p s = Some r -> s = p +:+ r.
Proof.
  revert s; induction p as [|a p IH]; simpl; intros s H.
  - now injection H as ->.
  - destruct s as [|b s]; [discriminate |].
    destruct (Ascii.eqb_spec a b) as [->|]; [|discriminate].
    now rewrite (IH _ H).
Qed.

Lemma prefix_strip p s :
  String.prefix p s = true <-> exists r, Go.strip_prefix p s = Some r.
Proof.
  revert s; induction p as [|a p IH]; simpl; intros s.
  - split; [eauto | intros _; now destruct s].
  - destruct s as [|b s]; simpl.
    + split; [discriminate | intros [r Hr]; discriminate].
    + destruct (ascii_dec a b) as [->|Hne].
      * rewrite Ascii.eqb_refl. apply IH.
      * destruct (Ascii.eqb_spec a b) as [->|]; [congruence |].
        split; [discriminate | intros [r Hr]; discriminate].
Qed.

Lemma prefix_app p r : String.prefix p (p +:+ r) = true.
Proof. apply prefix_strip. exists r. apply strip_prefix_app. Qed.

Lemma Contains_cons c s sub :
  Go.Contains s sub = true -> Go.Contains (String c s) sub = true.
Proof. intros H. simpl. rewrite H. apply orb_true_r. Qed.

Lemma Contains_app_l p s sub :
  Go.Contains s sub = true -> Go.Contains (p +:+ s) sub = true.
Proof.
  induction p as [|c p IH]; simpl; intros H; [assumption |].
  rewrite (IH H). apply orb_true_r.
Qed.

Lemma Contains_here p sub r : Go.Contains (p +:+ sub +:+ r) sub = true.
Proof.
  apply Contains_app_l. destruct sub as [|c sub]; [now destruct r |].
  change (Go.Contains (String c sub +:+ r) (String c sub))
    with (String.prefix (String c sub) (String c sub +:+ r)
          || Go.Contains (sub +:+ r) (String c sub)).
  now rewrite prefix_app.
Qed.

Lemma Contains_tail c s sub :
  Go.Contains (String c s) sub = false -> Go.Contains s sub = false.
Proof. simpl. intros H. now apply orb_false_elim in H. Qed.

Lemma Contains_no_prefix s sub :
  Go.Contains s sub = false -> String.prefix sub s = false.
Proof. destruct s; simpl; intros H; now apply orb_false_elim in H. Qed.

End string_facts.

(** ** The scanner *)

Section scanner.

Context {A : Type} (m : string -> option (A * string)).

Hypothesis m_consuming : Go.consuming m.

Lemma tokenize_fuel f1 f2 s :
  (String.length s <= f1)%nat -> (String.length s <= f2)%nat ->
  Go.tokenize m f1 s = Go.tokenize m f2 s.
Proof.
  revert f2 s; induction f1 as [|f1 IH]; intros f2 s H1 H2.
  - destruct s; [|simpl in H1; lia]. now destruct f2.
  - destruct f2 as [|f2]; [destruct s; [reflexivity | simpl in H2; lia] |].
    destruct s as [|c s]; [reflexivity |]. simpl.
    destruct (m (String c s)) as [[a rest]|] eqn:Hm.
    + apply m_consuming in Hm. simpl in *. f_equal. apply IH; lia.
    + simpl in *. f_equal. apply IH; lia.
Qed.

(** The scan, one step at a time; the fuel never runs out. *)
Lemma scan_step c s :
  Go.scan m (String c s)
  = match m (String c s) with
    | Some (a, rest) => Go.Hit a :: Go.scan m rest
    | None => Go.Lit c :: Go.scan m s
    end.
Proof.
  unfold Go.scan. simpl.
  destruct (m (String c s)) as [[a rest]|] eqn:Hm.
  - f_equal. apply m_consuming in Hm. simpl in Hm. apply tokenize_fuel; lia.
  - reflexivity.
Qed.

Lemma scan_nil : Go.scan m "" = [].
Proof. reflexivity. Qed.

End scanner.

Lemma match_literal_consuming old : old <> "" -> Go.consuming (Go.match_literal old).
Proof.
  intros Hne s [] rest H. unfold Go.match_literal in H.
  destruct (Go.strip_prefix old s) as [r|] eqn:Hs; [|discriminate].
  injection H as ->. apply strip_prefix_sound in Hs. subst s.
  rewrite string_length_app. destruct old; [congruence | simpl; lia].
Qed.

Lemma match_literal_none old s :
  String.prefix old s = false -> Go.match_literal old s = None.
Proof.
  intros H. unfold Go.match_literal.
  destruct (Go.strip_prefix old s) as [r|] eqn:Hs; [|reflexivity].
  assert (String.prefix old s = true) by (apply prefix_strip; eauto). congruence.
Qed.

Lemma Index_cons c s sub :
  Go.Index (String c s) sub
  = if String.prefix sub (String c s) then 0
    else if Go.Index s sub <? 0 then -1 else Go.Index s sub + 1.
Proof. reflexivity. Qed.

(** Without an occurrence of [old] the text is returned as it is. *)
Lemma ReplaceAll_absent s old new :
  old <> "" -> Go.Contains s old = false -> Go.ReplaceAll s old new = s.
Proof.
  intros Hne. unfold Go.ReplaceAll. destruct old as [|a old]; [congruence |].
  induction s as [|c s IH]; intros Hc; [reflexivity |].
  rewrite (scan_step _ (match_literal_consuming _ Hne)).
  rewrite (match_literal_none _ _ (Contains_no_prefix _ _ Hc)). simpl.
  now rewrite (IH (Contains_tail _ _ _ Hc)).
Qed.

(** With the first occurrence of [old] at the end of [pre] and none after
    it, exactly that occurrence is replaced. *)
Lemma ReplaceAll_single pre old rest new :
  old <> "" ->
  Go.Index (pre +:+ old +:+ rest) old = Go.len pre ->
  Go.Contains rest old = false ->
  Go.ReplaceAll (pre +:+ old +:+ rest) old new = pre +:+ new +:+ rest.
Proof.
  intros Hne Hidx Hrest.
  pose proof (ReplaceAll_absent rest old new Hne Hrest) as Habs.
  unfold Go.ReplaceAll in *. destruct old as [|a old]; [congruence |].
  set (o := String a old) in *.
  induction pre as [|c pre IH].
  - change ("" +:+ o +:+ rest) with (String a (old +:+ rest)).
    rewrite (scan_step _ (match_literal_consuming _ Hne)).
    change (String a (old +:+ rest)) with (o +:+ rest).
    unfold Go.match_literal at 1. rewrite strip_prefix_app. simpl.
    now rewrite Habs.
  - change (String c pre +:+ o +:+ rest) with (String c (pre +:+ o +:+ rest)) in *.
    unfold Go.len in Hidx. simpl String.length in Hidx.
    rewrite Index_cons in Hidx.
    destruct (String.prefix o (String c (pre +:+ o +:+ rest))) eqn:Hp.
    + lia.
    + rewrite (scan_step _ (match_literal_consuming _ Hne)).
      rewrite (match_literal_none _ _ Hp). simpl. f_equal. apply IH.
      destruct (Go.Index (pre +:+ o +:+ rest) o <? 0) eqn:Hneg;
        unfold Go.len; lia.
Qed.

(** ** Redaction of error messages (C7) *)

Lemma RedactError_absent msg redactList :
  Forall (fun P => Go.Contains (Go.ToLower msg) (Go.ToLower P) = false) redactList ->
  utils.RedactError msg redactList = msg.
Proof.
  unfold utils.RedactError. induction 1 as [|P l HP _ IH]; simpl; [reflexivity |].
  now rewrite HP.
Qed.




(** ** The response-size cap (C5) *)

Lemma TruncateString_within s maxLen :
  Go.len s <= maxLen -> utils.TruncateString s maxLen = Some s.
Proof.
  intros H. unfold utils.TruncateString.
  destruct (Z.leb_spec (Go.len s) maxLen); [reflexivity | lia].
Qed.

(** What the limited reader hands over is never longer than the cap. *)
Lemma LimitReader_bounded (r : Go.Reader) maxBytes :
  0 <= maxBytes ->
  Go.len (fst (client.LimitReader r maxBytes)) <= maxBytes.
Proof.
  intros H. unfold client.LimitReader, Go.len.
  destruct (Z.leb_spec maxBytes 0); simpl; [lia |].
  destruct (Z.leb_spec maxBytes (Z.of_nat (String.length (fst r)))); simpl.
  - rewrite length_take. lia.
  - lia.
Qed.

Lemma LimitReader_take (r : Go.Reader) maxBytes :
  0 <= maxBytes ->
  fst (client.LimitReader r maxBytes) = Go.take (Z.to_nat maxBytes) (fst r).
Proof.
  intros H. unfold client.LimitReader, Go.len.
  destruct (Z.leb_spec maxBytes 0); simpl.
  - replace maxBytes with 0 by lia. reflexivity.
  - destruct (Z.leb_spec maxBytes (Z.of_nat (String.length (fst r)))); simpl.
    + reflexivity.
    + symmetry. apply take_all. lia.
Qed.

Lemma LimitReader_clean (r : Go.Reader) maxBytes :
  snd r = None -> snd (client.LimitReader r maxBytes) = None.
Proof.
  intros H. unfold client.LimitReader.
  repeat destruct (_ <=? _); simpl; auto.
Qed.

(** One attempt that meets a response. *)
Lemma ExecuteRequest_on_response :
  forall (env : Env) (req : http.Request) (cfg : config.ProviderConfig)
         (log : list http.Request) (resp : http.Response),
    client.NewHTTPClient env (provider.ToConfigProviderConfig cfg) = Ok tt ->
    http_Do env req (length log) = http.DoResponse resp ->
    http.RespReadError resp = None ->
    0 <= config.MaxResponseBodyBytes cfg ->
    provider.ExecuteRequest env req cfg log
    = (Return (Success
         {| ResponseResult.StatusCode := http.StatusCode resp;
            ResponseResult.Headers := (fun v => Go.Join v ", ") <$> http.RespHeader resp;
            ResponseResult.Body :=
              Go.take (Z.to_nat (config.MaxResponseBodyBytes cfg)) (http.RespBody resp);
            ResponseResult.AttemptCount := 1;
            ResponseResult.Error := "" |}),
       (log ++ [req])%list).
Proof.
  intros env req cfg log resp Hclient Hdo Herr Hmax.
  unfold provider.ExecuteRequest. rewrite Hclient, Hdo.
  change (config.MaxResponseBodyBytes (provider.ToConfigProviderConfig cfg))
    with (config.MaxResponseBodyBytes cfg).
  pose proof (LimitReader_bounded (http.Body resp) _ Hmax) as Hb.
  pose proof (LimitReader_take (http.Body resp) _ Hmax) as Ht.
  pose proof (LimitReader_clean (http.Body resp) (config.MaxResponseBodyBytes cfg) Herr)
    as Hc.
  unfold Go.ReadAll.
  destruct (client.LimitReader (http.Body resp) (config.MaxResponseBodyBytes cfg))
    as [bodyBytes rerr].
  simpl in Hb, Ht, Hc. subst bodyBytes rerr.
  rewrite (TruncateString_within _ _ Hb).
  now destruct (_ <=? _).
Qed.

(** C5 (what the code does): when a response arrives, the body of the
    result is the first [max_response_body_bytes] bytes of what the peer
    sent and nothing else.  A body that reaches the cap is cut there, yet no
    truncation sentinel is appended: [TruncateString] is handed a string that
    the limited reader already cut to the cap, so its length test never
    fires. *)
Theorem ExecuteRequest_body_is_capped_without_marker :
  forall (env : Env) (req : http.Request) (cfg : config.ProviderConfig)
         (log : list http.Request) (resp : http.Response),
    client.NewHTTPClient env (provider.ToConfigProviderConfig cfg) = Ok tt ->
    http_Do env req (length log) = http.DoResponse resp ->
    http.RespReadError resp = None ->
    0 <= config.MaxResponseBodyBytes cfg ->
    provider.ExecuteRequest env req cfg log
    = (Return (Success
         {| ResponseResult.StatusCode := http.StatusCode resp;
            ResponseResult.Headers := (fun v => Go.Join v ", ") <$> http.RespHeader resp;
            ResponseResult.Body :=
              Go.take (Z.to_nat (config.MaxResponseBodyBytes cfg)) (http.RespBody resp);
            ResponseResult.AttemptCount := 1;
            ResponseResult.Error := "" |}),
       (log ++ [req])%list).
Proof. exact ExecuteRequest_on_response. Qed.

Lemma ExecuteRequest_body_is_capped_without_marker_witness :
  fst (provider.ExecuteRequest (sample.env (fun _ => sample.respond 200 "abcdefgh"))
                               (sample.get "https://example.test/ok") (sample.cfg 4) [])
  = Return (Success
      {| ResponseResult.StatusCode := 200;
         ResponseResult.Headers := ∅;
         ResponseResult.Body := "abcd";
         ResponseResult.AttemptCount := 1;
         ResponseResult.Error := "" |}).
Proof.
  rewrite (ExecuteRequest_body_is_capped_without_marker
             (sample.env (fun _ => sample.respond 200 "abcdefgh"))
             (sample.get "https://example.test/ok") (sample.cfg 4) []
             {| http.StatusCode := 200; http.RespHeader := ∅;
                http.RespBody := "abcdefgh"; http.RespReadError := None |}).
  - reflexivity.
  - reflexivity.
  - reflexivity.
  - reflexivity.
  - simpl. lia.
Defined.

(** [TruncateString] itself marks a string that is longer than the bound,
    as the package's own test expects. *)
Example TruncateString_marks_long_strings :
  utils.TruncateString "this is a very long string" 10
  = Some "this is a ... [TRUNCATED]".
Proof. reflexivity. Qed.

(** ** Expectations (C3) *)

(** C3 (what the code does): the validator never looks at
    [json_path_exists], [json_path_equals] or the body.  Its verdict is the
    same whatever those two fields hold, and a response that is not JSON
    passes an expectation that names JSON paths. *)
Theorem ValidateExpectations_ignores_json_paths :
  (forall (result : ResponseResult.t) (codes : tf.List Z) (present : tf.List string)
          (paths1 paths2 : tf.List string) (equals1 equals2 : tf.Map),
      provider.ValidateExpectations result
        (Some (ExpectModel.mk codes paths1 equals1 present))
      = provider.ValidateExpectations result
          (Some (ExpectModel.mk codes paths2 equals2 present)))
  /\ provider.ValidateExpectations
       {| ResponseResult.StatusCode := 200;
          ResponseResult.Headers := ∅;
          ResponseResult.Body := "not json";
          ResponseResult.AttemptCount := 1;
          ResponseResult.Error := "" |}
       (Some {| ExpectModel.StatusCodes := tf.Known [tf.Known 200];
                ExpectModel.JsonPathExists := tf.Known [tf.Known "data.id"];
                ExpectModel.JsonPathEquals := tf.Known [("data.ready", tf.Known "true")];
                ExpectModel.HeaderPresent := tf.Null |})
     = None.
Proof. split; [intros; reflexivity | reflexivity]. Qed.

(** The checks that are implemented do accumulate (scenario 5 of the
    specification). *)
Example ValidateExpectations_accumulates :
  provider.ValidateExpectations
    {| ResponseResult.StatusCode := 500;
       ResponseResult.Headers := {[ "Content-Type" := "text/plain" ]};
       ResponseResult.Body := "bad";
       ResponseResult.AttemptCount := 1;
       ResponseResult.Error := "" |}
    (Some {| ExpectModel.StatusCodes := tf.Known [tf.Known 200];
             ExpectModel.JsonPathExists := tf.Null;
             ExpectModel.JsonPathEquals := tf.Null;
             ExpectModel.HeaderPresent := tf.Known [tf.Known "X-Id"] |})
  = Some "expectation validation failed: status code 500 not in expected codes [200]; required header 'X-Id' not present".
Proof. vm_compute. reflexivity. Qed.

(** ** Backoff (C8) *)

Lemma wrap64_small z : Go.minInt64 <= z <= Go.maxInt64 -> Go.wrap64 z = z.
Proof.
  unfold Go.minInt64, Go.maxInt64, Go.wrap64. intros H.
  rewrite Z.mod_small; lia.
Qed.

(** C8 (what the code does past the range of [int64]): with the values of
    the default polling policy — 1000 ms minimum, 5000 ms cap, exponential
    backoff — and jitter off, the delay after attempt 54 is the cap, but
    after attempt 55 the product [1000 * 2^54] has wrapped to a negative
    number, the cap does not apply, and the delay returned is the most
    negative duration instead of 5000 ms. *)
Theorem CalculateDelay_wraps_instead_of_capping :
  forall env : Env,
    provider.CalculateDelay env (sample.retry 60 "exponential" []) 54 "" = 5000 * 1000000
    /\ provider.CalculateDelay env (sample.retry 60 "exponential" []) 55 ""
       = - 9223372036854775808.
Proof. intros env. split; reflexivity. Qed.

(** The same happens under the default polling policy itself (60 attempts,
    jitter on) when the random draw is zero. *)
Example CalculateDelay_default_policy_attempt_55 :
  provider.CalculateDelay sample.quiet provider.default_poll_retry 55 ""
  = - 9223372036854775808.
Proof. reflexivity. Qed.

(** Scenario 2 of the specification: 100 ms, then 200 ms. *)
Example CalculateDelay_exponential_steps :
  forall env,
    let rc := RetryConfig.mk 3 100 1000 "exponential" false [503] true in
    provider.CalculateDelay env rc 1 "" = 100 * 1000000
    /\ provider.CalculateDelay env rc 2 "" = 200 * 1000000.
Proof. intros env. split; reflexivity. Qed.

(** Within the range of [int64] the delay is the one the specification
    describes: the base delay of the strategy, capped, plus the jitter. *)
Lemma CalculateDelay_in_range :
  forall (env : Env) (rc : RetryConfig.t) (n : Z) (header : string),
    let base :=
      if String.eqb (RetryConfig.Backoff rc) "exponential"
      then RetryConfig.MinDelayMs rc * 2 ^ (n - 1)
      else if String.eqb (RetryConfig.Backoff rc) "linear"
      then RetryConfig.MinDelayMs rc * n
      else RetryConfig.MinDelayMs rc in
    let capped := Z.min base (RetryConfig.MaxDelayMs rc) in
    RetryConfig.RespectRetryAfter rc = false \/ header = "" ->
    1 <= n <= 63 ->
    0 <= RetryConfig.MinDelayMs rc ->
    base <= Go.maxInt64 ->
    0 <= RetryConfig.MaxDelayMs rc ->
    RetryConfig.MaxDelayMs rc * 1250000 <= Go.maxInt64 ->
    (RetryConfig.Jitter rc = true -> 0 <= rand_jitterMs env capped <= capped / 4) ->
    provider.CalculateDelay env rc n header
    = (capped + (if RetryConfig.Jitter rc then rand_jitterMs env capped else 0)) * 1000000.
Proof.
  intros env rc n header base capped Hhdr Hn Hmin Hbase Hmax Hcap Hjit.
  unfold provider.CalculateDelay.
  assert ((RetryConfig.RespectRetryAfter rc && negb (String.eqb header ""))%bool = false)
    as ->.
  { destruct Hhdr as [-> | ->]; [reflexivity | apply andb_false_r]. }
  assert (Hbase0 : 0 <= base).
  { subst base. repeat destruct (String.eqb _ _); try lia;
      try (apply Z.mul_nonneg_nonneg; [lia | apply Z.pow_nonneg; lia]). }
  assert (Hraw :
    (if String.eqb (RetryConfig.Backoff rc) "exponential"
     then Go.int64_mul (RetryConfig.MinDelayMs rc)
                       (provider.pow2_int64 env (Go.wrap64 (n - 1)))
     else if String.eqb (RetryConfig.Backoff rc) "linear"
     then Go.int64_mul (RetryConfig.MinDelayMs rc) n
     else RetryConfig.MinDelayMs rc) = base).
  { subst base. unfold Go.int64_mul, provider.pow2_int64.
    unfold Go.minInt64, Go.maxInt64 in *.
    rewrite (wrap64_small (n - 1)) by (unfold Go.minInt64, Go.maxInt64; lia).
    destruct (Z.ltb_spec (n - 1) 0); [lia |].
    destruct (Z.leb_spec (n - 1) 62); [|lia].
    repeat destruct (String.eqb _ _); try reflexivity;
      apply wrap64_small; unfold Go.minInt64, Go.maxInt64; lia. }
  rewrite Hraw.
  assert (Hcapped :
    (if RetryConfig.MaxDelayMs rc <? base then RetryConfig.MaxDelayMs rc else base)
    = capped).
  { subst capped. destruct (Z.ltb_spec (RetryConfig.MaxDelayMs rc) base); lia. }
  rewrite Hcapped.
  assert (Hc : 0 <= capped <= RetryConfig.MaxDelayMs rc) by (subst capped; lia).
  unfold Go.maxInt64 in *.
  unfold Go.int64_add, Go.int64_mul.
  destruct (RetryConfig.Jitter rc).
  - specialize (Hjit eq_refl).
    assert (capped / 4 <= RetryConfig.MaxDelayMs rc / 4) by (apply Z.div_le_mono; lia).
    assert (4 * (RetryConfig.MaxDelayMs rc / 4) <= RetryConfig.MaxDelayMs rc)
      by (apply Z.mul_div_le; lia).
    rewrite (wrap64_small (capped * 1000000))
      by (unfold Go.minInt64, Go.maxInt64; lia).
    rewrite (wrap64_small (rand_jitterMs env capped * 1000000))
      by (unfold Go.minInt64, Go.maxInt64; lia).
    rewrite wrap64_small; unfold Go.minInt64, Go.maxInt64; lia.
  - rewrite wrap64_small; unfold Go.minInt64, Go.maxInt64; lia.
Qed.

(** A numeric [Retry-After] is used as it is, whatever the policy's bounds
    (scenario 4 of the specification). *)
Lemma CalculateDelay_retry_after_seconds :
  forall (env : Env) (rc : RetryConfig.t) (n : Z) (header : string) (seconds : Z),
    RetryConfig.RespectRetryAfter rc = true ->
    header <> "" ->
    Go.ParseInt (Go.TrimSpace header) = Some seconds ->
    provider.CalculateDelay env rc n header = Go.wrap64 (seconds * 1000000000).
Proof.
  intros env rc n header seconds Hr Hh Hp. unfold provider.CalculateDelay.
  rewrite Hr. destruct (String.eqb_spec header ""); [contradiction |]. simpl.
  unfold provider.parseRetryAfter. now rewrite Hp.
Qed.

Example CalculateDelay_retry_after_2 :
  forall env, provider.CalculateDelay env
                (RetryConfig.mk 3 100 200 "fixed" false [429] true) 1 "2"
              = 2 * 1000000000.
Proof. intros env. reflexivity. Qed.

(** A date that is not in the future is rejected and the backoff applies. *)
Lemma parseRetryAfter_past_date :
  forall (env : Env) (now t : Z) (header : string),
    Go.ParseInt (Go.TrimSpace header) = None ->
    time_Parse env 0%nat (Go.TrimSpace header) = Some t ->
    t <= now ->
    provider.parseRetryAfter env now header = Err "retry-after date is in the past".
Proof.
  intros env now t header Hint Hdate Hpast. unfold provider.parseRetryAfter.
  rewrite Hint. simpl. rewrite Hdate.
  destruct (Z.ltb_spec now t); [lia | reflexivity].
Qed.

(** ** The retry loop (C1, C2) *)

Section retry_loop_facts.

Variables (env : Env) (req : http.Request) (cfg : config.ProviderConfig).
Variables (rc : RetryConfig.t) (ruc : option RetryUntilConfig.t) (attempts : Z).

(** The last iteration never asks for another one. *)
Lemma iteration_last vars log vars' :
  fst (provider.iteration env req cfg rc ruc attempts attempts vars log)
  <> provider.StepContinue vars'.
Proof.
  unfold provider.iteration.
  destruct (provider.ExecuteRequest env req cfg log) as [[[result|result err]|msg] log'];
    simpl; try discriminate.
  - destruct ruc.
    + destruct (provider.EvaluateRetryUntil env _ result) as [satisfied unsatisfied].
      rewrite ?Z.ltb_irrefl, ?andb_false_r. destruct satisfied; discriminate.
    + rewrite ?Z.ltb_irrefl, ?andb_false_r. discriminate.
  - rewrite ?Z.leb_refl, ?orb_true_r. discriminate.
Qed.

(** Hence the loop is always left by a [return] from its body: the
    statements after the loop, which build the "exhausted ... retry
    attempts" errors, are never reached. *)
Lemma retry_loop_returns n :
  forall attempt vars log,
    (0 < n)%nat -> attempt + Z.of_nat n = attempts + 1 ->
    exists r, fst (provider.retry_loop env req cfg rc ruc attempts n attempt vars log)
              = inl r.
Proof.
  induction n as [|n IH]; intros attempt vars log Hn Hlast; [lia |]. simpl.
  destruct (provider.iteration env req cfg rc ruc attempts attempt vars log)
    as [[o|vars'|msg] log'] eqn:Hit; simpl; eauto.
  destruct n as [|n].
  - replace attempt with attempts in Hit by lia.
    exfalso. eapply iteration_last. rewrite Hit. reflexivity.
  - apply IH; lia.
Qed.

Hypothesis client_ok :
  client.NewHTTPClient env (provider.ToConfigProviderConfig cfg) = Ok tt.
Hypothesis ctx_alive : forall attempt delay, ctx_Done env attempt delay = None.

(** When every round trip meets a response, every iteration either
    returns that response as a success or goes round again. *)
Lemma iteration_on_response vars log :
  forall attempt,
    (forall n, exists resp, http_Do env req n = http.DoResponse resp
                            /\ http.RespReadError resp = None) ->
    0 <= config.MaxResponseBodyBytes cfg ->
    (exists r, fst (provider.iteration env req cfg rc ruc attempts attempt vars log)
               = provider.StepReturn (Success r))
    \/ (exists vars', fst (provider.iteration env req cfg rc ruc attempts attempt vars log)
                      = provider.StepContinue vars').
Proof.
  intros attempt Hdo Hmax. destruct (Hdo (length log)) as (resp & Hresp & Hclean).
  unfold provider.iteration.
  rewrite (ExecuteRequest_on_response env req cfg log resp client_ok Hresp Hclean Hmax).
  unfold provider.sleep. rewrite !ctx_alive.
  destruct ruc.
  - destruct (provider.EvaluateRetryUntil env _ _) as [satisfied unsatisfied].
    destruct (negb satisfied && (attempt <? attempts))%bool; simpl; [eauto |].
    destruct satisfied; simpl; eauto.
  - destruct (provider.ShouldRetry rc None _ && (attempt <? attempts))%bool; simpl; eauto.
Qed.

Lemma retry_loop_on_responses n :
  forall attempt vars log,
    (forall n, exists resp, http_Do env req n = http.DoResponse resp
                            /\ http.RespReadError resp = None) ->
    0 <= config.MaxResponseBodyBytes cfg ->
    (0 < n)%nat -> attempt + Z.of_nat n = attempts + 1 ->
    exists r, fst (provider.retry_loop env req cfg rc ruc attempts n attempt vars log)
              = inl (Return (Success r)).
Proof.
  induction n as [|n IH]; intros attempt vars log Hdo Hmax Hn Hlast; [lia |]. simpl.
  destruct (iteration_on_response vars log attempt Hdo Hmax) as [[r Hr] | [vars' Hc]];
    destruct (provider.iteration env req cfg rc ruc attempts attempt vars log)
      as [st log'] eqn:Hit; simpl in *; subst st; simpl; eauto.
  destruct n as [|n].
  - replace attempt with attempts in Hit by lia.
    exfalso. eapply iteration_last. rewrite Hit. reflexivity.
  - apply IH; auto; lia.
Qed.

(** When every round trip fails, the iterations go round until the last
    one, which returns what [ExecuteRequest] returned for it. *)
Lemma retry_loop_on_errors (err : nat -> string) n :
  forall attempt vars log,
    (forall k, http_Do env req k = http.DoError (err k)) ->
    (0 < n)%nat -> attempt + Z.of_nat n = attempts + 1 ->
    provider.retry_loop env req cfg rc ruc attempts n attempt vars log
    = (inl (Return (Failure
         (Some {| ResponseResult.StatusCode := 0;
                  ResponseResult.Headers := ∅;
                  ResponseResult.Body := "";
                  ResponseResult.AttemptCount := 1;
                  ResponseResult.Error :=
                    utils.RedactError (err (length log + n - 1)%nat)
                                      (config.RedactHeaders cfg) |})
         ("request failed: " +:+ err (length log + n - 1)%nat))),
       (log ++ repeat req n)%list).
Proof.
  induction n as [|n IH]; intros attempt vars log Hdo Hn Hlast; [lia |].
  simpl provider.retry_loop. unfold provider.iteration, provider.ExecuteRequest.
  rewrite client_ok, Hdo. simpl.
  destruct n as [|n].
  - replace (attempts <=? attempt) with true by (symmetry; apply Z.leb_le; lia).
    replace (length log + 1 - 1)%nat with (length log) by lia. reflexivity.
  - replace (attempts <=? attempt) with false by (symmetry; apply Z.leb_gt; lia).
    unfold provider.sleep. rewrite ctx_alive.
    rewrite IH by (auto; lia).
    rewrite length_app. simpl length.
    replace (length log + 1 + S n - 1)%nat with (length log + S (S n) - 1)%nat by lia.
    rewrite <- List.app_assoc. reflexivity.
Qed.

End retry_loop_facts.

(** With a retry policy or a poll condition in force, a run in which every
    round trip meets a response ends in success, whatever the last
    response was. *)
Lemma ExecuteRequestWithRetry_on_responses :
  forall (env : Env) (req : http.Request) (cfg : config.ProviderConfig)
         (retryConfig : option RetryConfig.t) (retryUntilConfig : option RetryUntilConfig.t)
         (log : list http.Request),
    client.NewHTTPClient env (provider.ToConfigProviderConfig cfg) = Ok tt ->
    (forall attempt delay, ctx_Done env attempt delay = None) ->
    (forall n, exists resp, http_Do env req n = http.DoResponse resp
                            /\ http.RespReadError resp = None) ->
    0 <= config.MaxResponseBodyBytes cfg ->
    exists r, fst (provider.ExecuteRequestWithRetry env req cfg retryConfig
                                                    retryUntilConfig log)
              = Return (Success r).
Proof.
  intros env req cfg retryConfig retryUntilConfig log Hclient Hctx Hdo Hmax.
  assert (Hloop : forall rc,
    exists r,
      fst (let attempts := if RetryConfig.Attempts rc <=? 0 then 1
                           else RetryConfig.Attempts rc in
           match provider.retry_loop env req cfg rc retryUntilConfig attempts
                   (Z.to_nat attempts) 1
                   {| provider.lastErr := None; provider.lastResult := None;
                      provider.retryAfter := "" |} log with
           | (inl r, log') => (r, log')
           | (inr vars, log') =>
               (Return (provider.exhausted env retryUntilConfig attempts vars), log')
           end) = Return (Success r)).
  { intros rc. cbv zeta.
    set (attempts := if RetryConfig.Attempts rc <=? 0 then 1 else RetryConfig.Attempts rc).
    assert (1 <= attempts) by (subst attempts; destruct (Z.leb_spec (RetryConfig.Attempts rc) 0); lia).
    destruct (retry_loop_on_responses env req cfg rc retryUntilConfig attempts
                Hclient Hctx (Z.to_nat attempts) 1
                {| provider.lastErr := None; provider.lastResult := None;
                   provider.retryAfter := "" |} log Hdo Hmax) as [r Hr]; [lia | lia |].
    exists r. destruct (provider.retry_loop _ _ _ _ _ _ _ _ _ _) as [[x|x] log'];
      simpl in *; congruence. }
  unfold provider.ExecuteRequestWithRetry.
  destruct retryConfig as [rc|], retryUntilConfig as [ruc|]; try apply Hloop.
  destruct (Hdo (length log)) as (resp & Hresp & Hclean).
  rewrite (ExecuteRequest_on_response env req cfg log resp Hclient Hresp Hclean Hmax).
  eauto.
Qed.


(** With a transport that fails every time, [k] round trips are made, and
    what comes back is the single-attempt result of the last one. *)
Lemma ExecuteRequestWithRetry_on_errors :
  forall (env : Env) (req : http.Request) (cfg : config.ProviderConfig)
         (rc : RetryConfig.t) (retryUntilConfig : option RetryUntilConfig.t)
         (log : list http.Request) (err : nat -> string) (k : nat),
    client.NewHTTPClient env (provider.ToConfigProviderConfig cfg) = Ok tt ->
    (forall attempt delay, ctx_Done env attempt delay = None) ->
    (forall n, http_Do env req n = http.DoError (err n)) ->
    (0 < k)%nat -> RetryConfig.Attempts rc = Z.of_nat k ->
    provider.ExecuteRequestWithRetry env req cfg (Some rc) retryUntilConfig log
    = (Return (Failure
         (Some {| ResponseResult.StatusCode := 0;
                  ResponseResult.Headers := ∅;
                  ResponseResult.Body := "";
                  ResponseResult.AttemptCount := 1;
                  ResponseResult.Error :=
                    utils.RedactError (err (length log + k - 1)%nat)
                                      (config.RedactHeaders cfg) |})
         ("request failed: " +:+ err (length log + k - 1)%nat)),
       (log ++ repeat req k)%list).
Proof.
  intros env req cfg rc ruc log err k Hclient Hctx Hdo Hk Hatt.
  unfold provider.ExecuteRequestWithRetry. simpl default. rewrite Hatt.
  destruct (Z.leb_spec (Z.of_nat k) 0); [lia |].
  rewrite Nat2Z.id.
  rewrite (retry_loop_on_errors env req cfg rc ruc (Z.of_nat k) Hclient Hctx err k)
    by (auto; lia).
  reflexivity.
Qed.

(** C2 (what the code does): three attempts against a transport that
    always fails make three round trips, yet the result says
    [AttemptCount = 1] and the error is the bare transport error of the
    last attempt, with no exhaustion wrapper. *)
Theorem ExecuteRequestWithRetry_counts_one_attempt_on_errors :
  provider.ExecuteRequestWithRetry
    (sample.env (fun _ => http.DoError "dial tcp: connection refused"))
    (sample.get "https://example.test/ok") (sample.cfg 1048576)
    (Some (sample.retry 3 "fixed" [])) None []
  = (Return (Failure
       (Some {| ResponseResult.StatusCode := 0;
                ResponseResult.Headers := ∅;
                ResponseResult.Body := "";
                ResponseResult.AttemptCount := 1;
                ResponseResult.Error := "dial tcp: connection refused" |})
       "request failed: dial tcp: connection refused"),
     repeat (sample.get "https://example.test/ok") 3).
Proof. vm_compute. reflexivity. Qed.

(** ** The request builder (C6, C9) *)

Lemma BuildRequest_header env config req :
  provider.BuildRequest env config = Ok req ->
  exists h, http.ReqHeader req
            = provider.set_bearer config (provider.set_basic_auth config h).
Proof.
  unfold provider.BuildRequest. intros H.
  destruct (url_Parse env _); [|discriminate].
  destruct (1 <? provider.body_count config); [discriminate |].
  destruct (provider.select_body env config) as [[bodyReader contentTypeSet]|];
    [|discriminate].
  destruct (http_NewRequest env _ _); [discriminate |].
  injection H as <-. simpl. eauto.
Qed.

Lemma Header_Set_Authorization (h : http.Header) (v : string) :
  http.Header_Set h "Authorization" v !! "Authorization" = Some [v].
Proof. unfold http.Header_Set. apply lookup_insert_eq. Qed.




(** Without any Bearer token the request-level Basic credential is used. *)
Example BuildRequest_basic_only :
  match provider.BuildRequest sample.quiet
          (sample.post_json None []
             (Some (ResourceBasicAuthModel.mk (tf.Known "user") (tf.Known "pass")))
             tf.Null (Some (sample.defaults [] None None))) with
  | Ok req => http.ReqHeader req !! "Authorization" = Some ["Basic dXNlcjpwYXNz"]
  | Err _ => False
  end.
Proof. vm_compute. reflexivity. Qed.

(** C9 (what the code does): with a JSON body the builder looks for the
    exact key [Content-Type] in the request's [headers] map only.  A
    content type given under another spelling, by the provider's default
    headers or by a [header] block is overwritten with
    [application/json]. *)
Theorem BuildRequest_json_overwrites_content_type :
  (match provider.BuildRequest sample.quiet
           (sample.post_json (Some [("content-type", "text/plain")]) [] None tf.Null None) with
   | Ok req => http.ReqHeader req !! "Content-Type" = Some ["application/json"]
   | Err _ => False
   end)
  /\ (match provider.BuildRequest sample.quiet
              (sample.post_json None [] None tf.Null
                 (Some (sample.defaults [("Content-Type", "application/xml")] None None))) with
      | Ok req => http.ReqHeader req !! "Content-Type" = Some ["application/json"]
      | Err _ => False
      end)
  /\ (match provider.BuildRequest sample.quiet
              (sample.post_json None
                 [HeaderBlockModel.mk (tf.Known "Content-Type") (tf.Known "application/merge-patch+json")]
                 None tf.Null None) with
      | Ok req => http.ReqHeader req !! "Content-Type" = Some ["application/json"]
      | Err _ => False
      end).
Proof. repeat split; vm_compute; reflexivity. Qed.

(** Under the exact key the given content type is kept, and without any
    it is set. *)
Example BuildRequest_content_type_kept :
  (match provider.BuildRequest sample.quiet
           (sample.post_json (Some [("Content-Type", "text/plain")]) [] None tf.Null None) with
   | Ok req => http.ReqHeader req !! "Content-Type" = Some ["text/plain"]
                /\ http.ReqBody req = Some "[1,2]"
   | Err _ => False
   end)
  /\ (match provider.BuildRequest sample.quiet (sample.post_json None [] None tf.Null None) with
      | Ok req => http.ReqHeader req !! "Content-Type" = Some ["application/json"]
      | Err _ => False
      end).
Proof. repeat split; vm_compute; reflexivity. Qed.

(** Invalid JSON is rejected before any request is built. *)
Lemma BuildRequest_rejects_invalid_json env config parsed e :
  url_Parse env (RequestConfig.Url config) = Ok parsed ->
  provider.is_set (RequestConfig.Body config) = false ->
  provider.is_set (RequestConfig.BodyJson config) = true ->
  provider.is_set (RequestConfig.BodyFile config) = false ->
  json_Unmarshal env (tf.ValueString (RequestConfig.BodyJson config)) = Some e ->
  provider.BuildRequest env config = Err ("invalid JSON in body_json: " +:+ e).
Proof.
  intros Hurl Hb Hj Hf Hbad. unfold provider.BuildRequest. rewrite Hurl.
  unfold provider.body_count, provider.select_body. rewrite Hb, Hj, Hf, Hbad.
  reflexivity.
Qed.

(** ** Destroy-time interpolation (C4) *)

Section pattern_facts.

Implicit Types s key rest pre post text : string.

Lemma span_key_sound s : forall key rest,
  provider.span_key s = (key, rest) ->
  s = key +:+ rest /\ http.all_bytes provider.is_key_byte key = true.
Proof.
  induction s as [|c s IH]; simpl; intros key rest H.
  - injection H as <- <-. auto.
  - destruct (provider.is_key_byte c) eqn:Hc.
    + destruct (provider.span_key s) as [k r]. injection H as <- <-.
      destruct (IH k r eq_refl) as [-> Hk]. simpl. rewrite Hc. auto.
    + injection H as <- <-. auto.
Qed.

Lemma span_key_complete key c rest :
  http.all_bytes provider.is_key_byte key = true ->
  provider.is_key_byte c = false ->
  provider.span_key (key +:+ String c rest) = (key, String c rest).
Proof.
  induction key as [|a key IH]; simpl; intros Hk Hc.
  - now rewrite Hc.
  - apply andb_prop in Hk as [Ha Hk]. now rewrite Ha, IH.
Qed.

Lemma match_outputs_sound s key rest :
  provider.match_outputs s = Some (key, rest) ->
  s = provider.template key +:+ rest /\ provider.valid_key key.
Proof.
  unfold provider.match_outputs. intros H.
  destruct (Go.strip_prefix provider.outputs_open s) as [after|] eqn:Hopen; [|discriminate].
  apply strip_prefix_sound in Hopen.
  destruct (provider.span_key after) as [[|a k] [|c r]] eqn:Hspan; try discriminate.
  destruct (Ascii.eqb_spec c "}") as [->|]; [|discriminate].
  injection H as <- <-.
  apply span_key_sound in Hspan as [-> Hk].
  split.
  - rewrite Hopen. unfold provider.template. now rewrite !string_app_assoc.
  - split; [discriminate | assumption].
Qed.

Lemma match_outputs_complete key rest :
  provider.valid_key key ->
  provider.match_outputs (provider.template key +:+ rest) = Some (key, rest).
Proof.
  intros [Hne Hk]. unfold provider.match_outputs, provider.template.
  rewrite !string_app_assoc, strip_prefix_app.
  change ("}" +:+ rest) with (String "}" rest).
  rewrite (span_key_complete key "}" rest Hk eq_refl).
  destruct key; [congruence | reflexivity].
Qed.

Lemma match_outputs_consuming : Go.consuming provider.match_outputs.
Proof.
  intros s key rest H. apply match_outputs_sound in H as [-> _].
  rewrite string_length_app. unfold provider.template, provider.outputs_open.
  simpl. lia.
Qed.

(** No byte of a match after the first is a dollar sign, so a match cannot
    run into the start of a later one. *)
Lemma template_app key post :
  provider.template key +:+ post = String "$" (provider.template_tail key +:+ post).
Proof. reflexivity. Qed.

Lemma key_bytes_not_dollar key :
  http.all_bytes provider.is_key_byte key = true ->
  http.all_bytes provider.not_dollar key = true.
Proof.
  induction key as [|c key IH]; simpl; [reflexivity |]. intros H.
  apply andb_prop in H as [Hc Hk]. rewrite (IH Hk), andb_true_r.
  unfold provider.not_dollar. destruct (Ascii.eqb_spec c "$") as [->|]; [discriminate | reflexivity].
Qed.

Lemma all_bytes_app p s t :
  http.all_bytes p (s +:+ t) = (http.all_bytes p s && http.all_bytes p t)%bool.
Proof.
  induction s as [|c s IH]; simpl; [reflexivity |]. now rewrite IH, andb_assoc.
Qed.

Lemma template_tail_not_dollar key :
  provider.valid_key key -> http.all_bytes provider.not_dollar (provider.template_tail key) = true.
Proof.
  intros [_ Hk]. unfold provider.template_tail.
  rewrite !all_bytes_app, (key_bytes_not_dollar _ Hk). reflexivity.
Qed.

Lemma split_before_dollar b : forall a x rest,
  http.all_bytes provider.not_dollar b = true ->
  a +:+ String "$" x = b +:+ rest ->
  exists a', a = b +:+ a' /\ rest = a' +:+ String "$" x.
Proof.
  induction b as [|y b IH]; simpl; intros a x rest Hb H.
  - exists a. auto.
  - apply andb_prop in Hb as [Hy Hb].
    destruct a as [|z a]; simpl in H.
    + injection H as <- _. discriminate.
    + injection H as -> H. destruct (IH a x rest Hb H) as (a' & -> & ->).
      exists a'. auto.
Qed.

Lemma string_cons_inj c c' s t : String c s = String c' t -> c = c' /\ s = t.
Proof. intros H. injection H as -> ->. auto. Qed.

Lemma occurs_cons c sub text : provider.occurs sub text -> provider.occurs sub (String c text).
Proof. intros (pre & post & ->). now exists (String c pre), post. Qed.

Lemma occurs_app_l p sub text : provider.occurs sub text -> provider.occurs sub (p +:+ text).
Proof.
  intros (pre & post & ->). exists (p +:+ pre), post. now rewrite string_app_assoc.
Qed.

(** Every occurrence of a template with a valid key is found by the scan. *)
Lemma scan_finds key post (Hkey : provider.valid_key key) n : forall pre,
  (String.length pre <= n)%nat ->
  In (Go.Hit key) (Go.scan provider.match_outputs (pre +:+ provider.template key +:+ post)).
Proof.
  assert (Hbase : In (Go.Hit key)
                     (Go.scan provider.match_outputs (provider.template key +:+ post))).
  { rewrite template_app, (scan_step _ match_outputs_consuming), <- template_app.
    rewrite (match_outputs_complete _ _ Hkey). now left. }
  induction n as [|n IH]; intros pre Hlen.
  - destruct pre; [exact Hbase | simpl in Hlen; lia].
  - destruct pre as [|c pre]; [exact Hbase |].
    change (String c pre +:+ provider.template key +:+ post)
      with (String c (pre +:+ provider.template key +:+ post)).
    rewrite (scan_step _ match_outputs_consuming).
    destruct (provider.match_outputs (String c (pre +:+ provider.template key +:+ post)))
      as [[k r]|] eqn:Hm.
    + right. apply match_outputs_sound in Hm as [Heq Hk].
      rewrite !template_app in Heq. apply string_cons_inj in Heq as [_ Heq].
      destruct (split_before_dollar _ pre _ r (template_tail_not_dollar _ Hk) Heq)
        as (pre' & Hpre & ->).
      rewrite <- template_app.
      apply IH. subst pre. cbn [String.length] in Hlen.
      rewrite string_length_app in Hlen. lia.
    + right. apply IH. simpl in Hlen. lia.
Qed.

(** Every hit of the scan is an occurrence of a template with a valid key. *)
Lemma scan_hit_occurs key n : forall text,
  (String.length text <= n)%nat ->
  In (Go.Hit key) (Go.scan provider.match_outputs text) ->
  provider.valid_key key /\ provider.occurs (provider.template key) text.
Proof.
  induction n as [|n IH]; intros text Hlen Hin.
  - destruct text; [contradiction | simpl in Hlen; lia].
  - destruct text as [|c text]; [contradiction |].
    rewrite (scan_step _ match_outputs_consuming) in Hin.
    destruct (provider.match_outputs (String c text)) as [[k r]|] eqn:Hm.
    + pose proof (match_outputs_consuming _ _ _ Hm) as Hshort.
      apply match_outputs_sound in Hm as [Heq Hk]. rewrite Heq.
      destruct Hin as [Hhere | Hlater].
      * injection Hhere as ->. split; [assumption |]. now exists "", r.
      * destruct (IH r) as [Hv Hocc]; [simpl in *; lia | assumption |].
        split; [assumption |]. now apply occurs_app_l.
    + destruct Hin as [Hhere | Hlater]; [discriminate |].
      destruct (IH text) as [Hv Hocc]; [simpl in *; lia | assumption |].
      split; [assumption |]. now apply occurs_cons.
Qed.

End pattern_facts.

Section interpolation_facts.

Variable ctx : InterpolationContext.t.
Let outputs := InterpolationContext.Outputs ctx.

Let record_missing := provider.record_missing outputs.

Lemma last_missing_sound toks : forall lastErr key,
  fold_left record_missing toks lastErr = Some key ->
  lastErr = Some key \/ (In (Go.Hit key) toks /\ outputs !! key = None).
Proof.
  induction toks as [|tok toks IH]; simpl; intros lastErr key H; [auto |].
  destruct (IH _ _ H) as [Hstep | [Hin Hnone]]; [|auto].
  destruct tok as [c|k]; simpl in Hstep; [auto |].
  destruct (outputs !! k) eqn:Hk; [auto |].
  injection Hstep as ->. auto.
Qed.

Lemma last_missing_keeps toks : forall lastErr,
  is_Some lastErr -> is_Some (fold_left record_missing toks lastErr).
Proof.
  induction toks as [|tok toks IH]; simpl; intros lastErr H; [assumption |].
  apply IH. destruct tok as [c|k]; simpl; [assumption |].
  destruct (outputs !! k); [assumption | eauto].
Qed.

Lemma last_missing_complete toks key : forall lastErr,
  In (Go.Hit key) toks -> outputs !! key = None ->
  is_Some (fold_left record_missing toks lastErr).
Proof.
  induction toks as [|tok toks IH]; simpl; intros lastErr Hin Hnone; [contradiction |].
  destruct Hin as [-> | Hin]; [|now apply IH].
  apply last_missing_keeps. simpl. rewrite Hnone. eauto.
Qed.

(** An error of [InterpolateString] names a missing key whose template
    occurs in the text. *)
Lemma InterpolateString_error text e :
  provider.InterpolateString text (Some ctx) = Err e ->
  provider.key_not_found outputs text e.
Proof.
  unfold provider.InterpolateString. destruct (String.eqb text ""); [discriminate |].
  unfold provider.last_missing. fold outputs. fold record_missing.
  destruct (fold_left record_missing _ None) as [key|] eqn:Hlast; [|discriminate].
  intros H. injection H as <-.
  apply last_missing_sound in Hlast as [Habs | [Hin Hnone]]; [discriminate |].
  apply (scan_hit_occurs key _ text (le_n _)) in Hin as [Hv Hocc].
  now exists key.
Qed.

(** A text in which the template of a missing key occurs is not expanded:
    [InterpolateString] fails. *)
Lemma InterpolateString_missing text key :
  provider.valid_key key -> provider.occurs (provider.template key) text ->
  outputs !! key = None ->
  exists e, provider.InterpolateString text (Some ctx) = Err e.
Proof.
  intros Hv (pre & post & ->) Hnone. unfold provider.InterpolateString.
  assert (String.eqb (pre +:+ provider.template key +:+ post) "" = false) as ->.
  { apply String.eqb_neq. destruct pre; discriminate. }
  unfold provider.last_missing. fold outputs. fold record_missing.
  destruct (last_missing_complete
              (Go.scan provider.match_outputs (pre +:+ provider.template key +:+ post))
              key None (scan_finds key post Hv _ pre (le_n _)) Hnone) as [k ->].
  eauto.
Qed.

Lemma interpolate_entries_error m e :
  provider.interpolate_entries m (Some ctx) = Err e ->
  exists k v context e', In (k, v) m /\ e = context +:+ e'
                         /\ provider.key_not_found outputs v e'.
Proof.
  induction m as [|[k v] m IH]; cbn [provider.interpolate_entries];
    [discriminate |]. intros H.
  destruct (provider.InterpolateString v (Some ctx)) as [expanded|e0] eqn:Hv.
  - destruct (provider.interpolate_entries m (Some ctx)) as [rest|e1]; [discriminate |].
    injection H as <-. destruct (IH eq_refl) as (k' & v' & c & e' & Hin & He & Hk).
    exists k', v', c, e'. split; [now right | split; assumption].
  - assert (e = "failed to interpolate map value for key " +:+ Go.fmt_q k +:+ ": " +:+ e0)
      as -> by congruence.
    apply InterpolateString_error in Hv.
    exists k, v, ("failed to interpolate map value for key " +:+ Go.fmt_q k +:+ ": "), e0.
    split; [now left | split; [now rewrite !string_app_assoc | assumption]].
Qed.

Lemma interpolate_entries_missing m k v :
  In (k, v) m ->
  (exists e, provider.InterpolateString v (Some ctx) = Err e) ->
  exists e, provider.interpolate_entries m (Some ctx) = Err e.
Proof.
  induction m as [|[k0 v0] m IH]; cbn [provider.interpolate_entries In];
    [contradiction |]. intros Hin Hv.
  destruct (provider.InterpolateString v0 (Some ctx)) as [expanded|e0] eqn:Hv0; [|eauto].
  destruct Hin as [Heq | Hin].
  - injection Heq as -> ->. destruct Hv as [e He]. congruence.
  - destruct (IH Hin Hv) as [e ->]. eauto.
Qed.

Lemma interpolate_blocks_error blocks e :
  provider.interpolate_blocks blocks (Some ctx) = Err e ->
  exists hb context e', In hb blocks /\ e = context +:+ e'
    /\ provider.key_not_found outputs (tf.ValueString (HeaderBlockModel.Value hb)) e'.
Proof.
  induction blocks as [|hb blocks IH]; cbn [provider.interpolate_blocks];
    [discriminate |]. intros H.
  destruct (provider.InterpolateString _ (Some ctx)) as [expanded|e0] eqn:Hv.
  - destruct (provider.interpolate_blocks blocks (Some ctx)) as [rest|e1]; [discriminate |].
    injection H as <-. destruct (IH eq_refl) as (hb' & c & e' & Hin & He & Hk).
    exists hb', c, e'. split; [now right | split; assumption].
  - assert (e = "failed to interpolate header "
                +:+ Go.fmt_q (tf.ValueString (HeaderBlockModel.Name hb)) +:+ ": " +:+ e0)
      as -> by congruence.
    apply InterpolateString_error in Hv.
    exists hb, ("failed to interpolate header "
                +:+ Go.fmt_q (tf.ValueString (HeaderBlockModel.Name hb)) +:+ ": "), e0.
    split; [now left | split; [now rewrite !string_app_assoc | assumption]].
Qed.

Lemma interpolate_blocks_missing blocks hb :
  In hb blocks ->
  (exists e, provider.InterpolateString (tf.ValueString (HeaderBlockModel.Value hb))
                                        (Some ctx) = Err e) ->
  exists e, provider.interpolate_blocks blocks (Some ctx) = Err e.
Proof.
  induction blocks as [|hb0 blocks IH]; cbn [provider.interpolate_blocks In];
    [contradiction |]. intros Hin Hv.
  destruct (provider.InterpolateString (tf.ValueString (HeaderBlockModel.Value hb0))
                                       (Some ctx)) as [expanded|e0] eqn:Hv0; [|eauto].
  destruct Hin as [-> | Hin].
  - destruct Hv as [e He]. congruence.
  - destruct (IH Hin Hv) as [e ->]. eauto.
Qed.

End interpolation_facts.

Section destroy_facts.

Variable ctx : InterpolationContext.t.
Let outputs := InterpolationContext.Outputs ctx.

Lemma expand_string_field_error v e :
  provider.expand_string_field v (Some ctx) = Err e ->
  tf.IsNull v = false /\ provider.key_not_found outputs (tf.ValueString v) e.
Proof.
  unfold provider.expand_string_field. destruct (tf.IsNull v); [discriminate |].
  destruct (provider.InterpolateString _ _) as [x|e0] eqn:H; [discriminate |].
  intros He. assert (e0 = e) as -> by congruence.
  split; [reflexivity | now apply InterpolateString_error].
Qed.

Lemma expand_string_field_missing v :
  tf.IsNull v = false ->
  (exists e, provider.InterpolateString (tf.ValueString v) (Some ctx) = Err e) ->
  exists e, provider.expand_string_field v (Some ctx) = Err e.
Proof.
  intros Hnull [e He]. unfold provider.expand_string_field. rewrite Hnull, He. eauto.
Qed.

Lemma expand_map_field_error m e :
  provider.expand_map_field m (Some ctx) = Err e ->
  exists elements k v context e',
    m = tf.Known elements /\ In (k, v) elements /\ e = context +:+ e'
    /\ provider.key_not_found outputs (tf.ValueString v) e'.
Proof.
  unfold provider.expand_map_field. destruct m as [| |elements]; try discriminate.
  cbn [tf.IsNull provider.ConvertTerraformMap]. unfold provider.InterpolateMap.
  destruct (map _ elements) as [|x xs] eqn:Hmap; [discriminate |].
  destruct (provider.interpolate_entries (x :: xs) (Some ctx)) as [r|e0] eqn:Hent;
    [discriminate |].
  intros He. assert (e0 = e) as -> by congruence.
  destruct (interpolate_entries_error ctx _ _ Hent) as (k & v' & c & e' & Hin & Heq & Hk).
  rewrite <- Hmap in Hin. apply in_map_iff in Hin as ([k0 v0] & Hpair & Hin).
  simpl in Hpair. injection Hpair as <- <-.
  exists elements, k0, v0, c, e'. auto.
Qed.

Lemma expand_map_field_missing m elements k v :
  m = tf.Known elements -> In (k, v) elements ->
  (exists e, provider.InterpolateString (tf.ValueString v) (Some ctx) = Err e) ->
  exists e, provider.expand_map_field m (Some ctx) = Err e.
Proof.
  intros -> Hin Hv. unfold provider.expand_map_field.
  cbn [tf.IsNull provider.ConvertTerraformMap]. unfold provider.InterpolateMap.
  assert (Hin' : In (k, tf.ValueString v)
                    (map (fun kv => (fst kv, tf.ValueString (snd kv))) elements)).
  { apply in_map_iff. now exists (k, v). }
  destruct (map _ elements) as [|x xs]; [contradiction |].
  destruct (interpolate_entries_missing ctx _ _ _ Hin' Hv) as [e ->]. eauto.
Qed.

Lemma InterpolateHeaderBlocks_error blocks e :
  provider.InterpolateHeaderBlocks blocks (Some ctx) = Err e ->
  exists hb context e', In hb blocks /\ e = context +:+ e'
    /\ provider.key_not_found outputs (tf.ValueString (HeaderBlockModel.Value hb)) e'.
Proof.
  unfold provider.InterpolateHeaderBlocks. destruct blocks as [|hb blocks]; [discriminate |].
  apply interpolate_blocks_error.
Qed.

Lemma InterpolateHeaderBlocks_missing blocks hb :
  In hb blocks ->
  (exists e, provider.InterpolateString (tf.ValueString (HeaderBlockModel.Value hb))
                                        (Some ctx) = Err e) ->
  exists e, provider.InterpolateHeaderBlocks blocks (Some ctx) = Err e.
Proof.
  intros Hin Hv. unfold provider.InterpolateHeaderBlocks.
  destruct blocks as [|hb0 blocks]; [contradiction |].
  now apply (interpolate_blocks_missing ctx _ hb).
Qed.

(** A failed expansion is a key-not-found error about one of the expanded
    strings. *)
Lemma expand_destroy_config_error d diag :
  provider.expand_destroy_config d (Some ctx) = inl diag ->
  provider.missing_key_error outputs d (snd diag).
Proof.
  unfold provider.expand_destroy_config. intros H.
  destruct (provider.expand_string_field (RequestConfigModel.Url d) _) as [url|e] eqn:Hurl.
  2: { injection H as <-. apply expand_string_field_error in Hurl as [Hn Hk].
       exists "", e, (tf.ValueString (RequestConfigModel.Url d)).
       split; [reflexivity | split; [now constructor | assumption]]. }
  destruct (provider.expand_map_field (RequestConfigModel.Headers d) _) as [hs|e] eqn:Hhs.
  2: { injection H as <-.
       apply expand_map_field_error in Hhs as (els & k & v & c & e' & Hm & Hin & -> & Hk).
       exists c, e', (tf.ValueString v).
       split; [reflexivity | split; [now apply (provider.field_header d k v els) | assumption]]. }
  destruct (provider.InterpolateHeaderBlocks _ _) as [blocks|e] eqn:Hbl.
  2: { injection H as <-.
       apply InterpolateHeaderBlocks_error in Hbl as (hb & c & e' & Hin & -> & Hk).
       exists c, e', (tf.ValueString (HeaderBlockModel.Value hb)).
       split; [reflexivity | split; [now constructor | assumption]]. }
  destruct (provider.expand_map_field (RequestConfigModel.Query d) _) as [q|e] eqn:Hq.
  2: { injection H as <-.
       apply expand_map_field_error in Hq as (els & k & v & c & e' & Hm & Hin & -> & Hk).
       exists c, e', (tf.ValueString v).
       split; [reflexivity | split; [now apply (provider.field_query d k v els) | assumption]]. }
  destruct (provider.expand_string_field (RequestConfigModel.Body d) _) as [b|e] eqn:Hb.
  2: { injection H as <-. apply expand_string_field_error in Hb as [Hn Hk].
       exists "", e, (tf.ValueString (RequestConfigModel.Body d)).
       split; [reflexivity | split; [now apply provider.field_body | assumption]]. }
  destruct (provider.expand_string_field (RequestConfigModel.BodyJson d) _) as [bj|e] eqn:Hbj.
  2: { injection H as <-. apply expand_string_field_error in Hbj as [Hn Hk].
       exists "", e, (tf.ValueString (RequestConfigModel.BodyJson d)).
       split; [reflexivity | split; [now apply provider.field_body_json | assumption]]. }
  discriminate.
Qed.

(** A destroy block with the template of a missing key in one of the
    expanded strings is not expanded. *)
Lemma expand_destroy_config_missing d text key :
  provider.template_field d text ->
  provider.valid_key key -> provider.occurs (provider.template key) text ->
  outputs !! key = None ->
  exists diag, provider.expand_destroy_config d (Some ctx) = inl diag.
Proof.
  intros Hfield Hv Hocc Hnone.
  pose proof (InterpolateString_missing ctx text key Hv Hocc Hnone) as Hfail.
  unfold provider.expand_destroy_config.
  destruct (provider.expand_string_field (RequestConfigModel.Url d) _) as [url|e] eqn:Hurl;
    [|eauto].
  destruct (provider.expand_map_field (RequestConfigModel.Headers d) _) as [hs|e] eqn:Hhs;
    [|eauto].
  destruct (provider.InterpolateHeaderBlocks _ _) as [blocks|e] eqn:Hbl; [|eauto].
  destruct (provider.expand_map_field (RequestConfigModel.Query d) _) as [q|e] eqn:Hq;
    [|eauto].
  destruct (provider.expand_string_field (RequestConfigModel.Body d) _) as [b|e] eqn:Hb;
    [|eauto].
  destruct (provider.expand_string_field (RequestConfigModel.BodyJson d) _) as [bj|e] eqn:Hbj;
    [|eauto].
  exfalso. destruct Hfield as [Hn | k v els Hm Hin | hb Hin | k v els Hm Hin | Hn | Hn].
  - destruct (expand_string_field_missing _ Hn Hfail). congruence.
  - destruct (expand_map_field_missing _ _ _ _ Hm Hin Hfail). congruence.
  - destruct (InterpolateHeaderBlocks_missing _ _ Hin Hfail). congruence.
  - destruct (expand_map_field_missing _ _ _ _ Hm Hin Hfail). congruence.
  - destruct (expand_string_field_missing _ Hn Hfail). congruence.
  - destruct (expand_string_field_missing _ Hn Hfail). congruence.
Qed.

End destroy_facts.




(** The same input, evaluated: the diagnostic [Delete] returns. *)
Example Delete_missing_key_evaluated :
  provider.Delete (sample.env (fun _ => sample.respond 204 "")) (sample.cfg 1048576)
    (sample.state "res-123" []
       (Some (sample.destroy "https://api.example.com/users/${self.outputs.user_id}"
                             tf.Null None))) []
  = (Return [("Failed to interpolate destroy URL", "output key not found: user_id")], []).
Proof. vm_compute. reflexivity. Qed.

(** Scenario 6 of the specification: with the key present the template is
    expanded, one request goes out, and the state entry is dropped. *)
Example Delete_expands_and_succeeds :
  let model :=
    sample.state "abc123" [("user_id", tf.Known "u42")]
      (Some (sample.destroy "https://api.test/users/${self.outputs.user_id}" tf.Null
                            (Some (sample.expect_status [200; 204; 404])))) in
  provider.Delete (sample.env (fun _ => sample.respond 404 "")) (sample.cfg 1048576) model []
  = (Return [],
     [{| http.Method := "DELETE"; http.URL := "https://api.test/users/u42";
         http.ReqHeader := ∅; http.ReqBody := None |}])
  /\ provider.state_after_delete model [] = None.
Proof. split; vm_compute; reflexivity. Qed.

(** The outputs of the interpolation context are those of the state: a key
    is absent from one exactly when it is absent from the other. *)
Lemma fold_insert_lookup_None (elements : list (string * tf.value string)) :
  forall (m : gmap string string) (key : string),
    fold_left (fun outputs kv => <[fst kv := tf.ValueString (snd kv)]> outputs) elements m
      !! key = None
    <-> m !! key = None /\ ~ In key (map fst elements).
Proof.
  induction elements as [|[k v] elements IH]; simpl; intros m key.
  - tauto.
  - rewrite IH, lookup_insert_None. intuition congruence.
Qed.

Lemma BuildInterpolationContextFromState_outputs state elements ctx key :
  HttpxRequestResourceModel.Outputs state = tf.Known elements ->
  provider.BuildInterpolationContextFromState state = Ok ctx ->
  InterpolationContext.Outputs ctx !! key = None <-> ~ In key (map fst elements).
Proof.
  unfold provider.BuildInterpolationContextFromState. intros -> H.
  injection H as <-. simpl. rewrite fold_insert_lookup_None, lookup_empty. tauto.
Qed.

(** Unrecognised [${self...}] forms are left as they are, and [${self.id}]
    is replaced. *)
Example InterpolateString_other_forms :
  provider.InterpolateString "/${self.id}/${self.status_code}/${self.outputs.a-b}"
    (Some {| InterpolationContext.ID := "abc123";
             InterpolationContext.Outputs := ∅;
             InterpolationContext.ResponseBody := "";
             InterpolationContext.StatusCode := 200 |})
  = Ok "/abc123/${self.status_code}/${self.outputs.a-b}".
Proof. vm_compute. reflexivity. Qed.

(** ** The resource ID (C10) *)

Example Sum256_abc :
  hex.EncodeToString (sha256.Sum256 (Go.bytes "abc"))
  = "ba7816bf8f01cfea414140de5dae2223b00361a396177a9cb410ff61f20015ad".
Proof. vm_compute. reflexivity. Qed.

Example Sum256_two_blocks :
  hex.EncodeToString
    (sha256.Sum256 (Go.bytes "abcdbcdecdefdefgefghfghighijhijkijkljklmklmnlmnomnopnopq"))
  = "248d6a61d20638b8e5c026930c3e6039a33ce45964ff2167f6ecedd419db06c1".
Proof. vm_compute. reflexivity. Qed.

Lemma length_be_bytes n x : length (sha256.be_bytes n x) = n.
Proof. unfold sha256.be_bytes. now rewrite length_map, length_rev, length_seq. Qed.

(** A digest has 32 bytes, whatever the message. *)
Lemma length_Sum256 msg : length (sha256.Sum256 msg) = 32%nat.
Proof.
  unfold sha256.Sum256.
  destruct (sha256.blocks _ _ _) as [[[[[[[a b] c] d] e] f] g] h].
  unfold sha256.digest_bytes. now rewrite !length_app, !length_be_bytes.
Qed.

Lemma length_EncodeToString bytes :
  String.length (hex.EncodeToString bytes) = (2 * length bytes)%nat.
Proof. induction bytes as [|b bytes IH]; simpl; [reflexivity | rewrite IH; lia]. Qed.

(** C10: the resource ID is the first 16 hexadecimal characters of the
    SHA-256 digest of "url|method|body" — the slice is always within the 64
    characters of the encoded digest, so an ID has exactly 16 characters —
    and it is a function of the url, the method and the raw body alone: two
    models that agree on these three get the same ID, whatever their
    [body_json], [body_file], [headers] or [query]. *)
Theorem generateResourceID_is_hash_of_url_method_body :
  (forall model : HttpxRequestResourceModel.t,
      provider.generateResourceID model
      = Go.take 16 (hex.EncodeToString
                      (sha256.Sum256
                         (Go.bytes (tf.ValueString (HttpxRequestResourceModel.Url model)
                                    +:+ "|"
                                    +:+ tf.ValueString (HttpxRequestResourceModel.Method model)
                                    +:+ "|"
                                    +:+ tf.ValueString (HttpxRequestResourceModel.Body model)))))
      /\ String.length (hex.EncodeToString
                          (sha256.Sum256
                             (Go.bytes (tf.ValueString (HttpxRequestResourceModel.Url model)
                                        +:+ "|"
                                        +:+ tf.ValueString (HttpxRequestResourceModel.Method model)
                                        +:+ "|"
                                        +:+ tf.ValueString (HttpxRequestResourceModel.Body model)))))
         = 64%nat
      /\ String.length (provider.generateResourceID model) = 16%nat)
  /\ (forall m1 m2 : HttpxRequestResourceModel.t,
         tf.ValueString (HttpxRequestResourceModel.Url m1)
         = tf.ValueString (HttpxRequestResourceModel.Url m2) ->
         tf.ValueString (HttpxRequestResourceModel.Method m1)
         = tf.ValueString (HttpxRequestResourceModel.Method m2) ->
         tf.ValueString (HttpxRequestResourceModel.Body m1)
         = tf.ValueString (HttpxRequestResourceModel.Body m2) ->
         provider.generateResourceID m1 = provider.generateResourceID m2).
Proof.
  split.
  - intros model. split; [reflexivity |].
    assert (H64 : forall msg, String.length (hex.EncodeToString (sha256.Sum256 msg)) = 64%nat)
      by (intros msg; now rewrite length_EncodeToString, length_Sum256).
    split; [apply H64 |].
    unfold provider.generateResourceID. now rewrite length_take, H64.
  - intros m1 m2 Hurl Hmethod Hbody. unfold provider.generateResourceID.
    now rewrite Hurl, Hmethod, Hbody.
Qed.

Lemma generateResourceID_is_hash_of_url_method_body_witness :
  provider.generateResourceID (sample.resource tf.Null tf.Null tf.Null tf.Null)
  = provider.generateResourceID
      (sample.resource (tf.Known [("X-Trace", tf.Known "1")])
                       (tf.Known [("page", tf.Known "2")])
                       (tf.Known "[1,2]") (tf.Known "payload.json")).
Proof.
  apply (proj2 generateResourceID_is_hash_of_url_method_body
               (sample.resource tf.Null tf.Null tf.Null tf.Null)
               (sample.resource (tf.Known [("X-Trace", tf.Known "1")])
                                (tf.Known [("page", tf.Known "2")])
                                (tf.Known "[1,2]") (tf.Known "payload.json")));
    reflexivity.
Defined.

(** The ID of that resource: the start of the digest of
    [https://api.test/users|POST|]. *)
Example generateResourceID_sample :
  provider.generateResourceID
    (sample.resource (tf.Known [("X-Trace", tf.Known "1")]) tf.Null (tf.Known "[1,2]") tf.Null)
  = "9e479f937b58cbd1".
Proof. vm_compute. reflexivity. Qed.

(** Outside the expanded strings nothing is interpolated: a bearer token
    that spells a template is sent as it is. *)
Example Delete_does_not_expand_bearer_token :
  let d :=
    {| RequestConfigModel.Url := tf.Known "https://api.test/session";
       RequestConfigModel.Method := tf.Known "DELETE";
       RequestConfigModel.Headers := tf.Null;
       RequestConfigModel.Query := tf.Null;
       RequestConfigModel.Body := tf.Null;
       RequestConfigModel.BodyJson := tf.Null;
       RequestConfigModel.BodyFile := tf.Null;
       RequestConfigModel.BearerToken := tf.Known "${self.outputs.token}";
       RequestConfigModel.HeaderBlocks := [];
       RequestConfigModel.BasicAuth := None;
       RequestConfigModel.Retry := None;
       RequestConfigModel.RetryUntil := None;
       RequestConfigModel.Expect := None |} in
  match provider.Delete sample.quiet (sample.cfg 1048576)
                        (sample.state "res-123" [] (Some d)) [] with
  | (Return [], [req]) =>
      http.ReqHeader req !! "Authorization" = Some ["Bearer ${self.outputs.token}"]
  | _ => False
  end.
Proof. vm_compute. reflexivity. Qed.

(* ================================================================== *)
(** * Further properties of the code *)

(** ** Decimal numbers: printing and parsing *)

Section decimal_facts.

Lemma parse_digits_acc (d : Decimal.uint) : forall acc : positive,
  Go.parse_digits (Z.pos acc) (NilEmpty.string_of_uint d)
  = Some (Z.pos (Pos.of_uint_acc d acc)).
Proof.
  induction d as [|d IH|d IH|d IH|d IH|d IH|d IH|d IH|d IH|d IH|d IH]; intros acc;
    [reflexivity | ..];
    cbn [NilEmpty.string_of_uint Go.parse_digits Pos.of_uint_acc];
    match goal with
    | |- context [Go.digit_val ?c] =>
        let v := eval vm_compute in (Go.digit_val c) in
        change (Go.digit_val c) with v; cbv iota
    end;
    rewrite <- IH; f_equal; lia.
Qed.

Lemma parse_digits_of_uint (d : Decimal.uint) :
  Go.parse_digits 0 (NilEmpty.string_of_uint d) = Some (Z.of_N (Pos.of_uint d)).
Proof.
  induction d as [|d IH|d IH|d IH|d IH|d IH|d IH|d IH|d IH|d IH|d IH];
    [reflexivity | exact IH | ..];
    cbn [NilEmpty.string_of_uint Go.parse_digits Pos.of_uint];
    match goal with
    | |- context [Go.digit_val ?c] =>
        let v := eval vm_compute in (Go.digit_val c) in
        change (Go.digit_val c) with v; cbv iota
    end;
    apply (parse_digits_acc d).
Qed.

Lemma parse_unsigned_to_uint (p : positive) :
  Go.parse_unsigned (NilEmpty.string_of_uint (Pos.to_uint p)) = Some (Z.pos p).
Proof.
  pose proof (parse_digits_of_uint (Pos.to_uint p)) as H.
  rewrite DecimalPos.Unsigned.of_to in H.
  pose proof (DecimalPos.Unsigned.to_uint_nonnil p) as Hnil.
  unfold Go.parse_unsigned. destruct (Pos.to_uint p); [congruence | ..]; exact H.
Qed.

Lemma span_digits_uint (d : Decimal.uint) :
  Go.span_digits (NilEmpty.string_of_uint d) = NilEmpty.string_of_uint d.
Proof.
  induction d as [|d IH|d IH|d IH|d IH|d IH|d IH|d IH|d IH|d IH|d IH];
    [reflexivity | ..];
    cbn [NilEmpty.string_of_uint Go.span_digits];
    match goal with
    | |- context [Go.digit_val ?c] =>
        let v := eval vm_compute in (Go.digit_val c) in
        change (Go.digit_val c) with v; cbv iota
    end;
    now rewrite IH.
Qed.

Lemma trim_right_uint (d : Decimal.uint) :
  Go.trim_right (NilEmpty.string_of_uint d) = NilEmpty.string_of_uint d.
Proof.
  induction d as [|d IH|d IH|d IH|d IH|d IH|d IH|d IH|d IH|d IH|d IH];
    [reflexivity | ..];
    cbn [NilEmpty.string_of_uint Go.trim_right]; rewrite IH;
    now destruct (NilEmpty.string_of_uint d).
Qed.

Lemma TrimSpace_uint (d : Decimal.uint) :
  Go.TrimSpace (NilEmpty.string_of_uint d) = NilEmpty.string_of_uint d.
Proof.
  unfold Go.TrimSpace.
  assert (Go.trim_left (NilEmpty.string_of_uint d) = NilEmpty.string_of_uint d) as ->
    by (destruct d; reflexivity).
  apply trim_right_uint.
Qed.

(** What [%d] prints, [TrimSpace] leaves alone and [ParseInt] reads back. *)
Lemma TrimSpace_fmt_d (z : Z) : Go.TrimSpace (Go.fmt_d z) = Go.fmt_d z.
Proof.
  destruct z as [|p|p]; [reflexivity | apply TrimSpace_uint |].
  unfold Go.fmt_d, Go.TrimSpace. cbn [Z.to_int NilEmpty.string_of_int Go.trim_left].
  change (Go.is_space "-") with false. cbv iota.
  cbn [Go.trim_right]. rewrite trim_right_uint.
  now destruct (NilEmpty.string_of_uint (Pos.to_uint p)).
Qed.

Lemma ParseInt_fmt_d (z : Z) :
  Go.minInt64 <= z <= Go.maxInt64 -> Go.ParseInt (Go.fmt_d z) = Some z.
Proof.
  intros Hz.
  assert (Hin : Go.in_int64 z = true).
  { unfold Go.in_int64. apply andb_true_intro. split; apply Z.leb_le; lia. }
  destruct z as [|p|p]; [reflexivity | |].
  - pose proof (parse_unsigned_to_uint p) as H.
    pose proof (DecimalPos.Unsigned.to_uint_nonnil p) as Hnil.
    unfold Go.fmt_d, Go.ParseInt. cbn [Z.to_int NilEmpty.string_of_int].
    destruct (Pos.to_uint p); [congruence | ..];
      cbn [NilEmpty.string_of_uint] in *; rewrite H; now rewrite Hin.
  - pose proof (parse_unsigned_to_uint p) as H.
    unfold Go.fmt_d, Go.ParseInt. cbn [Z.to_int NilEmpty.string_of_int].
    rewrite H. cbn [option_map]. change (- Z.pos p) with (Z.neg p). now rewrite Hin.
Qed.

Lemma Sscanf_d_fmt_d (z : Z) :
  Go.minInt64 <= z <= Go.maxInt64 -> Go.Sscanf_d (Go.fmt_d z) = Some z.
Proof.
  intros Hz. pose proof (ParseInt_fmt_d z Hz) as H.
  destruct z as [|p|p]; [reflexivity | |].
  - pose proof (DecimalPos.Unsigned.to_uint_nonnil p) as Hnil.
    pose proof (span_digits_uint (Pos.to_uint p)) as Hspan.
    unfold Go.fmt_d in *. cbn [Z.to_int NilEmpty.string_of_int] in *.
    unfold Go.Sscanf_d.
    destruct (Pos.to_uint p); [congruence | ..];
      cbn [NilEmpty.string_of_uint] in *; cbn [Go.SkipSpace]; simpl;
      cbn [Go.span_digits] in Hspan; simpl in Hspan; rewrite Hspan; exact H.
  - pose proof (DecimalPos.Unsigned.to_uint_nonnil p) as Hnil.
    pose proof (span_digits_uint (Pos.to_uint p)) as Hspan.
    unfold Go.fmt_d in *. cbn [Z.to_int NilEmpty.string_of_int] in *.
    unfold Go.Sscanf_d. cbn [Go.SkipSpace]. simpl. rewrite Hspan.
    destruct (NilEmpty.string_of_uint (Pos.to_uint p)) eqn:Hs.
    + destruct (Pos.to_uint p); try congruence; discriminate Hs.
    + exact H.
Qed.

End decimal_facts.

(** ** The wire log of the retry loop *)

Section wire_log.

Variables (env : Env) (req : http.Request) (cfg : config.ProviderConfig).

Lemma ExecuteRequest_no_client log e :
  client.NewHTTPClient env (provider.ToConfigProviderConfig cfg) = Err e ->
  provider.ExecuteRequest env req cfg log
  = (Return (Failure None ("failed to create HTTP client: " +:+ e)), log).
Proof. intros H. unfold provider.ExecuteRequest. now rewrite H. Qed.

Lemma ExecuteRequest_sends log :
  client.NewHTTPClient env (provider.ToConfigProviderConfig cfg) = Ok tt ->
  snd (provider.ExecuteRequest env req cfg log) = (log ++ [req])%list.
Proof.
  intros H. unfold provider.ExecuteRequest. rewrite H.
  destruct (http_Do env req (length log)) as [e|resp]; [reflexivity |].
  destruct (Go.ReadAll _) as [bodyBytes [e|]]; [reflexivity |].
  destruct (if _ <=? _ then _ else _); reflexivity.
Qed.

Lemma ExecuteRequest_success log r log' :
  provider.ExecuteRequest env req cfg log = (Return (Success r), log') ->
  client.NewHTTPClient env (provider.ToConfigProviderConfig cfg) = Ok tt
  /\ ResponseResult.AttemptCount r = 1 /\ log' = (log ++ [req])%list
  /\ ResponseResult.Error r = "".
Proof.
  unfold provider.ExecuteRequest.
  destruct (client.NewHTTPClient env _) as [[]|e]; [|discriminate].
  destruct (http_Do env req (length log)) as [e|resp]; [discriminate |].
  destruct (Go.ReadAll _) as [bodyBytes [e|]]; [discriminate |].
  destruct (if _ <=? _ then _ else _); [|discriminate].
  intros H. injection H as <- <-. auto.
Qed.

Lemma ExecuteRequest_success_fst log r :
  fst (provider.ExecuteRequest env req cfg log) = Return (Success r) ->
  ResponseResult.Error r = "".
Proof.
  destruct (provider.ExecuteRequest env req cfg log) as [o log'] eqn:H. cbn.
  intros ->. now apply ExecuteRequest_success in H.
Qed.

Variables (rc : RetryConfig.t) (ruc : option RetryUntilConfig.t) (attempts : Z).

Lemma iteration_log attempt vars log :
  snd (provider.iteration env req cfg rc ruc attempts attempt vars log)
  = snd (provider.ExecuteRequest env req cfg log).
Proof.
  unfold provider.iteration.
  destruct (provider.ExecuteRequest env req cfg log) as [[[result|result err]|msg] log'];
    simpl; try reflexivity.
  - destruct ruc.
    + destruct (provider.EvaluateRetryUntil env _ result) as [satisfied unsatisfied].
      destruct (negb satisfied && _)%bool; [reflexivity |]. now destruct satisfied.
    + now destruct (_ && _)%bool.
  - now destruct (attempts <=? _).
Qed.

Lemma iteration_success attempt vars log r :
  fst (provider.iteration env req cfg rc ruc attempts attempt vars log)
  = provider.StepReturn (Success r) ->
  ResponseResult.AttemptCount r = attempt
  /\ exists r0, fst (provider.ExecuteRequest env req cfg log) = Return (Success r0)
                /\ r = ResponseResult.set_AttemptCount r0 attempt.
Proof.
  unfold provider.iteration, provider.sleep.
  destruct (provider.ExecuteRequest env req cfg log) as [[[result|result err]|msg] log'];
    simpl; try discriminate.
  - assert (Hfin : provider.StepReturn
                     (Success (ResponseResult.set_AttemptCount result attempt))
                   = provider.StepReturn (Success r) ->
                   ResponseResult.AttemptCount r = attempt
                   /\ exists r0, Return (Success result) = Return (Success r0)
                                 /\ r = ResponseResult.set_AttemptCount r0 attempt).
    { intros H. injection H as <-. eauto. }
    destruct ruc.
    + destruct (provider.EvaluateRetryUntil env _ result) as [satisfied unsatisfied].
      destruct (negb satisfied && _)%bool; simpl.
      * destruct (ctx_Done env _ _); discriminate.
      * destruct satisfied; exact Hfin.
    + destruct (_ && _)%bool; simpl; [|exact Hfin].
      destruct (ctx_Done env _ _); discriminate.
  - destruct (attempts <=? _); simpl; [discriminate |].
    destruct (ctx_Done env _ _); discriminate.
Qed.

(** Every iteration makes at most one round trip, always with the same
    request. *)
Lemma retry_loop_log n : forall attempt vars log,
  exists k, (k <= n)%nat
            /\ snd (provider.retry_loop env req cfg rc ruc attempts n attempt vars log)
               = (log ++ repeat req k)%list.
Proof.
  induction n as [|n IH]; intros attempt vars log; simpl.
  - exists 0%nat. split; [lia | now rewrite app_nil_r].
  - pose proof (iteration_log attempt vars log) as Hlog.
    destruct (provider.iteration env req cfg rc ruc attempts attempt vars log)
      as [st log1]. simpl in Hlog.
    assert (Hone : exists j, (j <= 1)%nat /\ log1 = (log ++ repeat req j)%list).
    { subst log1.
      destruct (client.NewHTTPClient env (provider.ToConfigProviderConfig cfg))
        as [[]|e] eqn:Hc.
      - exists 1%nat. split; [lia |]. now apply ExecuteRequest_sends.
      - exists 0%nat. split; [lia |].
        rewrite (ExecuteRequest_no_client log e Hc). simpl. now rewrite app_nil_r. }
    destruct Hone as (j & Hj & ->).
    destruct st as [o|vars'|msg]; simpl; try (exists j; split; [lia | reflexivity]).
    destruct (IH (attempt + 1) vars' (log ++ repeat req j)%list) as (k & Hk & ->).
    exists (j + k)%nat. split; [lia |].
    now rewrite repeat_app, List.app_assoc.
Qed.

(** A success that comes out of the loop carries the number of round
    trips that were made. *)
Lemma retry_loop_success n : forall attempt vars log r log',
  provider.retry_loop env req cfg rc ruc attempts n attempt vars log
  = (inl (Return (Success r)), log') ->
  exists k, (1 <= k <= n)%nat /\ log' = (log ++ repeat req k)%list
            /\ ResponseResult.AttemptCount r = attempt + Z.of_nat k - 1
            /\ ResponseResult.Error r = "".
Proof.
  destruct (client.NewHTTPClient env (provider.ToConfigProviderConfig cfg))
    as [[]|e] eqn:Hc.
  - induction n as [|n IH]; intros attempt vars log r log'; simpl; [discriminate |].
    pose proof (iteration_log attempt vars log) as Hlog.
    pose proof (iteration_success attempt vars log) as Hsucc.
    rewrite (ExecuteRequest_sends log Hc) in Hlog.
    destruct (provider.iteration env req cfg rc ruc attempts attempt vars log)
      as [st log1]. simpl in Hlog, Hsucc. subst log1.
    destruct st as [o|vars'|msg]; intros H.
    + injection H as -> <-. destruct (Hsucc r eq_refl) as (Hcount & r0 & Hr0 & ->).
      exists 1%nat. split; [lia |]. split; [reflexivity |]. split; [lia |].
      exact (ExecuteRequest_success_fst log r0 Hr0).
    + destruct (IH _ _ _ _ _ H) as (k & Hk & -> & Hcount & Herr).
      exists (S k). split; [lia |]. split; [|split; [lia | exact Herr]].
      rewrite <- List.app_assoc. reflexivity.
    + discriminate.
  - assert (Hnever : forall attempt vars log r log',
              provider.retry_loop env req cfg rc ruc attempts n attempt vars log
              <> (inl (Return (Success r)), log')).
    { induction n as [|n IH]; intros attempt vars log r log'; simpl; [discriminate |].
      pose proof (iteration_success attempt vars log) as Hsucc.
      rewrite (ExecuteRequest_no_client log e Hc) in Hsucc.
      destruct (provider.iteration env req cfg rc ruc attempts attempt vars log)
        as [st log1]. simpl in Hsucc.
      destruct st as [o|vars'|msg]; intros H.
      + injection H as -> <-. destruct (Hsucc r eq_refl) as (_ & r0 & Hr0 & _).
        discriminate.
      + exact (IH _ _ _ _ _ H).
      + discriminate. }
    intros attempt vars log r log' H. now apply Hnever in H.
Qed.

(** Once the context is done at the sleep after attempt [a], there is no
    round trip after the [a]-th. *)
Lemma iteration_cancelled (a : Z) (e : string) vars log vars' :
  (forall delay, ctx_Done env a delay = Some e) ->
  fst (provider.iteration env req cfg rc ruc attempts a vars log)
  <> provider.StepContinue vars'.
Proof.
  intros Hdone. unfold provider.iteration, provider.sleep.
  destruct (provider.ExecuteRequest env req cfg log) as [[[result|result err]|msg] log'];
    simpl; try discriminate.
  - destruct ruc.
    + destruct (provider.EvaluateRetryUntil env _ result) as [satisfied unsatisfied].
      destruct (negb satisfied && _)%bool; simpl.
      * rewrite Hdone. discriminate.
      * destruct satisfied; discriminate.
    + destruct (_ && _)%bool; simpl; [rewrite Hdone|]; discriminate.
  - destruct (attempts <=? _); simpl; [|rewrite Hdone]; discriminate.
Qed.

Lemma retry_loop_cancelled (a : Z) (e : string) n : forall attempt vars log,
  (forall delay, ctx_Done env a delay = Some e) ->
  attempt <= a ->
  exists k, Z.of_nat k <= a - attempt + 1
            /\ snd (provider.retry_loop env req cfg rc ruc attempts n attempt vars log)
               = (log ++ repeat req k)%list.
Proof.
  induction n as [|n IH]; intros attempt vars log Hdone Hle; simpl.
  - exists 0%nat. split; [lia | now rewrite app_nil_r].
  - pose proof (iteration_log attempt vars log) as Hlog.
    pose proof (iteration_cancelled a e vars log) as Hstop.
    destruct (provider.iteration env req cfg rc ruc attempts attempt vars log)
      as [st log1] eqn:Hit. simpl in Hlog.
    assert (Hone : exists j, (j <= 1)%nat /\ log1 = (log ++ repeat req j)%list).
    { subst log1.
      destruct (client.NewHTTPClient env (provider.ToConfigProviderConfig cfg))
        as [[]|e'] eqn:Hc.
      - exists 1%nat. split; [lia |]. now apply ExecuteRequest_sends.
      - exists 0%nat. split; [lia |].
        rewrite (ExecuteRequest_no_client log e' Hc). simpl. now rewrite app_nil_r. }
    destruct Hone as (j & Hj & ->).
    destruct st as [o|vars'|msg]; simpl; try (exists j; split; [lia | reflexivity]).
    destruct (Z.eq_dec attempt a) as [->|Hne].
    + exfalso. apply (Hstop vars' Hdone). now rewrite Hit.
    + destruct (IH (attempt + 1) vars' (log ++ repeat req j)%list Hdone) as (k & Hk & ->);
        [lia |].
      exists (j + k)%nat. split; [lia |].
      now rewrite repeat_app, List.app_assoc.
Qed.

End wire_log.

(** X1: [ExecuteRequestWithRetry] hands the same request to the HTTP
    client over and over, and never more often than the number of attempts
    in force: one when neither a retry policy nor a poll condition is
    given, otherwise the policy's [Attempts] (60 under the default polling
    policy), counted as one when it is zero or negative.  Cancellation
    stops it earlier: if the context is done at the sleep that follows
    attempt [a], there are no more than [a] round trips. *)
Theorem ExecuteRequestWithRetry_sends_at_most_attempts :
  forall (env : Env) (req : http.Request) (cfg : config.ProviderConfig)
         (retryConfig : option RetryConfig.t) (retryUntilConfig : option RetryUntilConfig.t)
         (log : list http.Request),
    let attempts :=
      match retryConfig, retryUntilConfig with
      | None, None => 1
      | _, _ =>
          Z.max 1 (RetryConfig.Attempts (default provider.default_poll_retry retryConfig))
      end in
    exists k : nat,
      snd (provider.ExecuteRequestWithRetry env req cfg retryConfig retryUntilConfig log)
      = (log ++ repeat req k)%list
      /\ Z.of_nat k <= attempts
      /\ (forall (a : Z) (e : string),
            1 <= a -> (forall delay, ctx_Done env a delay = Some e) -> Z.of_nat k <= a).
Proof.
  intros env req cfg retryConfig retryUntilConfig log attempts.
  assert (Hsame : forall (l : list http.Request) (k k' : nat),
             (l ++ repeat req k)%list = (l ++ repeat req k')%list -> k = k').
  { intros l k k' H. apply (f_equal (@length _)) in H.
    rewrite !length_app, !repeat_length in H. lia. }
  assert (Hloop : forall rc,
    exists k : nat,
      snd (let attempts := if RetryConfig.Attempts rc <=? 0 then 1
                           else RetryConfig.Attempts rc in
           match provider.retry_loop env req cfg rc retryUntilConfig attempts
                   (Z.to_nat attempts) 1
                   {| provider.lastErr := None; provider.lastResult := None;
                      provider.retryAfter := "" |} log with
           | (inl r, log') => (r, log')
           | (inr vars, log') =>
               (Return (provider.exhausted env retryUntilConfig attempts vars), log')
           end) = (log ++ repeat req k)%list
      /\ Z.of_nat k <= Z.max 1 (RetryConfig.Attempts rc)
      /\ (forall (a : Z) (e : string),
            1 <= a -> (forall delay, ctx_Done env a delay = Some e) -> Z.of_nat k <= a)).
  { intros rc. cbv zeta.
    set (n := if RetryConfig.Attempts rc <=? 0 then 1 else RetryConfig.Attempts rc).
    assert (Hn : n = Z.max 1 (RetryConfig.Attempts rc))
      by (subst n; destruct (Z.leb_spec (RetryConfig.Attempts rc) 0); lia).
    pose (vars0 := {| provider.lastErr := None; provider.lastResult := None;
                      provider.retryAfter := "" |}).
    destruct (retry_loop_log env req cfg rc retryUntilConfig n (Z.to_nat n) 1 vars0 log)
      as (k & Hk & Hlog).
    assert (Hsnd : forall x : (ret outcome + provider.loop_vars) * list http.Request,
               snd (match x with
                    | (inl r, log') => (r, log')
                    | (inr vars, log') =>
                        (Return (provider.exhausted env retryUntilConfig n vars), log')
                    end) = snd x) by (intros [[r|vars] log']; reflexivity).
    exists k. rewrite Hsnd. split; [exact Hlog |]. split; [lia |].
    intros a e Ha Hdone.
    destruct (retry_loop_cancelled env req cfg rc retryUntilConfig n a e (Z.to_nat n) 1
                vars0 log Hdone Ha) as (k' & Hk' & Hlog').
    fold vars0 in Hlog. rewrite Hlog in Hlog'. apply Hsame in Hlog'. lia. }
  unfold provider.ExecuteRequestWithRetry.
  destruct retryConfig as [rc|], retryUntilConfig as [ruc|]; try apply Hloop.
  subst attempts.
  destruct (client.NewHTTPClient env (provider.ToConfigProviderConfig cfg)) as [[]|e] eqn:Hc.
  - exists 1%nat. split; [now apply ExecuteRequest_sends |]. split; [lia |].
    intros a e Ha _. lia.
  - exists 0%nat. rewrite (ExecuteRequest_no_client env req cfg log e Hc). cbn [snd repeat].
    split; [now rewrite app_nil_r |]. split; [lia |]. intros a e' Ha _. lia.
Qed.

(** A success of [ExecuteRequestWithRetry]: its attempt count, the round
    trips made, and its error text. *)
Lemma ExecuteRequestWithRetry_on_success :
  forall (env : Env) (req : http.Request) (cfg : config.ProviderConfig)
         (retryConfig : option RetryConfig.t) (retryUntilConfig : option RetryUntilConfig.t)
         (log log' : list http.Request) (r : ResponseResult.t),
    provider.ExecuteRequestWithRetry env req cfg retryConfig retryUntilConfig log
    = (Return (Success r), log') ->
    1 <= ResponseResult.AttemptCount r
    /\ log' = (log ++ repeat req (Z.to_nat (ResponseResult.AttemptCount r)))%list
    /\ ResponseResult.Error r = "".
Proof.
  intros env req cfg retryConfig retryUntilConfig log log' r.
  assert (Hloop : forall rc,
    (let attempts := if RetryConfig.Attempts rc <=? 0 then 1
                     else RetryConfig.Attempts rc in
     match provider.retry_loop env req cfg rc retryUntilConfig attempts
             (Z.to_nat attempts) 1
             {| provider.lastErr := None; provider.lastResult := None;
                provider.retryAfter := "" |} log with
     | (inl r, log') => (r, log')
     | (inr vars, log') =>
         (Return (provider.exhausted env retryUntilConfig attempts vars), log')
     end) = (Return (Success r), log') ->
    1 <= ResponseResult.AttemptCount r
    /\ log' = (log ++ repeat req (Z.to_nat (ResponseResult.AttemptCount r)))%list
    /\ ResponseResult.Error r = "").
  { intros rc. cbv zeta.
    set (n := if RetryConfig.Attempts rc <=? 0 then 1 else RetryConfig.Attempts rc).
    destruct (provider.retry_loop _ _ _ _ _ _ _ _ _ _) as [[x|vars] log1] eqn:Hrun.
    - intros H. injection H as -> ->.
      apply retry_loop_success in Hrun as (k & Hk & -> & Hcount & Herr).
      rewrite Hcount. split; [lia |]. split; [|exact Herr]. f_equal. f_equal. lia.
    - intros H. injection H as H _. unfold provider.exhausted in H.
      destruct (provider.lastResult vars); [destruct retryUntilConfig; discriminate |].
      destruct (provider.lastErr vars); discriminate. }
  unfold provider.ExecuteRequestWithRetry.
  destruct retryConfig as [rc|], retryUntilConfig as [ruc|]; try apply Hloop.
  intros H. apply ExecuteRequest_success in H as (_ & -> & -> & Herr).
  split; [lia |]. split; [reflexivity | exact Herr].
Qed.

(** X2: when [ExecuteRequestWithRetry] returns a success, the attempt
    count of the result is the number of round trips this call made, all
    of them with the same request, and it is at least one. *)
Theorem ExecuteRequestWithRetry_success_counts_requests :
  forall (env : Env) (req : http.Request) (cfg : config.ProviderConfig)
         (retryConfig : option RetryConfig.t) (retryUntilConfig : option RetryUntilConfig.t)
         (log log' : list http.Request) (r : ResponseResult.t),
    provider.ExecuteRequestWithRetry env req cfg retryConfig retryUntilConfig log
    = (Return (Success r), log') ->
    1 <= ResponseResult.AttemptCount r
    /\ log' = (log ++ repeat req (Z.to_nat (ResponseResult.AttemptCount r)))%list.
Proof.
  intros env req cfg retryConfig retryUntilConfig log log' r H.
  apply ExecuteRequestWithRetry_on_success in H as (Hn & Hlog & _). now split.
Qed.

Lemma ExecuteRequestWithRetry_success_counts_requests_witness :
  let env := sample.env (fun n => match n with
                                  | O => sample.respond 503 "busy"
                                  | _ => sample.respond 200 "done"
                                  end) in
  let req := sample.get "https://example.test/job" in
  let r := {| ResponseResult.StatusCode := 200;
              ResponseResult.Headers := ∅;
              ResponseResult.Body := "done";
              ResponseResult.AttemptCount := 2;
              ResponseResult.Error := "" |} in
  1 <= ResponseResult.AttemptCount r
  /\ [req; req] = ([] ++ repeat req (Z.to_nat (ResponseResult.AttemptCount r)))%list.
Proof.
  intros env req r.
  apply (ExecuteRequestWithRetry_success_counts_requests
           env req (sample.cfg 1048576) (Some (sample.retry 3 "fixed" [503])) None).
  vm_compute. reflexivity.
Defined.

(** ** Poll conditions and status codes in the loop *)

Section poll_overrides_codes.

Variables (env : Env) (req : http.Request) (cfg : config.ProviderConfig).
Variables (a mn mx : Z) (b : string) (j r : bool) (codes1 codes2 : list Z).
Variable ruc : RetryUntilConfig.t.

Let rc1 := RetryConfig.mk a mn mx b j codes1 r.
Let rc2 := RetryConfig.mk a mn mx b j codes2 r.

Lemma iteration_ignores_codes attempts attempt vars log :
  provider.iteration env req cfg rc1 (Some ruc) attempts attempt vars log
  = provider.iteration env req cfg rc2 (Some ruc) attempts attempt vars log.
Proof. reflexivity. Qed.

Lemma retry_loop_ignores_codes attempts n : forall attempt vars log,
  provider.retry_loop env req cfg rc1 (Some ruc) attempts n attempt vars log
  = provider.retry_loop env req cfg rc2 (Some ruc) attempts n attempt vars log.
Proof.
  induction n as [|n IH]; intros attempt vars log; [reflexivity |].
  cbn [provider.retry_loop]. rewrite iteration_ignores_codes.
  destruct (provider.iteration env req cfg rc2 (Some ruc) attempts attempt vars log)
    as [[o|vars'|msg] log']; try reflexivity.
  apply IH.
Qed.

End poll_overrides_codes.

(** X3: with a poll condition in force the status codes of the retry
    policy play no part: two policies that differ in
    [retry_on_status_codes] only give the same run — same result, same
    requests. *)
Theorem ExecuteRequestWithRetry_poll_ignores_status_codes :
  forall (env : Env) (req : http.Request) (cfg : config.ProviderConfig)
         (attempts minDelayMs maxDelayMs : Z) (backoff : string)
         (jitter respectRetryAfter : bool) (codes1 codes2 : list Z)
         (ruc : RetryUntilConfig.t) (log : list http.Request),
    provider.ExecuteRequestWithRetry env req cfg
      (Some (RetryConfig.mk attempts minDelayMs maxDelayMs backoff jitter codes1
                            respectRetryAfter))
      (Some ruc) log
    = provider.ExecuteRequestWithRetry env req cfg
        (Some (RetryConfig.mk attempts minDelayMs maxDelayMs backoff jitter codes2
                              respectRetryAfter))
        (Some ruc) log.
Proof.
  intros. unfold provider.ExecuteRequestWithRetry. cbn [default RetryConfig.Attempts].
  now rewrite (retry_loop_ignores_codes env req cfg attempts minDelayMs maxDelayMs backoff
                 jitter respectRetryAfter codes1 codes2 ruc).
Qed.

(** ** A peer that never gives the awaited answer *)

Section every_attempt.

Variables (env : Env) (req : http.Request) (cfg : config.ProviderConfig).
Variables (rc : RetryConfig.t) (ruc : option RetryUntilConfig.t) (attempts : Z).
Variable resp : nat -> http.Response.

(** What [ExecuteRequest] makes of the [n]-th response. *)
Let result_of (n : nat) : ResponseResult.t :=
  {| ResponseResult.StatusCode := http.StatusCode (resp n);
     ResponseResult.Headers := (fun v => Go.Join v ", ") <$> http.RespHeader (resp n);
     ResponseResult.Body :=
       Go.take (Z.to_nat (config.MaxResponseBodyBytes cfg)) (http.RespBody (resp n));
     ResponseResult.AttemptCount := 1;
     ResponseResult.Error := "" |}.

Hypothesis client_ok :
  client.NewHTTPClient env (provider.ToConfigProviderConfig cfg) = Ok tt.
Hypothesis ctx_alive : forall attempt delay, ctx_Done env attempt delay = None.
Hypothesis responses : forall n, http_Do env req n = http.DoResponse (resp n).
Hypothesis clean : forall n, http.RespReadError (resp n) = None.
Hypothesis cap : 0 <= config.MaxResponseBodyBytes cfg.
Hypothesis unhappy :
  forall n,
    match ruc with
    | Some _ => fst (provider.EvaluateRetryUntil env ruc (result_of n)) = false
    | None => provider.ShouldRetry rc None (http.StatusCode (resp n)) = true
    end.

Lemma retry_loop_every_attempt n : forall attempt vars log,
  (0 < n)%nat -> attempt + Z.of_nat n = attempts + 1 ->
  provider.retry_loop env req cfg rc ruc attempts n attempt vars log
  = (inl (Return (Success (ResponseResult.set_AttemptCount
                             (result_of (length log + n - 1)) attempts))),
     (log ++ repeat req n)%list).
Proof.
  induction n as [|n IH]; intros attempt vars log Hn Hlast; [lia |].
  cbn [provider.retry_loop]. unfold provider.iteration.
  rewrite (ExecuteRequest_on_response env req cfg log (resp (length log)) client_ok
             (responses _) (clean _) cap).
  fold (result_of (length log)).
  pose proof (unhappy (length log)) as Hun.
  unfold provider.sleep. rewrite !ctx_alive.
  destruct n as [|n].
  - replace attempt with attempts by lia. rewrite Z.ltb_irrefl, !andb_false_r.
    replace (length log + 1 - 1)%nat with (length log) by lia.
    destruct ruc.
    + destruct (provider.EvaluateRetryUntil env _ _) as [satisfied unsatisfied].
      simpl in Hun. subst satisfied. reflexivity.
    + reflexivity.
  - assert (Hlt : (attempt <? attempts) = true) by (apply Z.ltb_lt; lia).
    rewrite Hlt, !andb_true_r.
    assert (Hnext :
      forall vars',
        provider.retry_loop env req cfg rc ruc attempts (S n) (attempt + 1) vars'
                            (log ++ [req])%list
        = (inl (Return (Success (ResponseResult.set_AttemptCount
                                   (result_of (length log + S (S n) - 1)) attempts))),
           (log ++ repeat req (S (S n)))%list)).
    { intros vars'. rewrite IH by lia. rewrite length_app. cbn [length].
      replace (length log + 1 + S n - 1)%nat with (length log + S (S n) - 1)%nat by lia.
      rewrite <- List.app_assoc. reflexivity. }
    destruct ruc.
    + destruct (provider.EvaluateRetryUntil env _ _) as [satisfied unsatisfied].
      simpl in Hun. subst satisfied. cbn [negb]. apply Hnext.
    + change (ResponseResult.StatusCode (result_of (length log)))
        with (http.StatusCode (resp (length log))).
      rewrite Hun. apply Hnext.
Qed.

End every_attempt.



(** ** Delays *)

(** X5: while the arithmetic stays within [int64] (attempts 1 to 63, a
    base delay that fits) and no [Retry-After] value is in play, the delay
    is the base delay of the strategy — [min * 2^(n-1)], [min * n] or
    [min] — capped at [max_delay_ms] plus the jitter drawn for it, in
    nanoseconds; so it lies between zero and 1.25 times the cap. *)
Theorem CalculateDelay_is_capped_backoff_plus_jitter :
  forall (env : Env) (rc : RetryConfig.t) (n : Z) (header : string),
    let base :=
      if String.eqb (RetryConfig.Backoff rc) "exponential"
      then RetryConfig.MinDelayMs rc * 2 ^ (n - 1)
      else if String.eqb (RetryConfig.Backoff rc) "linear"
      then RetryConfig.MinDelayMs rc * n
      else RetryConfig.MinDelayMs rc in
    let capped := Z.min base (RetryConfig.MaxDelayMs rc) in
    RetryConfig.RespectRetryAfter rc = false \/ header = "" ->
    1 <= n <= 63 ->
    0 <= RetryConfig.MinDelayMs rc ->
    base <= Go.maxInt64 ->
    0 <= RetryConfig.MaxDelayMs rc ->
    RetryConfig.MaxDelayMs rc * 1250000 <= Go.maxInt64 ->
    (RetryConfig.Jitter rc = true -> 0 <= rand_jitterMs env capped <= capped / 4) ->
    provider.CalculateDelay env rc n header
    = (capped + (if RetryConfig.Jitter rc then rand_jitterMs env capped else 0)) * 1000000
    /\ 0 <= provider.CalculateDelay env rc n header <= RetryConfig.MaxDelayMs rc * 1250000.
Proof.
  intros env rc n header base capped Hhdr Hn Hmin Hbase Hmax Hcap Hjit.
  rewrite (CalculateDelay_in_range env rc n header Hhdr Hn Hmin Hbase Hmax Hcap Hjit).
  split; [reflexivity |]. fold base. fold capped.
  assert (Hbase0 : 0 <= base).
  { subst base. repeat destruct (String.eqb _ _); try lia;
      try (apply Z.mul_nonneg_nonneg; [lia | apply Z.pow_nonneg; lia]). }
  assert (Hc : 0 <= capped <= RetryConfig.MaxDelayMs rc) by (subst capped; lia).
  destruct (RetryConfig.Jitter rc).
  - specialize (Hjit eq_refl).
    assert (capped / 4 <= RetryConfig.MaxDelayMs rc / 4) by (apply Z.div_le_mono; lia).
    assert (4 * (RetryConfig.MaxDelayMs rc / 4) <= RetryConfig.MaxDelayMs rc)
      by (apply Z.mul_div_le; lia).
    lia.
  - lia.
Qed.

Lemma CalculateDelay_is_capped_backoff_plus_jitter_witness :
  provider.CalculateDelay sample.quiet (RetryConfig.mk 5 250 5000 "exponential" true [503] true)
                          3 ""
  = (Z.min (250 * 2 ^ (3 - 1)) 5000 + 0) * 1000000
  /\ 0 <= provider.CalculateDelay sample.quiet
            (RetryConfig.mk 5 250 5000 "exponential" true [503] true) 3 ""
     <= 5000 * 1250000.
Proof.
  apply (CalculateDelay_is_capped_backoff_plus_jitter
           sample.quiet (RetryConfig.mk 5 250 5000 "exponential" true [503] true) 3 "").
  - now right.
  - lia.
  - simpl. lia.
  - vm_compute. discriminate.
  - simpl. lia.
  - vm_compute. discriminate.
  - intros _. vm_compute. split; discriminate.
Defined.

(** X6: without jitter, and within the same range, the delay never
    shrinks from one attempt to the next. *)
Theorem CalculateDelay_is_monotone :
  forall (env : Env) (rc : RetryConfig.t) (n : Z),
    RetryConfig.Jitter rc = false ->
    1 <= n <= 62 ->
    0 <= RetryConfig.MinDelayMs rc ->
    RetryConfig.MinDelayMs rc * 2 ^ n <= Go.maxInt64 ->
    0 <= RetryConfig.MaxDelayMs rc ->
    RetryConfig.MaxDelayMs rc * 1250000 <= Go.maxInt64 ->
    provider.CalculateDelay env rc n "" <= provider.CalculateDelay env rc (n + 1) "".
Proof.
  intros env rc n Hj Hn Hmin Hbase Hmax Hcap.
  assert (Hpow : 2 ^ (n - 1) <= 2 ^ n) by (apply Z.pow_le_mono_r; lia).
  assert (Hpos : 0 < 2 ^ (n - 1)) by (apply Z.pow_pos_nonneg; lia).
  assert (Hn1 : n <= 2 ^ n).
  { pose proof (Z.pow_gt_lin_r 2 n). lia. }
  assert (Hn2 : n + 1 <= 2 ^ n).
  { destruct (Z.eq_dec n 1) as [->|]; [simpl; lia |].
    replace n with (Z.succ (n - 1)) at 2 by lia. rewrite Z.pow_succ_r by lia.
    pose proof (Z.pow_gt_lin_r 2 (n - 1)). lia. }
  rewrite (CalculateDelay_in_range env rc n "") ; try (now right); try lia.
  - rewrite (CalculateDelay_in_range env rc (n + 1) ""); try (now right); try lia.
    + rewrite Hj. replace (n + 1 - 1) with n by lia.
      repeat destruct (String.eqb _ _); nia.
    + replace (n + 1 - 1) with n by lia.
      repeat destruct (String.eqb _ _); nia.
    + rewrite Hj. discriminate.
  - repeat destruct (String.eqb _ _); nia.
  - rewrite Hj. discriminate.
Qed.

Lemma CalculateDelay_is_monotone_witness :
  provider.CalculateDelay sample.quiet (sample.retry 5 "linear" [503]) 2 ""
  <= provider.CalculateDelay sample.quiet (sample.retry 5 "linear" [503]) (2 + 1) "".
Proof.
  apply (CalculateDelay_is_monotone sample.quiet (sample.retry 5 "linear" [503]) 2).
  - reflexivity.
  - lia.
  - simpl. lia.
  - vm_compute. discriminate.
  - simpl. lia.
  - vm_compute. discriminate.
Defined.

Lemma fmt_d_nonempty (z : Z) : Go.fmt_d z <> "".
Proof.
  destruct z as [|p|p]; [discriminate | | discriminate].
  pose proof (DecimalPos.Unsigned.to_uint_nonnil p) as Hnil.
  unfold Go.fmt_d. cbn [Z.to_int NilEmpty.string_of_int].
  destruct (Pos.to_uint p); [congruence | ..]; discriminate.
Qed.

(** X7: a [Retry-After] header that holds a number of seconds in decimal
    is honoured to the letter: the delay is that many seconds whatever the
    strategy, the bounds and the jitter of the policy — a negative number
    gives a negative delay. *)
Theorem CalculateDelay_honours_retry_after_seconds :
  forall (env : Env) (rc : RetryConfig.t) (n seconds : Z),
    RetryConfig.RespectRetryAfter rc = true ->
    - 9223372036 <= seconds <= 9223372036 ->
    provider.CalculateDelay env rc n (Go.fmt_d seconds) = seconds * 1000000000.
Proof.
  intros env rc n seconds Hr Hs.
  rewrite (CalculateDelay_retry_after_seconds env rc n (Go.fmt_d seconds) seconds Hr
             (fmt_d_nonempty seconds)).
  - apply wrap64_small. unfold Go.minInt64, Go.maxInt64. lia.
  - rewrite TrimSpace_fmt_d. apply ParseInt_fmt_d. unfold Go.minInt64, Go.maxInt64. lia.
Qed.

Lemma CalculateDelay_honours_retry_after_seconds_witness :
  provider.CalculateDelay sample.quiet (RetryConfig.mk 3 100 200 "fixed" true [429] true)
                          1 (Go.fmt_d 120)
  = 120 * 1000000000.
Proof.
  apply (CalculateDelay_honours_retry_after_seconds
           sample.quiet (RetryConfig.mk 3 100 200 "fixed" true [429] true) 1 120).
  - reflexivity.
  - lia.
Defined.

(** X8: a [Retry-After] header that holds a date which is not in the
    future is ignored: the delay is the one computed without any header. *)
Theorem CalculateDelay_ignores_past_retry_after_date :
  forall (env : Env) (rc : RetryConfig.t) (n t : Z) (header : string),
    Go.ParseInt (Go.TrimSpace header) = None ->
    time_Parse env 0%nat (Go.TrimSpace header) = Some t ->
    t <= time_Now env n ->
    provider.CalculateDelay env rc n header = provider.CalculateDelay env rc n "".
Proof.
  intros env rc n t header Hint Hdate Hpast. unfold provider.CalculateDelay.
  rewrite (parseRetryAfter_past_date env (time_Now env n) t header Hint Hdate Hpast).
  cbn [String.eqb negb]. rewrite andb_false_r.
  now destruct (RetryConfig.RespectRetryAfter rc && _)%bool.
Qed.

Lemma CalculateDelay_ignores_past_retry_after_date_witness :
  provider.CalculateDelay (sample.clock 1000 900) (RetryConfig.mk 3 100 200 "fixed" false [503] true) 1
                          "Wed, 21 Oct 2015 07:28:00 GMT"
  = provider.CalculateDelay (sample.clock 1000 900) (RetryConfig.mk 3 100 200 "fixed" false [503] true) 1 "".
Proof.
  apply (CalculateDelay_ignores_past_retry_after_date
           (sample.clock 1000 900) (RetryConfig.mk 3 100 200 "fixed" false [503] true) 1 900
           "Wed, 21 Oct 2015 07:28:00 GMT").
  - reflexivity.
  - reflexivity.
  - simpl. lia.
Defined.

(** ** Validators *)

Lemma existsb_Zeqb_In (x : Z) (l : list Z) : existsb (Z.eqb x) l = true <-> In x l.
Proof.
  rewrite existsb_exists. split.
  - intros (y & Hin & Heq). apply Z.eqb_eq in Heq. now subst.
  - intros Hin. exists x. split; [assumption | apply Z.eqb_refl].
Qed.

Lemma header_named_spec (headers : gmap string string) (name : string) :
  provider.header_named headers name = true
  <-> exists k v, headers !! k = Some v /\ Go.EqualFold k name = true.
Proof.
  unfold provider.header_named. rewrite existsb_exists. split.
  - intros ([k v] & Hin & Heq). exists k, v. split; [|assumption].
    apply elem_of_map_to_list. now apply list_elem_of_In.
  - intros (k & v & Hk & Heq). exists (k, v). split; [|assumption].
    apply list_elem_of_In. now apply elem_of_map_to_list.
Qed.

Lemma missing_headers_nil (headers : gmap string string) (names : list string) :
  flat_map (fun headerName =>
              if provider.header_named headers headerName then []
              else ["required header '" +:+ headerName +:+ "' not present"]) names = []
  <-> forall name, In name names -> provider.header_named headers name = true.
Proof.
  induction names as [|n ns IH]; cbn [flat_map In].
  - split; [intros _ name [] | reflexivity].
  - destruct (provider.header_named headers n) eqn:Hn; cbn [app].
    + rewrite IH. split.
      * intros H name [<- | Hin]; auto.
      * intros H name Hin. apply H. now right.
    + split; [discriminate |]. intros H. specialize (H n (or_introl eq_refl)). congruence.
Qed.

(** X9: an expectation passes exactly when the status is one of
    [status_codes], if that list is given, and every name of
    [header_present], if given, is the name of a response header up to
    letter case.  Nothing else is looked at. *)
Theorem ValidateExpectations_passes_iff :
  forall (result : ResponseResult.t) (expect : ExpectModel.t),
    provider.ValidateExpectations result (Some expect) = None
    <-> (forall codes, ExpectModel.StatusCodes expect = tf.Known codes ->
           In (ResponseResult.StatusCode result) (map tf.ValueInt64 codes))
        /\ (forall names name,
              ExpectModel.HeaderPresent expect = tf.Known names ->
              In name (map tf.ValueString names) ->
              exists k v, ResponseResult.Headers result !! k = Some v
                          /\ Go.EqualFold k name = true).
Proof.
  intros result [codes paths equals present]. unfold provider.ValidateExpectations.
  cbn [ExpectModel.StatusCodes ExpectModel.HeaderPresent].
  set (status_errors := if negb (tf.IsNull codes) && negb (tf.IsUnknown codes) then _ else _).
  set (header_errors := if negb (tf.IsNull present) && negb (tf.IsUnknown present)
                        then _ else _).
  assert (Hs : status_errors = []
               <-> forall cs, codes = tf.Known cs ->
                     In (ResponseResult.StatusCode result) (map tf.ValueInt64 cs)).
  { subst status_errors. destruct codes as [| |cs]; cbn.
    - split; [discriminate | reflexivity].
    - split; [discriminate | reflexivity].
    - destruct (existsb _ _) eqn:Hex.
      + apply existsb_Zeqb_In in Hex. split; [|reflexivity].
        intros _ cs' H. now injection H as <-.
      + split; [discriminate |]. intros H.
        specialize (H cs eq_refl). apply existsb_Zeqb_In in H. congruence. }
  assert (Hh : header_errors = []
               <-> forall names name, present = tf.Known names ->
                     In name (map tf.ValueString names) ->
                     exists k v, ResponseResult.Headers result !! k = Some v
                                 /\ Go.EqualFold k name = true).
  { subst header_errors. destruct present as [| |names];
      cbn [tf.IsNull tf.IsUnknown negb andb provider.ConvertTerraformList].
    - split; [discriminate | reflexivity].
    - split; [discriminate | reflexivity].
    - rewrite missing_headers_nil. split.
      + intros H names' name Heq Hin. injection Heq as <-.
        apply header_named_spec. now apply H.
      + intros H name Hin. apply header_named_spec. now apply (H names). }
  rewrite <- Hs, <- Hh.
  destruct status_errors as [|e es]; cbn [app].
  - destruct header_errors; split; try discriminate; auto.
    intros [_ H]. discriminate.
  - split; [discriminate |]. intros [H _]. discriminate.
Qed.

Lemma checkHeaderConditions_spec (headers : gmap string string)
      (conditions : list (string * string)) :
  provider.checkHeaderConditions headers conditions = true
  <-> forall name value, In (name, value) conditions ->
        exists k, headers !! k = Some value /\ Go.EqualFold k name = true.
Proof.
  unfold provider.checkHeaderConditions. rewrite forallb_forall. split.
  - intros H name value Hin. specialize (H _ Hin). cbn [fst snd] in H.
    apply existsb_exists in H as ([k v] & Hkv & Heq). cbn [fst snd] in Heq.
    apply andb_prop in Heq as [Hfold Hval]. apply String.eqb_eq in Hval. subst v.
    exists k. split; [|assumption].
    apply elem_of_map_to_list. now apply list_elem_of_In.
  - intros H [name value] Hin. destruct (H _ _ Hin) as (k & Hk & Hfold).
    apply existsb_exists. exists (k, value). split.
    + apply list_elem_of_In. now apply elem_of_map_to_list.
    + cbn [fst snd]. now rewrite Hfold, String.eqb_refl.
Qed.


(** ** Redaction and truncation *)

(** The third case of the package's own test: every spelling of a listed
    name is masked. *)
Example RedactHeaders_case_insensitive :
  utils.RedactHeaders {[ "authorization" := "Bearer secret-token";
                         "AUTHORIZATION" := "Bearer secret-token";
                         "Content-Type" := "application/json" ]} ["Authorization"]
  = {[ "authorization" := "[REDACTED]"; "AUTHORIZATION" := "[REDACTED]";
       "Content-Type" := "application/json" ]}.
Proof. vm_compute. reflexivity. Qed.

Lemma redactMap_lookup (redactList : list string) (x : string) :
  forall m : gmap string bool,
    default false (fold_left (fun m h => <[Go.ToLower h := true]> m) redactList m !! x)
    = existsb (fun h => String.eqb (Go.ToLower h) x) redactList || default false (m !! x).
Proof.
  induction redactList as [|h l IH]; intros m; cbn [fold_left existsb]; [reflexivity |].
  rewrite IH. destruct (String.eqb_spec (Go.ToLower h) x) as [->|Hne].
  - rewrite lookup_insert_eq. cbn. now rewrite orb_true_r.
  - rewrite lookup_insert_ne by assumption. reflexivity.
Qed.


(** X12: the redaction of error messages looks for a listed name without
    regard to letter case but replaces it in its exact spelling only; a
    message in which no listed name occurs exactly as written comes back
    unchanged, also when it spells the name in another case. *)
Theorem RedactError_needs_exact_spelling :
  forall (errMsg : string) (redactList : list string),
    Forall (fun pattern => pattern <> "" /\ Go.Contains errMsg pattern = false) redactList ->
    utils.RedactError errMsg redactList = errMsg.
Proof.
  intros errMsg redactList. unfold utils.RedactError.
  induction 1 as [|pattern l [Hne Habs] _ IH]; cbn [fold_left]; [reflexivity |].
  rewrite (ReplaceAll_absent errMsg pattern "[REDACTED]" Hne Habs).
  destruct (Go.Contains (Go.ToLower errMsg) (Go.ToLower pattern)); exact IH.
Qed.

Lemma RedactError_needs_exact_spelling_witness :
  utils.RedactError "proxy said: authorization: Bearer secret-token"
                    ["Authorization"; "Proxy-Authorization"; "X-Api-Key"]
  = "proxy said: authorization: Bearer secret-token".
Proof.
  apply (RedactError_needs_exact_spelling
           "proxy said: authorization: Bearer secret-token"
           ["Authorization"; "Proxy-Authorization"; "X-Api-Key"]).
  repeat constructor; discriminate.
Defined.

(** X13: with a bound that is not negative [TruncateString] never
    panics; what it returns starts with the first [maxLen] bytes of the
    string, is the string itself when that is short enough, and is never
    longer than the bound plus the fifteen bytes of the marker.  With a
    negative bound it panics on every string. *)
Theorem TruncateString_is_bounded :
  forall (s : string) (maxLen : Z),
    (0 <= maxLen ->
     exists r, utils.TruncateString s maxLen = Some r
               /\ Go.take (Z.to_nat maxLen) r = Go.take (Z.to_nat maxLen) s
               /\ (Go.len s <= maxLen -> r = s)
               /\ Go.len r <= maxLen + 15)
    /\ (maxLen < 0 -> utils.TruncateString s maxLen = None).
Proof.
  intros s maxLen. unfold utils.TruncateString, Go.len. split.
  - intros Hmax. destruct (Z.leb_spec (Z.of_nat (String.length s)) maxLen) as [Hle|Hgt].
    + exists s. repeat split; [lia].
    + destruct (Z.ltb_spec maxLen 0); [lia |].
      eexists. split; [reflexivity |]. split; [|split; [lia |]].
      * assert (Hlen : String.length (Go.take (Z.to_nat maxLen) s) = Z.to_nat maxLen)
          by (rewrite length_take; lia).
        revert Hlen. generalize (Go.take (Z.to_nat maxLen) s) as t.
        generalize (Z.to_nat maxLen) as n. clear.
        induction n as [|n IH]; intros [|c t]; cbn; intros H; try lia; try reflexivity.
        f_equal. apply IH. lia.
      * rewrite string_length_app, length_take. cbn. lia.
  - intros Hneg. destruct (Z.leb_spec (Z.of_nat (String.length s)) maxLen); [lia |].
    destruct (Z.ltb_spec maxLen 0); [reflexivity | lia].
Qed.

Lemma TruncateString_is_bounded_witness :
  exists r, utils.TruncateString "this is a very long string" 10 = Some r
            /\ Go.take (Z.to_nat 10) r = Go.take (Z.to_nat 10) "this is a very long string"
            /\ (Go.len "this is a very long string" <= 10 -> r = "this is a very long string")
            /\ Go.len r <= 10 + 15.
Proof.
  apply (proj1 (TruncateString_is_bounded "this is a very long string" 10)). lia.
Defined.

(** X14: with a provider that is configured, one attempt panics in
    exactly one situation: the client could be built, the peer answered,
    and the cap on the response body is negative.  With a cap of zero or
    more there is no panic, whatever the transport does. *)
Theorem ExecuteRequest_panics_iff_negative_cap :
  forall (env : Env) (req : http.Request) (cfg : config.ProviderConfig)
         (log : list http.Request),
    (exists msg, fst (provider.ExecuteRequest env req cfg log) = Panic msg)
    <-> client.NewHTTPClient env (provider.ToConfigProviderConfig cfg) = Ok tt
        /\ (exists resp, http_Do env req (length log) = http.DoResponse resp)
        /\ config.MaxResponseBodyBytes cfg < 0.
Proof.
  intros env req cfg log. unfold provider.ExecuteRequest.
  change (config.MaxResponseBodyBytes (provider.ToConfigProviderConfig cfg))
    with (config.MaxResponseBodyBytes cfg).
  destruct (client.NewHTTPClient env _) as [[]|e].
  2: { cbn. split; [intros [msg H]; discriminate | intros [H _]; discriminate]. }
  destruct (http_Do env req (length log)) as [e|resp].
  { cbn. split; [intros [msg H]; discriminate | intros (_ & [resp H] & _); discriminate]. }
  set (maxBytes := config.MaxResponseBodyBytes cfg).
  unfold client.LimitReader, Go.ReadAll, utils.TruncateString, Go.len.
  destruct (Z.leb_spec maxBytes 0) as [Hle|Hgt].
  - cbn [fst snd String.length]. change (Z.of_nat 0) with 0.
    destruct (Z.leb_spec maxBytes 0) as [_|Hx]; [|lia].
    destruct (Z.leb_spec 0 maxBytes) as [Hy|Hy].
    + cbn. split; [intros [msg Hm]; discriminate | intros (_ & _ & Hm); lia].
    + destruct (Z.ltb_spec maxBytes 0) as [_|Hz]; [|lia].
      cbn. split; [intros _; repeat split; eauto | eauto].
  - split; [|intros (_ & _ & Hm); lia]. intros [msg Hm]. exfalso. revert Hm.
    destruct (Z.leb_spec maxBytes (Z.of_nat (String.length (fst (http.Body resp)))))
      as [Hlong|Hshort].
    + cbn [fst snd]. rewrite length_take.
      destruct (Z.leb_spec maxBytes
                  (Z.of_nat (Nat.min (Z.to_nat maxBytes)
                                     (String.length (fst (http.Body resp))))))
        as [_|Hx]; [|lia].
      destruct (Z.leb_spec
                  (Z.of_nat (Nat.min (Z.to_nat maxBytes)
                                     (String.length (fst (http.Body resp)))))
                  maxBytes) as [_|Hx]; [discriminate | lia].
    + destruct (http.Body resp) as [bodyBytes [e|]]; cbn [fst snd] in *; [discriminate |].
      destruct (Z.leb_spec maxBytes (Z.of_nat (String.length bodyBytes))) as [Hx|_];
        [lia | discriminate].
Qed.

(** ** Template expansion *)

Section plain_text.

Implicit Types s pre post rest : string.

Lemma match_outputs_not_dollar c s :
  provider.not_dollar c = true -> provider.match_outputs (String c s) = None.
Proof.
  unfold provider.not_dollar. intros Hc.
  unfold provider.match_outputs, provider.outputs_open. cbn [Go.strip_prefix].
  destruct (Ascii.eqb_spec "$" c) as [<-|_]; [discriminate | reflexivity].
Qed.

(** Up to the first dollar sign the scan copies byte by byte. *)
Lemma scan_plain_app pre rest :
  http.all_bytes provider.not_dollar pre = true ->
  Go.scan provider.match_outputs (pre +:+ rest)
  = (map Go.Lit (list_ascii_of_string pre) ++ Go.scan provider.match_outputs rest)%list.
Proof.
  induction pre as [|c pre IH]; cbn [http.all_bytes]; intros H; [reflexivity |].
  apply andb_prop in H as [Hc Hpre].
  change (String c pre +:+ rest) with (String c (pre +:+ rest)).
  rewrite (scan_step _ match_outputs_consuming), (match_outputs_not_dollar _ _ Hc).
  cbn [list_ascii_of_string map app]. now rewrite (IH Hpre).
Qed.

Lemma scan_plain s :
  http.all_bytes provider.not_dollar s = true ->
  Go.scan provider.match_outputs s = map Go.Lit (list_ascii_of_string s).
Proof.
  intros H. rewrite <- (string_app_nil_r s) at 1.
  rewrite (scan_plain_app s "" H). apply app_nil_r.
Qed.

Lemma render_app {A : Type} (f : A -> string) (ts us : list (Go.token A)) :
  Go.render f (ts ++ us) = Go.render f ts +:+ Go.render f us.
Proof.
  induction ts as [|[c|a] ts IH]; cbn [app Go.render]; [reflexivity | |].
  - now rewrite IH.
  - now rewrite IH, string_app_assoc.
Qed.

Lemma list_ascii_of_string_app s rest :
  list_ascii_of_string (s +:+ rest)
  = (list_ascii_of_string s ++ list_ascii_of_string rest)%list.
Proof. induction s as [|c s IH]; cbn; [reflexivity | now rewrite IH]. Qed.

Lemma render_lits {A : Type} (f : A -> string) s :
  Go.render f (map Go.Lit (list_ascii_of_string s)) = s.
Proof. induction s as [|c s IH]; cbn; [reflexivity | now rewrite IH]. Qed.

Lemma last_missing_lits outputs (l : list ascii) (lastErr : option string) :
  fold_left (provider.record_missing outputs) (map Go.Lit l) lastErr = lastErr.
Proof. revert lastErr. induction l as [|c l IH]; intros lastErr; cbn; auto. Qed.

Lemma Contains_absent_byte (c : ascii) s (t : string) :
  http.all_bytes (fun x => negb (Ascii.eqb x c)) s = true ->
  Go.Contains s (String c t) = false.
Proof.
  induction s as [|x s IH]; cbn [http.all_bytes Go.Contains]; intros H; [reflexivity |].
  apply andb_prop in H as [Hx Hs]. rewrite (IH Hs), orb_false_r.
  cbn [String.prefix].
  destruct (ascii_dec c x) as [<-|Hne]; [|reflexivity].
  rewrite Ascii.eqb_refl in Hx. discriminate.
Qed.

Lemma Index_after_absent_byte (c : ascii) pre (t rest : string) :
  http.all_bytes (fun x => negb (Ascii.eqb x c)) pre = true ->
  Go.Index (pre +:+ String c t +:+ rest) (String c t) = Go.len pre.
Proof.
  induction pre as [|x pre IH]; cbn [http.all_bytes]; intros H.
  - change ("" +:+ String c t +:+ rest) with (String c t +:+ rest).
    destruct (String c t +:+ rest) eqn:Heq; [discriminate |].
    rewrite <- Heq. unfold Go.Index. rewrite Heq. fold Go.Index. rewrite <- Heq.
    now rewrite prefix_app.
  - apply andb_prop in H as [Hx Hpre].
    change (String x pre +:+ String c t +:+ rest)
      with (String x (pre +:+ String c t +:+ rest)).
    rewrite Index_cons, (IH Hpre).
    cbn [String.prefix].
    destruct (ascii_dec c x) as [<-|Hne]; [rewrite Ascii.eqb_refl in Hx; discriminate |].
    unfold Go.len. cbn [String.length].
    destruct (Z.ltb_spec (Z.of_nat (String.length pre)) 0); lia.
Qed.

Lemma Index_absent_byte (c : ascii) s :
  http.all_bytes (fun x => negb (Ascii.eqb x c)) s = true ->
  Go.Index s (String c "") = -1.
Proof.
  induction s as [|x s IH]; cbn [http.all_bytes]; intros H; [reflexivity |].
  apply andb_prop in H as [Hx Hs]. rewrite Index_cons, (IH Hs).
  cbn [String.prefix].
  destruct (ascii_dec c x) as [<-|Hne]; [rewrite Ascii.eqb_refl in Hx; discriminate |].
  reflexivity.
Qed.

Lemma Contains_plain s (t : string) :
  http.all_bytes provider.not_dollar s = true -> Go.Contains s (String "$" t) = false.
Proof. apply Contains_absent_byte. Qed.

Lemma Index_after_plain pre (t rest : string) :
  http.all_bytes provider.not_dollar pre = true ->
  Go.Index (pre +:+ String "$" t +:+ rest) (String "$" t) = Go.len pre.
Proof. apply Index_after_absent_byte. Qed.

End plain_text.

(** X15: a text without a dollar sign goes through the interpolation
    unchanged, as a string and as a framework value; null and unknown
    values are handed back as they are. *)
Theorem InterpolateString_keeps_plain_text :
  forall (text : string) (interpolCtx : option InterpolationContext.t),
    http.all_bytes provider.not_dollar text = true ->
    provider.InterpolateString text interpolCtx = Ok text
    /\ provider.InterpolateStringValue (tf.Known text) interpolCtx = (tf.Known text, None)
    /\ provider.InterpolateStringValue tf.Null interpolCtx = (tf.Null, None)
    /\ provider.InterpolateStringValue tf.Unknown interpolCtx = (tf.Unknown, None).
Proof.
  intros text interpolCtx Hplain.
  assert (H : provider.InterpolateString text interpolCtx = Ok text).
  { unfold provider.InterpolateString. destruct interpolCtx as [ctx|]; [|reflexivity].
    destruct (String.eqb text ""); [reflexivity |].
    rewrite (scan_plain text Hplain), render_lits.
    unfold provider.last_missing. rewrite last_missing_lits.
    rewrite ReplaceAll_absent; [reflexivity | discriminate | now apply Contains_plain]. }
  split; [exact H |]. split; [|split; reflexivity].
  unfold provider.InterpolateStringValue. cbn [tf.IsNull tf.IsUnknown orb tf.ValueString].
  now rewrite H.
Qed.

Lemma InterpolateString_keeps_plain_text_witness :
  provider.InterpolateString "https://api.test/users?page=2"
    (Some (InterpolationContext.mk "abc123" ∅ "" 200))
  = Ok "https://api.test/users?page=2"
  /\ provider.InterpolateStringValue (tf.Known "https://api.test/users?page=2")
       (Some (InterpolationContext.mk "abc123" ∅ "" 200))
     = (tf.Known "https://api.test/users?page=2", None)
  /\ provider.InterpolateStringValue tf.Null
       (Some (InterpolationContext.mk "abc123" ∅ "" 200)) = (tf.Null, None)
  /\ provider.InterpolateStringValue tf.Unknown
       (Some (InterpolationContext.mk "abc123" ∅ "" 200)) = (tf.Unknown, None).
Proof.
  apply (InterpolateString_keeps_plain_text "https://api.test/users?page=2"
           (Some (InterpolationContext.mk "abc123" ∅ "" 200))).
  reflexivity.
Defined.

(** X16: the interpolation of a string fails exactly when the string
    contains [${self.outputs.KEY}] for a key, made of letters, digits and
    underscores, that the outputs do not hold. *)
Theorem InterpolateString_fails_iff_key_missing :
  forall (ctx : InterpolationContext.t) (text : string),
    (exists e, provider.InterpolateString text (Some ctx) = Err e)
    <-> exists key, provider.valid_key key
                    /\ provider.occurs (provider.template key) text
                    /\ InterpolationContext.Outputs ctx !! key = None.
Proof.
  intros ctx text. split.
  - intros [e He]. apply InterpolateString_error in He as (key & _ & Hnone & Hv & Hocc).
    now exists key.
  - intros (key & Hv & Hocc & Hnone). now apply (InterpolateString_missing ctx text key).
Qed.

(** X17: a string with one reference to an output, in a text that has no
    other dollar sign, is expanded to the text with the value of the
    output in place of the reference. *)
Theorem InterpolateString_expands_output :
  forall (ctx : InterpolationContext.t) (pre key post val : string),
    provider.valid_key key ->
    http.all_bytes provider.not_dollar pre = true ->
    http.all_bytes provider.not_dollar post = true ->
    http.all_bytes provider.not_dollar val = true ->
    InterpolationContext.Outputs ctx !! key = Some val ->
    provider.InterpolateString (pre +:+ provider.template key +:+ post) (Some ctx)
    = Ok (pre +:+ val +:+ post).
Proof.
  intros ctx pre key post val Hkey Hpre Hpost Hval Hout.
  unfold provider.InterpolateString.
  assert (String.eqb (pre +:+ provider.template key +:+ post) "" = false) as ->.
  { apply String.eqb_neq. destruct pre; discriminate. }
  rewrite (scan_plain_app pre _ Hpre).
  rewrite template_app, (scan_step _ match_outputs_consuming), <- template_app.
  rewrite (match_outputs_complete _ _ Hkey), (scan_plain post Hpost).
  unfold provider.last_missing. rewrite fold_left_app, last_missing_lits.
  cbn [fold_left provider.record_missing]. rewrite Hout, last_missing_lits.
  rewrite render_app, render_lits. cbn [Go.render]. rewrite render_lits.
  unfold provider.expand. rewrite Hout.
  rewrite ReplaceAll_absent; [reflexivity | discriminate |].
  apply Contains_plain. now rewrite !all_bytes_app, Hpre, Hval, Hpost.
Qed.

Lemma InterpolateString_expands_output_witness :
  provider.InterpolateString ("https://api.test/users/" +:+ provider.template "user_id" +:+ "/keys")
    (Some (InterpolationContext.mk "abc123" {[ "user_id" := "u42" ]} "" 201))
  = Ok ("https://api.test/users/" +:+ "u42" +:+ "/keys").
Proof.
  apply (InterpolateString_expands_output
           (InterpolationContext.mk "abc123" {[ "user_id" := "u42" ]} "" 201)
           "https://api.test/users/" "user_id" "/keys" "u42").
  - split; [discriminate | reflexivity].
  - reflexivity.
  - reflexivity.
  - reflexivity.
  - reflexivity.
Defined.

(** X18: [${self.id}] in a text that has no other dollar sign is
    replaced with the ID of the resource. *)
Theorem InterpolateString_expands_id :
  forall (ctx : InterpolationContext.t) (pre post : string),
    http.all_bytes provider.not_dollar pre = true ->
    http.all_bytes provider.not_dollar post = true ->
    provider.InterpolateString (pre +:+ "${self.id}" +:+ post) (Some ctx)
    = Ok (pre +:+ InterpolationContext.ID ctx +:+ post).
Proof.
  intros ctx pre post Hpre Hpost. unfold provider.InterpolateString.
  assert (String.eqb (pre +:+ "${self.id}" +:+ post) "" = false) as ->.
  { apply String.eqb_neq. destruct pre; discriminate. }
  assert (Hscan : Go.scan provider.match_outputs (pre +:+ "${self.id}" +:+ post)
                  = map Go.Lit (list_ascii_of_string (pre +:+ "${self.id}" +:+ post))).
  { rewrite (scan_plain_app pre _ Hpre).
    change ("${self.id}" +:+ post) with (String "$" ("{self.id}" +:+ post)).
    rewrite (scan_step _ match_outputs_consuming).
    change (provider.match_outputs (String "$" ("{self.id}" +:+ post))) with
      (@None (string * string)).
    rewrite (scan_plain ("{self.id}" +:+ post))
      by (now rewrite all_bytes_app, Hpost).
    rewrite !list_ascii_of_string_app, !map_app.
    change (list_ascii_of_string (String "$" ("{self.id}" +:+ post)))
      with ("$"%char :: list_ascii_of_string ("{self.id}" +:+ post)).
    cbn [map]. now rewrite ?list_ascii_of_string_app, ?map_app. }
  rewrite Hscan, render_lits. unfold provider.last_missing. rewrite last_missing_lits.
  rewrite (ReplaceAll_single pre "${self.id}" post); [reflexivity | discriminate | |].
  - now apply Index_after_plain.
  - now apply Contains_plain.
Qed.

Lemma InterpolateString_expands_id_witness :
  provider.InterpolateString ("https://api.test/items/" +:+ "${self.id}" +:+ "")
    (Some (InterpolationContext.mk "abc123" ∅ "" 201))
  = Ok ("https://api.test/items/" +:+ "abc123" +:+ "").
Proof.
  apply (InterpolateString_expands_id (InterpolationContext.mk "abc123" ∅ "" 201)
           "https://api.test/items/" "").
  - reflexivity.
  - reflexivity.
Defined.

(** X19: [InterpolateMap] keeps the keys and expands every value: on
    success the result has the entries of the map, in the same order,
    each with its value interpolated. *)
Theorem InterpolateMap_expands_every_value :
  forall (m m' : list (string * string)) (ctx : InterpolationContext.t),
    provider.InterpolateMap (Some m) (Some ctx) = Ok (Some m') ->
    Forall2 (fun kv kv' =>
               fst kv' = fst kv
               /\ provider.InterpolateString (snd kv) (Some ctx) = Ok (snd kv'))
            m m'.
Proof.
  intros m m' ctx. unfold provider.InterpolateMap.
  assert (Hent : forall l l',
             provider.interpolate_entries l (Some ctx) = Ok l' ->
             Forall2 (fun kv kv' =>
                        fst kv' = fst kv
                        /\ provider.InterpolateString (snd kv) (Some ctx) = Ok (snd kv'))
                     l l').
  { induction l as [|[k v] l IH]; cbn [provider.interpolate_entries]; intros l' H.
    - injection H as <-. constructor.
    - destruct (provider.InterpolateString v (Some ctx)) as [expanded|e] eqn:Hv;
        [|discriminate].
      destruct (provider.interpolate_entries l (Some ctx)) as [rest|e]; [|discriminate].
      injection H as <-. constructor; [now split | now apply IH]. }
  destruct m as [|kv m].
  - intros H. injection H as <-. constructor.
  - destruct (provider.interpolate_entries (kv :: m) (Some ctx)) as [result|e] eqn:Hrun;
      [|discriminate].
    intros H. injection H as <-. now apply Hent.
Qed.

Lemma InterpolateMap_expands_every_value_witness :
  Forall2 (fun kv kv' =>
             fst kv' = fst kv
             /\ provider.InterpolateString
                  (snd kv) (Some (InterpolationContext.mk "abc123" {[ "t" := "s3" ]} "" 201))
                = Ok (snd kv'))
          [("X-Token", "${self.outputs.t}"); ("X-Id", "${self.id}")]
          [("X-Token", "s3"); ("X-Id", "abc123")].
Proof.
  apply (InterpolateMap_expands_every_value
           [("X-Token", "${self.outputs.t}"); ("X-Id", "${self.id}")]
           [("X-Token", "s3"); ("X-Id", "abc123")]
           (InterpolationContext.mk "abc123" {[ "t" := "s3" ]} "" 201)).
  vm_compute. reflexivity.
Defined.

Lemma fold_insert_lookup_fresh (elements : list (string * tf.value string)) :
  forall (m : gmap string string) (key : string),
    ~ In key (map fst elements) ->
    fold_left (fun outputs kv => <[fst kv := tf.ValueString (snd kv)]> outputs) elements m
      !! key = m !! key.
Proof.
  induction elements as [|[k0 v0] elements IH]; cbn [map fold_left In fst snd];
    intros m key Hfresh; [reflexivity |].
  rewrite IH by tauto. apply lookup_insert_ne. tauto.
Qed.

Lemma fold_insert_lookup_In (elements : list (string * tf.value string)) :
  forall (m : gmap string string) (key : string) (v : tf.value string),
    List.NoDup (map fst elements) -> In (key, v) elements ->
    fold_left (fun outputs kv => <[fst kv := tf.ValueString (snd kv)]> outputs) elements m
      !! key = Some (tf.ValueString v).
Proof.
  induction elements as [|[k0 v0] elements IH]; cbn [map fold_left In fst snd];
    intros m key v Hnd Hin; [contradiction |].
  apply List.NoDup_cons_iff in Hnd as [Hfresh Hnd].
  destruct Hin as [Heq | Hin].
  - injection Heq as -> ->. rewrite fold_insert_lookup_fresh by assumption.
    apply lookup_insert_eq.
  - now apply IH.
Qed.

(** X20: the interpolation context built from a state carries the ID of
    the state and, for every entry of its [outputs], the value stored
    under the key. *)
Theorem BuildInterpolationContextFromState_reads_state :
  forall (state : HttpxRequestResourceModel.t) (elements : list (string * tf.value string))
         (ctx : InterpolationContext.t),
    HttpxRequestResourceModel.Outputs state = tf.Known elements ->
    List.NoDup (map fst elements) ->
    provider.BuildInterpolationContextFromState state = Ok ctx ->
    InterpolationContext.ID ctx = tf.ValueString (HttpxRequestResourceModel.Id state)
    /\ (forall key v, In (key, v) elements ->
          InterpolationContext.Outputs ctx !! key = Some (tf.ValueString v))
    /\ (forall key, ~ In key (map fst elements) ->
          InterpolationContext.Outputs ctx !! key = None).
Proof.
  unfold provider.BuildInterpolationContextFromState. intros state elements ctx -> Hnd H.
  injection H as <-. cbn [InterpolationContext.ID InterpolationContext.Outputs].
  split; [reflexivity |]. split.
  - intros key v Hin. now apply fold_insert_lookup_In.
  - intros key Hout. apply fold_insert_lookup_None. now rewrite lookup_empty.
Qed.

Lemma BuildInterpolationContextFromState_reads_state_witness :
  InterpolationContext.ID (InterpolationContext.mk "abc123" {[ "user_id" := "u42" ]} "" 201)
  = tf.ValueString (HttpxRequestResourceModel.Id
                      (sample.state "abc123" [("user_id", tf.Known "u42")] None))
  /\ (forall key v, In (key, v) [("user_id", tf.Known "u42")] ->
        InterpolationContext.Outputs
          (InterpolationContext.mk "abc123" {[ "user_id" := "u42" ]} "" 201) !! key
        = Some (tf.ValueString v))
  /\ (forall key, ~ In key (map fst [("user_id", tf.Known "u42")]) ->
        InterpolationContext.Outputs
          (InterpolationContext.mk "abc123" {[ "user_id" := "u42" ]} "" 201) !! key = None).
Proof.
  apply (BuildInterpolationContextFromState_reads_state
           (sample.state "abc123" [("user_id", tf.Known "u42")] None)
           [("user_id", tf.Known "u42")]
           (InterpolationContext.mk "abc123" {[ "user_id" := "u42" ]} "" 201)).
  - reflexivity.
  - repeat constructor. intros [].
  - vm_compute. reflexivity.
Defined.

(** ** JSON paths *)

(** The cases of the package's own test of the evaluator, and what the
    scanner makes of an index. *)
Example evaluateJsonPath_cases :
  let ready : json.value Z := json.JObject {[ "status" := json.JString "ready" ]} in
  let items : json.value Z :=
    json.JObject {[ "items" := json.JArray [json.JObject {[ "id" := json.JString "123" ]}] ]} in
  provider.evaluateJsonPath ready "status" = Return (Ok (json.JString "ready"))
  /\ provider.evaluateJsonPath (json.JObject {[ "data" := ready ]}) "data.status"
     = Return (Ok (json.JString "ready"))
  /\ provider.evaluateJsonPath items "items[0].id" = Return (Ok (json.JString "123"))
  /\ provider.evaluateJsonPath ready "missing"
     = Return (Err "key 'missing' not found at path 'missing'")
  /\ provider.evaluateJsonPath ready "status[invalid]"
     = Return (Err "expected array at path ''")
  /\ provider.evaluateJsonPath items "items[x]" = Return (Err "invalid array index 'x'")
  /\ provider.evaluateJsonPath items "items[0}.id" = Return (Ok (json.JString "123")).
Proof. repeat split; vm_compute; reflexivity. Qed.

Example Sscanf_d_cases :
  Go.Sscanf_d " 12abc" = Some 12 /\ Go.Sscanf_d "-3" = Some (-3)
  /\ Go.Sscanf_d "" = None /\ Go.Sscanf_d "+" = None
  /\ Go.Sscanf_d "9223372036854775808" = None
  /\ Go.Split "a.b..c" "." = ["a"; "b"; ""; "c"] /\ Go.Split "" "." = [""].
Proof. repeat split; reflexivity. Qed.

Section json_paths.

Context {F : Type}.

Implicit Types (data current v : json.value F) (parts todo : list string).

Lemma Split_nonempty (s : string) (sep : ascii) : Go.Split s sep <> [].
Proof.
  induction s as [|c s IH]; cbn [Go.Split]; [discriminate |].
  destruct (Ascii.eqb c sep); [discriminate |]. now destruct (Go.Split s sep).
Qed.

Lemma Split_app (p q : string) (sep : ascii) :
  Go.Split (p +:+ String sep q) sep = (Go.Split p sep ++ Go.Split q sep)%list.
Proof.
  induction p as [|c p IH].
  - cbn. now rewrite Ascii.eqb_refl.
  - change (String c p +:+ String sep q) with (String c (p +:+ String sep q)).
    cbn [Go.Split]. rewrite IH. destruct (Ascii.eqb c sep); [reflexivity |].
    pose proof (Split_nonempty p sep). now destruct (Go.Split p sep).
Qed.

Lemma Split_plain (s : string) (sep : ascii) :
  http.all_bytes (fun x => negb (Ascii.eqb x sep)) s = true -> Go.Split s sep = [s].
Proof.
  induction s as [|c s IH]; cbn [http.all_bytes Go.Split]; intros H; [reflexivity |].
  apply andb_prop in H as [Hc Hs]. rewrite (IH Hs).
  now destruct (Ascii.eqb c sep).
Qed.

(** The text of an error aside, a segment does not depend on where it
    stands. *)
Lemma segment_found parts parts' i i' part current :
  provider.found (provider.segment parts i part current)
  = provider.found (provider.segment parts' i' part current).
Proof.
  unfold provider.segment.
  destruct (negb (Go.Index part "[" =? -1)).
  - destruct (_ <? _); [reflexivity |].
    destruct (negb (String.eqb _ "")).
    + destruct current as [| | | | |m]; try reflexivity.
      destruct (m !! _) as [[| | | |arr|]|]; reflexivity.
    + destruct current as [| | | |arr|]; reflexivity.
  - destruct current as [| | | | |m]; try reflexivity. now destruct (m !! part).
Qed.

Lemma segment_next parts parts' i i' part current next :
  provider.segment parts i part current = Return (Ok next) ->
  provider.segment parts' i' part current = Return (Ok next).
Proof.
  intros H. pose proof (segment_found parts parts' i i' part current) as Hf.
  rewrite H in Hf. cbn in Hf.
  destruct (provider.segment parts' i' part current) as [[w|e]|msg]; cbn in Hf;
    congruence.
Qed.

Lemma walk_found parts parts' todo : forall i i' current,
  provider.found (provider.walk parts i todo current)
  = provider.found (provider.walk parts' i' todo current).
Proof.
  induction todo as [|part todo IH]; intros i i' current; [reflexivity |].
  cbn [provider.walk].
  pose proof (segment_found parts parts' i i' part current) as Hf.
  destruct (provider.segment parts i part current) as [[next|e]|msg] eqn:Hs.
  - rewrite (segment_next parts parts' i i' part current next Hs). apply IH.
  - destruct (provider.segment parts' i' part current) as [[w|e']|msg]; cbn in Hf;
      try discriminate. reflexivity.
  - destruct (provider.segment parts' i' part current) as [[w|e']|msg']; cbn in Hf;
      try discriminate. exact Hf.
Qed.

(** Within a prefix of the segments the rest of the path is not seen. *)
Lemma segment_prefix (A B : list string) i part current :
  (i < length A)%nat ->
  provider.segment (A ++ B) i part current = provider.segment A i part current.
Proof.
  intros Hi. unfold provider.segment.
  now rewrite !firstn_app, (proj2 (Nat.sub_0_le i (length A))),
    (proj2 (Nat.sub_0_le (S i) (length A))), !firstn_O, !app_nil_r by lia.
Qed.

Lemma walk_prefix (A B : list string) todo : forall i current,
  (i + length todo <= length A)%nat ->
  provider.walk (A ++ B) i todo current = provider.walk A i todo current.
Proof.
  induction todo as [|part todo IH]; intros i current Hi; [reflexivity |].
  cbn [provider.walk length] in *. rewrite segment_prefix by lia.
  destruct (provider.segment A i part current) as [[next|e]|msg]; try reflexivity.
  apply IH. lia.
Qed.

Lemma walk_app parts (t1 t2 : list string) : forall i current,
  provider.walk parts i (t1 ++ t2) current
  = match provider.walk parts i t1 current with
    | Return (Ok v) => provider.walk parts (i + length t1) t2 v
    | stop => stop
    end.
Proof.
  induction t1 as [|part t1 IH]; intros i current; cbn [app provider.walk length].
  - now rewrite Nat.add_0_r.
  - destruct (provider.segment parts i part current) as [[next|e]|msg]; try reflexivity.
    rewrite IH. now replace (S i + length t1)%nat with (i + S (length t1))%nat by lia.
Qed.

Lemma evaluateJsonPath_walk data (path : string) :
  path <> "" ->
  provider.evaluateJsonPath data path
  = provider.walk (Go.Split path ".") 0 (Go.Split path ".") data.
Proof.
  intros H. unfold provider.evaluateJsonPath.
  now destruct (String.eqb_spec path "").
Qed.

End json_paths.

(** X21: paths compose.  Evaluating [p.q] is evaluating [p] and then [q]
    on what [p] leads to, as far as the value found is concerned; when [p]
    itself fails or panics, so does [p.q], in the same way. *)
Theorem evaluateJsonPath_composes :
  forall (F : Type) (data : json.value F) (p q : string),
    p <> "" -> q <> "" ->
    match provider.evaluateJsonPath data p with
    | Return (Ok v) =>
        provider.found (provider.evaluateJsonPath data (p +:+ "." +:+ q))
        = provider.found (provider.evaluateJsonPath v q)
    | stop => provider.evaluateJsonPath data (p +:+ "." +:+ q) = stop
    end.
Proof.
  intros F data p q Hp Hq.
  assert (Hpq : p +:+ "." +:+ q <> "") by (destruct p; discriminate).
  rewrite (evaluateJsonPath_walk data _ Hpq), (evaluateJsonPath_walk data p Hp).
  change ("." +:+ q) with (String "." q). rewrite Split_app, walk_app.
  rewrite (walk_prefix (Go.Split p ".") (Go.Split q ".")) by (cbn; lia).
  destruct (provider.walk (Go.Split p ".") 0 (Go.Split p ".") data) as [[v|e]|msg];
    try reflexivity.
  rewrite (evaluateJsonPath_walk v q Hq). apply walk_found.
Qed.

Lemma evaluateJsonPath_composes_witness :
  let data : json.value Z :=
    json.JObject {[ "data" := json.JObject {[ "status" := json.JString "ready" ]} ]} in
  provider.found (provider.evaluateJsonPath data ("data" +:+ "." +:+ "status"))
  = provider.found (provider.evaluateJsonPath
                      (json.JObject {[ "status" := json.JString "ready" ]}) "status").
Proof.
  intros data.
  exact (evaluateJsonPath_composes Z data "data" "status"
           ltac:(discriminate) ltac:(discriminate)).
Defined.

Section json_segments.

Context {F : Type}.

Lemma name_bytes_no_dot (key : string) :
  http.all_bytes provider.is_name_byte key = true ->
  http.all_bytes (fun x => negb (Ascii.eqb x ".")) key = true.
Proof.
  induction key as [|c key IH]; cbn [http.all_bytes]; intros H; [reflexivity |].
  apply andb_prop in H as [Hc Hk]. rewrite (IH Hk), andb_true_r.
  unfold provider.is_name_byte in Hc. now apply andb_prop in Hc as [-> _].
Qed.

Lemma name_bytes_no_bracket (key : string) :
  http.all_bytes provider.is_name_byte key = true ->
  http.all_bytes (fun x => negb (Ascii.eqb x "[")) key = true.
Proof.
  induction key as [|c key IH]; cbn [http.all_bytes]; intros H; [reflexivity |].
  apply andb_prop in H as [Hc Hk]. rewrite (IH Hk), andb_true_r.
  unfold provider.is_name_byte in Hc. now apply andb_prop in Hc as [_ ->].
Qed.

Lemma take_app_exact (s t : string) : Go.take (String.length s) (s +:+ t) = s.
Proof. induction s as [|c s IH]; cbn; [now destruct t | now rewrite IH]. Qed.

Lemma drop_app_exact (s t : string) : Go.drop (String.length s) (s +:+ t) = t.
Proof. induction s as [|c s IH]; cbn; [now destruct t | exact IH]. Qed.

Lemma uint_no_dot (d : Decimal.uint) :
  http.all_bytes (fun x => negb (Ascii.eqb x ".")) (NilEmpty.string_of_uint d) = true.
Proof.
  induction d as [|d IH|d IH|d IH|d IH|d IH|d IH|d IH|d IH|d IH|d IH];
    [reflexivity | ..]; cbn [NilEmpty.string_of_uint http.all_bytes]; exact IH.
Qed.

Lemma fmt_d_no_dot (z : Z) :
  http.all_bytes (fun x => negb (Ascii.eqb x ".")) (Go.fmt_d z) = true.
Proof. destruct z as [|p|p]; [reflexivity | apply uint_no_dot | apply uint_no_dot]. Qed.

End json_segments.

(** X22: a path that is a plain name (no dot, no bracket) selects the
    member of that name: on an object it yields the member or fails with
    a key-not-found error that names the key; on anything else —
    null, a string, a number, an array — it fails, naming the type it
    met.  The empty path yields the document itself. *)
Theorem evaluateJsonPath_selects_member :
  forall (F : Type) (data : json.value F) (key : string),
    key <> "" -> http.all_bytes provider.is_name_byte key = true ->
    provider.evaluateJsonPath data "" = Return (Ok data)
    /\ provider.evaluateJsonPath data key
       = match data with
         | json.JObject members =>
             match members !! key with
             | Some v => Return (Ok v)
             | None => Return (Err ("key '" +:+ key +:+ "' not found at path '"
                                    +:+ key +:+ "'"))
             end
         | _ => Return (Err ("expected object at path '', got " +:+ json.type_name data))
         end.
Proof.
  intros F data key Hne Hname. split; [reflexivity |].
  rewrite (evaluateJsonPath_walk data key Hne).
  rewrite (Split_plain key "." (name_bytes_no_dot key Hname)).
  cbn [provider.walk]. unfold provider.segment.
  rewrite (Index_absent_byte "[" key (name_bytes_no_bracket key Hname)).
  cbn [Z.eqb negb firstn Go.Join].
  destruct data as [| | | | |m]; try reflexivity.
  now destruct (m !! key).
Qed.

Lemma evaluateJsonPath_selects_member_witness :
  let data : json.value Z := json.JObject {[ "status" := json.JString "ready" ]} in
  provider.evaluateJsonPath data "" = Return (Ok data)
  /\ provider.evaluateJsonPath data "state"
     = Return (Err ("key '" +:+ "state" +:+ "' not found at path '" +:+ "state" +:+ "'")).
Proof.
  intros data.
  exact (evaluateJsonPath_selects_member Z data "state"
           ltac:(discriminate) ltac:(reflexivity)).
Defined.

(** X23: an index in brackets after the name of an array member selects
    the element at that position, counted from zero; an index that is
    negative or not below the length of the array is an out-of-bounds
    error. *)
Theorem evaluateJsonPath_selects_element :
  forall (F : Type) (members : gmap string (json.value F)) (arr : list (json.value F))
         (key : string) (i : Z),
    key <> "" -> http.all_bytes provider.is_name_byte key = true ->
    members !! key = Some (json.JArray arr) ->
    Go.minInt64 <= i <= Go.maxInt64 ->
    provider.evaluateJsonPath (json.JObject members) (key +:+ "[" +:+ Go.fmt_d i +:+ "]")
    = match (if 0 <=? i then arr !! Z.to_nat i else None) with
      | Some elem => Return (Ok elem)
      | None => Return (Err ("array index " +:+ Go.fmt_d i +:+ " out of bounds (length: "
                             +:+ Go.fmt_d (Z.of_nat (length arr)) +:+ ")"))
      end.
Proof.
  intros F members arr key i Hne Hname Hmem Hi.
  set (path := key +:+ "[" +:+ Go.fmt_d i +:+ "]").
  assert (Hpath : path <> "") by (subst path; destruct key; discriminate).
  rewrite (evaluateJsonPath_walk _ path Hpath).
  assert (Hsplit : Go.Split path "." = [path]).
  { apply Split_plain. subst path.
    now rewrite !all_bytes_app, (name_bytes_no_dot key Hname), fmt_d_no_dot. }
  rewrite Hsplit. cbn [provider.walk]. unfold provider.segment.
  assert (Hidx : Go.Index path "[" = Go.len key).
  { subst path. change ("[" +:+ Go.fmt_d i +:+ "]") with (String "[" "" +:+ Go.fmt_d i +:+ "]").
    apply (Index_after_absent_byte "[" key "" _ (name_bytes_no_bracket key Hname)). }
  rewrite Hidx.
  assert (Hlen : Go.len path = Go.len key + 1 + Go.len (Go.fmt_d i) + 1).
  { subst path. unfold Go.len. rewrite !string_length_app. cbn [String.length]. lia. }
  rewrite Hlen. unfold Go.len at 1.
  destruct (Z.eqb_spec (Z.of_nat (String.length key)) (-1)) as [Hx|_]; [lia |].
  cbn [negb].
  destruct (Z.ltb_spec (Go.len key + 1 + Go.len (Go.fmt_d i) + 1 - 1) (Go.len key + 1))
    as [Hx|_]; [unfold Go.len in Hx; lia |].
  assert (Hkey : Go.take (Z.to_nat (Go.len key)) path = key)
    by (unfold Go.len; rewrite Nat2Z.id; subst path; apply take_app_exact).
  rewrite !Hkey. destruct (String.eqb_spec key "") as [|_]; [contradiction |]. cbn [negb].
  rewrite Hmem.
  assert (Hstr : Go.slice path (Go.len key + 1) (Go.len key + 1 + Go.len (Go.fmt_d i) + 1 - 1)
                 = Go.fmt_d i).
  { unfold Go.slice, Go.len.
    replace (Z.to_nat (Z.of_nat (String.length key) + 1))
      with (String.length (key +:+ "[")) by (rewrite string_length_app; cbn; lia).
    replace (Z.to_nat (_ - _)) with (String.length (Go.fmt_d i)) by lia.
    subst path. rewrite <- (string_app_assoc key "[").
    now rewrite drop_app_exact, take_app_exact. }
  rewrite Hstr, (Sscanf_d_fmt_d i Hi).
  destruct (Z.leb_spec 0 i) as [Hpos|Hneg].
  - destruct (Z.ltb_spec i 0) as [Hx|_]; [lia |]. cbn [orb].
    destruct (Z.leb_spec (Z.of_nat (length arr)) i) as [Hout|Hin].
    + rewrite (proj2 (lookup_ge_None arr (Z.to_nat i))) by lia. reflexivity.
    + destruct (lookup_lt_is_Some_2 arr (Z.to_nat i)) as [elem Helem]; [lia |].
      now rewrite Helem.
  - destruct (Z.ltb_spec i 0) as [_|Hx]; [|lia]. reflexivity.
Qed.

Lemma evaluateJsonPath_selects_element_witness :
  provider.evaluateJsonPath
    (json.JObject {[ "items" := json.JArray [json.JString "a"; json.JNumber 7] ]})
    ("items" +:+ "[" +:+ Go.fmt_d 1 +:+ "]")
  = match (if 0 <=? 1 then [json.JString "a"; json.JNumber 7] !! Z.to_nat 1 else None) with
    | Some elem => Return (Ok elem)
    | None => Return (Err ("array index " +:+ Go.fmt_d 1 +:+ " out of bounds (length: "
                           +:+ Go.fmt_d (Z.of_nat (length [json.JString "a"; json.JNumber 7]))
                           +:+ ")"))
    end.
Proof.
  apply (evaluateJsonPath_selects_element Z
           {[ "items" := json.JArray [json.JString "a"; json.JNumber 7] ]}
           [json.JString "a"; json.JNumber 7] "items" 1).
  - discriminate.
  - reflexivity.
  - reflexivity.
  - split; vm_compute; discriminate.
Defined.



(** X25: the JSON part of a poll condition holds exactly when the body
    is not empty and decodes, and every path resolves to a value that
    prints like the expected text — like the document the expected text
    decodes to, when it is JSON itself.  The order in which the
    conditions are visited plays no part in that. *)
Theorem checkJsonPathConditions_holds_iff :
  forall (F : Type) (lib : json.codec F) (body : string)
         (conditions : list (string * string)),
    provider.checkJsonPathConditions lib body conditions = Return true
    <-> body <> ""
        /\ exists jsonData,
             json.Unmarshal lib body = Some jsonData
             /\ Forall (fun condition =>
                          exists actualValue,
                            provider.evaluateJsonPath jsonData (fst condition)
                            = Return (Ok actualValue)
                            /\ match json.Unmarshal lib (snd condition) with
                               | Some expectedParsed =>
                                   json.fmt_v lib expectedParsed
                                   = json.fmt_v lib actualValue
                               | None => json.fmt_v lib actualValue = snd condition
                               end)
                       conditions.
Proof.
  intros F lib body conditions. unfold provider.checkJsonPathConditions.
  assert (Hall : forall jsonData,
             provider.check_conditions lib jsonData conditions = Return true
             <-> Forall (fun condition =>
                           exists actualValue,
                             provider.evaluateJsonPath jsonData (fst condition)
                             = Return (Ok actualValue)
                             /\ match json.Unmarshal lib (snd condition) with
                                | Some expectedParsed =>
                                    json.fmt_v lib expectedParsed
                                    = json.fmt_v lib actualValue
                                | None => json.fmt_v lib actualValue = snd condition
                                end)
                        conditions).
  { intros jsonData. induction conditions as [|[path expectedValue] conditions IH];
      cbn [provider.check_conditions].
    - split; [constructor | reflexivity].
    - rewrite Forall_cons_iff, <- IH. cbn [fst snd].
      destruct (provider.evaluateJsonPath jsonData path) as [[actualValue|e]|msg].
      + destruct (json.Unmarshal lib expectedValue) as [expectedParsed|].
        * destruct (String.eqb_spec (json.fmt_v lib expectedParsed)
                                    (json.fmt_v lib actualValue)) as [Heq|Hne]; cbn [negb].
          -- split; [intros H; split; [eauto | exact H] | tauto].
          -- split; [discriminate |]. intros [(v & Hv & Hsame) _].
             injection Hv as <-. contradiction.
        * destruct (String.eqb_spec (json.fmt_v lib actualValue) expectedValue)
            as [Heq|Hne]; cbn [negb].
          -- split; [intros H; split; [eauto | exact H] | tauto].
          -- split; [discriminate |]. intros [(v & Hv & Hsame) _].
             injection Hv as <-. contradiction.
      + split; [discriminate |]. intros [(v & Hv & _) _]. discriminate.
      + split; [discriminate |]. intros [(v & Hv & _) _]. discriminate. }
  destruct (String.eqb_spec body "") as [->|Hne].
  - split; [discriminate | intros [H _]; contradiction].
  - destruct (json.Unmarshal lib body) as [jsonData|].
    + rewrite Hall. split.
      * intros H. split; [assumption |]. now exists jsonData.
      * intros (_ & d & Hd & H). now injection Hd as <-.
    + split; [discriminate |]. intros (_ & d & Hd & _). discriminate.
Qed.


(** ** Extraction *)

(** A value at a path, a header under another spelling, a path that does
    not resolve next to a header that is there, and a number. *)
Example ExtractValues_cases :
  provider.ExtractValues
    (sample.decoder (json.JObject {[ "id" := json.JString "u42"; "n" := json.JNumber 7 ]}))
    (ResponseResult.mk 201 {[ "X-Request-Id" := "abc123" ]} "{...}" 1 "")
    [ExtractBlockModel.mk (tf.Known "id") (tf.Known "id") tf.Null;
     ExtractBlockModel.mk (tf.Known "rid") tf.Null (tf.Known "x-request-id");
     ExtractBlockModel.mk (tf.Known "lost") (tf.Known "nope") (tf.Known "x-request-id");
     ExtractBlockModel.mk (tf.Known "n") (tf.Known "n") tf.Null;
     ExtractBlockModel.mk (tf.Known "") (tf.Known "id") tf.Null]
  = Return {[ "id" := "u42"; "rid" := "abc123"; "lost" := ""; "n" := "7" ]}.
Proof. vm_compute. reflexivity. Qed.

Section extraction.

Context {F : Type} (lib : json.codec F).
Variables (jsonData : option (json.value F)) (result : ResponseResult.t).

(** A block either leaves the outputs alone, when it has no usable name,
    or stores something under its name. *)
Lemma extract_block_cases outputs extract outputs' :
  provider.extract_block lib jsonData result outputs extract = Return outputs' ->
  (outputs' = outputs
   /\ forall name, ExtractBlockModel.Name extract = tf.Known name -> name = "")
  \/ (exists name value,
        ExtractBlockModel.Name extract = tf.Known name /\ name <> ""
        /\ outputs' = <[name := value]> outputs).
Proof.
  unfold provider.extract_block.
  destruct (ExtractBlockModel.Name extract) as [| |name]; cbn [tf.IsNull tf.IsUnknown orb].
  - intros H. injection H as <-. left. split; [reflexivity | discriminate].
  - intros H. injection H as <-. left. split; [reflexivity | discriminate].
  - cbn [tf.ValueString]. destruct (String.eqb_spec name "") as [->|Hne].
    + intros H. injection H as <-. left. split; [reflexivity |].
      intros n Hn. now injection Hn as <-.
    + intros H. right. exists name.
      destruct (if _ && _ then _ else _) as [[value|]|msg]; [| |discriminate];
        injection H as <-; eauto.
Qed.

Lemma extract_blocks_names extractBlocks : forall outputs outputs',
  provider.extract_blocks lib jsonData result extractBlocks outputs = Return outputs' ->
  forall name,
    is_Some (outputs' !! name)
    <-> is_Some (outputs !! name)
        \/ name <> "" /\ exists extract, In extract extractBlocks
                                         /\ ExtractBlockModel.Name extract = tf.Known name.
Proof.
  induction extractBlocks as [|extract extractBlocks IH]; cbn [provider.extract_blocks];
    intros outputs outputs' H name.
  - injection H as <-. split; [auto |]. intros [Hs | (_ & b & [] & _)]. exact Hs.
  - destruct (provider.extract_block lib jsonData result outputs extract)
      as [outputs1|msg] eqn:Hb; [|discriminate].
    rewrite (IH _ _ H name). clear IH H.
    apply extract_block_cases in Hb as [[-> Hskip] | (n & value & Hn & Hne & ->)].
    + split.
      * intros [Hs | (Hne & b & Hin & Hb)]; [auto |]. right. split; [assumption |].
        exists b. split; [now right | assumption].
      * intros [Hs | (Hne & b & [<- | Hin] & Hb)]; [auto | |].
        -- specialize (Hskip _ Hb). contradiction.
        -- right. eauto.
    + rewrite lookup_insert_is_Some. split.
      * intros [[<- | [_ Hs]] | (Hne' & b & Hin & Hb)].
        -- right. split; [assumption |]. exists extract. split; [now left | assumption].
        -- auto.
        -- right. split; [assumption |]. exists b. split; [now right | assumption].
      * intros [Hs | (Hne' & b & [<- | Hin] & Hb)].
        -- destruct (decide (n = name)) as [->|Hd]; [left; now left | left; right; auto].
        -- left. left. congruence.
        -- right. eauto.
Qed.

(** The last block decides what is stored under its name. *)
Lemma extract_blocks_last extractBlocks extract : forall outputs outputs',
  provider.extract_blocks lib jsonData result (extractBlocks ++ [extract]) outputs
  = Return outputs' ->
  exists outputs1,
    provider.extract_block lib jsonData result outputs1 extract = Return outputs'.
Proof.
  induction extractBlocks as [|b extractBlocks IH]; cbn [app provider.extract_blocks];
    intros outputs outputs' H.
  - exists outputs.
    destruct (provider.extract_block lib jsonData result outputs extract); congruence.
  - destruct (provider.extract_block lib jsonData result outputs b); [|discriminate].
    eauto.
Qed.

End extraction.

(** X26: the outputs of an extraction have exactly the names of the
    extract blocks: a key is present if and only if some block carries it
    as its name, the empty name aside.  A block whose path or header
    cannot be resolved still yields its key. *)
Theorem ExtractValues_keys_are_block_names :
  forall (F : Type) (lib : json.codec F) (result : ResponseResult.t)
         (extractBlocks : list ExtractBlockModel.t) (outputs : gmap string string),
    provider.ExtractValues lib result extractBlocks = Return outputs ->
    forall name,
      is_Some (outputs !! name)
      <-> name <> "" /\ exists extract, In extract extractBlocks
                                        /\ ExtractBlockModel.Name extract = tf.Known name.
Proof.
  intros F lib result extractBlocks outputs. unfold provider.ExtractValues.
  destruct extractBlocks as [|b bs].
  - intros H name. injection H as <-. rewrite lookup_empty. split.
    + intros [x Hx]. discriminate.
    + intros (_ & extract & [] & _).
  - intros H name. rewrite (extract_blocks_names lib _ result (b :: bs) ∅ outputs H name).
    rewrite lookup_empty. split; [|auto]. intros [[x Hx] | Hr]; [discriminate | exact Hr].
Qed.

Lemma ExtractValues_keys_are_block_names_witness :
  is_Some (({[ "id" := "" ]} : gmap string string) !! "id")
  <-> "id" <> ""
      /\ exists extract,
           In extract [ExtractBlockModel.mk (tf.Known "id") (tf.Known "data.id") tf.Null]
           /\ ExtractBlockModel.Name extract = tf.Known "id".
Proof.
  apply (ExtractValues_keys_are_block_names Z
           (sample.decoder (json.JString "not an object"))
           (ResponseResult.mk 200 ∅ "text" 1 "")
           [ExtractBlockModel.mk (tf.Known "id") (tf.Known "data.id") tf.Null]
           {[ "id" := "" ]}).
  vm_compute. reflexivity.
Defined.



(** ** Destroy and read, end to end *)

(** X28: with an [on_destroy] block, [Delete] reports no error — and so
    lets the resource go from the state — only after the destroy request
    was handed to the HTTP client at least once and answered: the wire log
    has grown by one or more copies of one request. *)
Theorem Delete_succeeds_only_after_a_request :
  forall (env : Env) (providerConfig : config.ProviderConfig)
         (model : HttpxRequestResourceModel.t) (d : RequestConfigModel.t)
         (log log' : list http.Request),
    HttpxRequestResourceModel.OnDestroy model = Some d ->
    provider.Delete env providerConfig model log = (Return [], log') ->
    exists (req : http.Request) (k : nat),
      (1 <= k)%nat /\ log' = (log ++ repeat req k)%list.
Proof.
  intros env providerConfig model d log log' Hd. unfold provider.Delete. rewrite Hd.
  destruct (provider.BuildInterpolationContextFromState model) as [ctx|e]; [|discriminate].
  destruct (provider.expand_destroy_config d (Some ctx)) as [diag|d']; [discriminate |].
  destruct (provider.BuildRequest env _) as [httpReq|e]; [|discriminate].
  destruct (provider.ExecuteRequestWithRetry env httpReq providerConfig _ _ log)
    as [[[r|r err]|msg] log1] eqn:Hrun; try discriminate.
  apply ExecuteRequestWithRetry_on_success in Hrun as (Hn & -> & _).
  intros H. exists httpReq, (Z.to_nat (ResponseResult.AttemptCount r)).
  split; [lia |].
  destruct (RequestConfigModel.Expect d'); [|congruence].
  destruct (provider.ValidateExpectations r _); [discriminate | congruence].
Qed.

Lemma Delete_succeeds_only_after_a_request_witness :
  exists (req : http.Request) (k : nat),
    (1 <= k)%nat
    /\ [{| http.Method := "DELETE"; http.URL := "https://api.test/users/u42";
           http.ReqHeader := ∅; http.ReqBody := None |}]
       = ([] ++ repeat req k)%list.
Proof.
  apply (Delete_succeeds_only_after_a_request
           (sample.env (fun _ => sample.respond 204 "")) (sample.cfg 1048576)
           (sample.state "abc123" [("user_id", tf.Known "u42")]
              (Some (sample.destroy "https://api.test/users/${self.outputs.user_id}"
                                    tf.Null None)))
           (sample.destroy "https://api.test/users/${self.outputs.user_id}" tf.Null None)
           []).
  - reflexivity.
  - vm_compute. reflexivity.
Defined.

(** X29: when the data source's [Read] sets a state, that state carries
    the ID computed from the configuration, an attempt count equal to the
    number of round trips that were made (at least one, all with the same
    request), and no [last_error]; the response body is stored only if
    [store_response_body] is set to true — for a data source the default
    is not to store it, with or without extract blocks. *)
Theorem DataSource_Read_sets_a_consistent_state :
  forall (F : Type) (env : Env) (lib : json.codec F)
         (providerConfig : config.ProviderConfig)
         (model st : HttpxRequestDataSourceModel.t) (log log' : list http.Request),
    provider.HttpxRequestDataSource.Read env lib providerConfig model log
    = (Return (inr st), log') ->
    exists (req : http.Request) (n : Z),
      1 <= n
      /\ log' = (log ++ repeat req (Z.to_nat n))%list
      /\ HttpxRequestDataSourceModel.LastAttemptCount st = tf.Known n
      /\ HttpxRequestDataSourceModel.Id st = tf.Known (provider.generateDataSourceID model)
      /\ HttpxRequestDataSourceModel.LastError st = tf.Null
      /\ (HttpxRequestDataSourceModel.ResponseBody st <> tf.Null ->
          HttpxRequestDataSourceModel.StoreResponseBody model = tf.Known true).
Proof.
  intros F env lib providerConfig model st log log'.
  unfold provider.HttpxRequestDataSource.Read.
  destruct (provider.BuildRequest env _) as [httpReq|e]; [|discriminate].
  destruct (provider.ExecuteRequestWithRetry env httpReq providerConfig _ _ log)
    as [[[r|r err]|msg] log1] eqn:Hrun; try discriminate.
  apply ExecuteRequestWithRetry_on_success in Hrun as (Hn & -> & Herr).
  destruct (provider.ValidateExpectations r _); [discriminate |].
  destruct (provider.ExtractValues lib r _) as [extractedOutputs|msg]; [|discriminate].
  intros H. injection H as <- <-.
  exists httpReq, (ResponseResult.AttemptCount r).
  cbn [HttpxRequestDataSourceModel.LastAttemptCount HttpxRequestDataSourceModel.Id
       HttpxRequestDataSourceModel.LastError HttpxRequestDataSourceModel.ResponseBody].
  rewrite Herr. repeat split; try assumption.
  destruct (HttpxRequestDataSourceModel.StoreResponseBody model) as [| |[|]]; cbn;
    congruence.
Qed.

Lemma DataSource_Read_sets_a_consistent_state_witness :
  match provider.HttpxRequestDataSource.Read
          (sample.env (fun _ => sample.respond 200 "{...}"))
          (sample.decoder (json.JObject {[ "id" := json.JString "u42" ]}))
          (sample.cfg 1048576)
          (sample.lookup tf.Null [ExtractBlockModel.mk (tf.Known "id") (tf.Known "id") tf.Null])
          [] with
  | (Return (inr st), log') =>
      exists (req : http.Request) (n : Z),
        1 <= n
        /\ log' = ([] ++ repeat req (Z.to_nat n))%list
        /\ HttpxRequestDataSourceModel.LastAttemptCount st = tf.Known n
        /\ HttpxRequestDataSourceModel.Id st
           = tf.Known (provider.generateDataSourceID
                         (sample.lookup tf.Null
                            [ExtractBlockModel.mk (tf.Known "id") (tf.Known "id") tf.Null]))
        /\ HttpxRequestDataSourceModel.LastError st = tf.Null
        /\ (HttpxRequestDataSourceModel.ResponseBody st <> tf.Null ->
            HttpxRequestDataSourceModel.StoreResponseBody
              (sample.lookup tf.Null
                 [ExtractBlockModel.mk (tf.Known "id") (tf.Known "id") tf.Null])
            = tf.Known true)
  | _ => False
  end.
Proof.
  destruct (provider.HttpxRequestDataSource.Read _ _ _ _ _) as [[[diag|st]|msg] log']
    eqn:Hrun.
  - vm_compute in Hrun. discriminate.
  - exact (DataSource_Read_sets_a_consistent_state _ _ _ _ _ _ _ _ Hrun).
  - vm_compute in Hrun. discriminate.
Defined.

(** ** Header merging *)

Section header_merge.

Implicit Types (key k : string) (m : gmap string (list string)) (h : http.Header).

Lemma lower_lower (c : ascii) : Go.lower (Go.lower c) = Go.lower c.
Proof. destruct c as [[] [] [] [] [] [] [] []]; reflexivity. Qed.

Lemma lower_upper (c : ascii) : Go.lower (http.upper c) = Go.lower c.
Proof. destruct c as [[] [] [] [] [] [] [] []]; reflexivity. Qed.

Lemma ToLower_idem (s : string) : Go.ToLower (Go.ToLower s) = Go.ToLower s.
Proof. induction s as [|c s IH]; cbn; [reflexivity | now rewrite lower_lower, IH]. Qed.

Lemma ToLower_canonical_go (s : string) : forall up,
  Go.ToLower (http.canonical_go up s) = Go.ToLower s.
Proof.
  induction s as [|c s IH]; intros up; cbn; [reflexivity |].
  rewrite IH. now destruct up; rewrite ?lower_upper, ?lower_lower.
Qed.

Lemma ToLower_Canonical (s : string) :
  Go.ToLower (http.CanonicalMIMEHeaderKey s) = Go.ToLower s.
Proof.
  unfold http.CanonicalMIMEHeaderKey.
  destruct (http.all_bytes _ s); [apply ToLower_canonical_go | reflexivity].
Qed.

(** On lower-case names the canonical form is one to one. *)
Lemma Canonical_inj_lower (a b : string) :
  Go.ToLower a = a -> Go.ToLower b = b ->
  http.CanonicalMIMEHeaderKey a = http.CanonicalMIMEHeaderKey b -> a = b.
Proof.
  intros Ha Hb H. apply (f_equal Go.ToLower) in H.
  rewrite !ToLower_Canonical in H. congruence.
Qed.

Lemma put_single_fold key (l : list (string * string)) : forall m,
  fold_left provider.put_single l m !! key
  = match last (provider.map_values key l) with
    | Some v => Some [v]
    | None => m !! key
    end.
Proof.
  unfold provider.map_values.
  induction l as [|[k v] l IH]; intros m; [reflexivity |].
  cbn [fold_left List.filter fst snd]. rewrite IH. unfold provider.put_single at 1.
  cbn [fst snd].
  destruct (String.eqb_spec (Go.ToLower k) key) as [->|Hne].
  - cbn [map]. rewrite last_cons, lookup_insert_eq. now destruct (last _).
  - now rewrite lookup_insert_ne.
Qed.

Lemma put_block_fold key (l : list HeaderBlockModel.t) : forall m,
  fold_left provider.put_block l m !! key
  = match provider.block_values key l with
    | [] => m !! key
    | values => Some (default [] (m !! key) ++ values)%list
    end.
Proof.
  unfold provider.block_values.
  induction l as [|hb l IH]; intros m; [reflexivity |].
  cbn [fold_left List.filter]. rewrite IH. unfold provider.put_block.
  destruct (negb (tf.IsNull (HeaderBlockModel.Name hb))
            && negb (tf.IsNull (HeaderBlockModel.Value hb)))%bool; cbn [andb];
    [|reflexivity].
  set (name := Go.ToLower (tf.ValueString (HeaderBlockModel.Name hb))).
  set (value := tf.ValueString (HeaderBlockModel.Value hb)).
  assert (Hput : forall k,
             (match m !! name with
              | Some existing => <[name := (existing ++ [value])%list]> m
              | None => <[name := [value]]> m
              end) !! k
             = if decide (name = k) then Some (default [] (m !! k) ++ [value])%list
               else m !! k).
  { intros k. destruct (decide (name = k)) as [<-|Hne].
    - destruct (m !! name); now rewrite lookup_insert_eq.
    - destruct (m !! name); now rewrite lookup_insert_ne. }
  rewrite Hput.
  destruct (String.eqb_spec name key) as [Heq|Hne].
  - destruct (decide (name = key)) as [_|]; [|contradiction]. cbn [map default].
    destruct (map _ (List.filter _ l)); [reflexivity |].
    unfold id. now rewrite <- List.app_assoc.
  - destruct (decide (name = key)) as [|_]; [contradiction | reflexivity].
Qed.

Lemma put_single_fold_lower (l : list (string * string)) : forall m,
  (forall k, is_Some (m !! k) -> Go.ToLower k = k) ->
  forall k, is_Some (fold_left provider.put_single l m !! k) -> Go.ToLower k = k.
Proof.
  induction l as [|kv l IH]; intros m Hm; [exact Hm |].
  cbn [fold_left]. apply IH. intros k. unfold provider.put_single.
  rewrite lookup_insert_is_Some. intros [<- | [_ Hk]]; [apply ToLower_idem | now apply Hm].
Qed.

Lemma put_block_fold_lower (l : list HeaderBlockModel.t) : forall m,
  (forall k, is_Some (m !! k) -> Go.ToLower k = k) ->
  forall k, is_Some (fold_left provider.put_block l m !! k) -> Go.ToLower k = k.
Proof.
  induction l as [|hb l IH]; intros m Hm; [exact Hm |].
  cbn [fold_left]. apply IH. intros k. unfold provider.put_block.
  destruct (_ && _)%bool; [|apply Hm].
  destruct (m !! Go.ToLower _); rewrite lookup_insert_is_Some;
    (intros [<- | [_ Hk]]; [apply ToLower_idem | now apply Hm]).
Qed.

Lemma merge_headers_lower config contentTypeSet k :
  is_Some (provider.merge_headers config contentTypeSet !! k) -> Go.ToLower k = k.
Proof.
  unfold provider.merge_headers.
  set (m0 := match RequestConfig.ProviderDefaults config with
             | Some defaults => fold_left provider.put_single (config.DefaultHeaders defaults) ∅
             | None => ∅
             end).
  assert (H0 : forall k, is_Some (m0 !! k) -> Go.ToLower k = k).
  { subst m0. destruct (RequestConfig.ProviderDefaults config).
    - apply put_single_fold_lower. intros k' [x Hx]. now rewrite lookup_empty in Hx.
    - intros k' [x Hx]. now rewrite lookup_empty in Hx. }
  set (m1 := match RequestConfig.Headers config with
             | Some hs => fold_left provider.put_single hs m0
             | None => m0
             end).
  assert (H1 : forall k, is_Some (m1 !! k) -> Go.ToLower k = k).
  { subst m1. destruct (RequestConfig.Headers config); [|exact H0].
    now apply put_single_fold_lower. }
  pose proof (put_block_fold_lower (RequestConfig.HeaderBlocks config) m1 H1) as H2.
  destruct contentTypeSet; [|apply H2].
  rewrite lookup_insert_is_Some. intros [<- | [_ Hk]]; [reflexivity | now apply H2].
Qed.

Lemma merge_headers_lookup config contentTypeSet key :
  key <> "content-type" ->
  default [] (provider.merge_headers config contentTypeSet !! key)
  = (match last (provider.map_values key (default [] (RequestConfig.Headers config))),
           last (provider.map_values key
                   (from_option config.DefaultHeaders []
                                (RequestConfig.ProviderDefaults config))) with
     | Some v, _ => [v]
     | None, Some v => [v]
     | None, None => []
     end ++ provider.block_values key (RequestConfig.HeaderBlocks config))%list.
Proof.
  intros Hct. unfold provider.merge_headers.
  assert (Hins : forall m : gmap string (list string),
             (if contentTypeSet then <["content-type" := ["application/json"]]> m else m)
               !! key = m !! key).
  { intros m. destruct contentTypeSet; [|reflexivity]. now rewrite lookup_insert_ne. }
  rewrite Hins, put_block_fold.
  assert (Hbase :
    default [] (match RequestConfig.Headers config with
                | Some hs =>
                    fold_left provider.put_single hs
                      (match RequestConfig.ProviderDefaults config with
                       | Some defaults =>
                           fold_left provider.put_single (config.DefaultHeaders defaults) ∅
                       | None => ∅
                       end)
                | None =>
                    match RequestConfig.ProviderDefaults config with
                    | Some defaults =>
                        fold_left provider.put_single (config.DefaultHeaders defaults) ∅
                    | None => ∅
                    end
                end !! key)
    = match last (provider.map_values key (default [] (RequestConfig.Headers config))),
            last (provider.map_values key
                    (from_option config.DefaultHeaders []
                                 (RequestConfig.ProviderDefaults config))) with
      | Some v, _ => [v]
      | None, Some v => [v]
      | None, None => []
      end).
  { assert (Hdef :
      match RequestConfig.ProviderDefaults config with
      | Some defaults => fold_left provider.put_single (config.DefaultHeaders defaults) ∅
      | None => ∅
      end !! key
      = match last (provider.map_values key
                      (from_option config.DefaultHeaders []
                                   (RequestConfig.ProviderDefaults config))) with
        | Some v => Some [v]
        | None => None
        end).
    { destruct (RequestConfig.ProviderDefaults config) as [defaults|]; cbn [from_option].
      - now rewrite put_single_fold, lookup_empty.
      - now rewrite lookup_empty. }
    destruct (RequestConfig.Headers config) as [hs|]; cbn [default from_option id].
    - rewrite put_single_fold, Hdef.
      destruct (last (provider.map_values key hs)); [reflexivity |].
      now destruct (last _).
    - rewrite Hdef. cbn. now destruct (last _). }
  destruct (provider.block_values key (RequestConfig.HeaderBlocks config)) as [|v vs].
  - rewrite app_nil_r. exact Hbase.
  - cbn [default from_option id]. now rewrite Hbase.
Qed.

Lemma Header_Add_fold k (values : list string) : forall h k',
  fold_left (fun h v => http.Header_Add h k v) values h !! k'
  = if decide (http.CanonicalMIMEHeaderKey k = k')
    then match values with
         | [] => h !! k'
         | _ => Some (default [] (h !! k') ++ values)%list
         end
    else h !! k'.
Proof.
  induction values as [|v values IH]; intros h k'; cbn [fold_left].
  - now destruct (decide _).
  - rewrite IH. unfold http.Header_Add.
    destruct (decide (http.CanonicalMIMEHeaderKey k = k')) as [<-|Hne].
    + rewrite lookup_insert_eq. cbn [default from_option id].
      destruct values; [reflexivity | now rewrite <- List.app_assoc].
    + now rewrite lookup_insert_ne.
Qed.

Lemma apply_headers_values m :
  (forall k, is_Some (m !! k) -> Go.ToLower k = k) ->
  forall key, Go.ToLower key = key ->
    default [] (provider.apply_headers m !! http.CanonicalMIMEHeaderKey key)
    = default [] (m !! key).
Proof.
  unfold provider.apply_headers.
  apply (map_fold_weak_ind
           (fun (r : http.Header) (m : gmap string (list string)) =>
              (forall k, is_Some (m !! k) -> Go.ToLower k = k) ->
              forall key, Go.ToLower key = key ->
                default [] (r !! http.CanonicalMIMEHeaderKey key) = default [] (m !! key))).
  - intros _ key _. now rewrite !lookup_empty.
  - intros i values m' r Hfresh IH Hlow key Hkey.
    assert (Hlow' : forall k, is_Some (m' !! k) -> Go.ToLower k = k).
    { intros k Hk. apply Hlow. rewrite lookup_insert_is_Some.
      destruct (decide (i = k)); [now left | now right]. }
    assert (Hi : Go.ToLower i = i).
    { apply Hlow. rewrite lookup_insert_is_Some. now left. }
    rewrite Header_Add_fold.
    destruct (decide (http.CanonicalMIMEHeaderKey i = http.CanonicalMIMEHeaderKey key))
      as [Heq|Hne].
    + apply (Canonical_inj_lower i key Hi Hkey) in Heq. subst key.
      rewrite lookup_insert_eq. pose proof (IH Hlow' i Hi) as Hprev.
      rewrite Hfresh in Hprev. cbn [default] in Hprev.
      destruct values; [exact Hprev |]. cbn [default from_option id]. now rewrite Hprev.
    + assert (i <> key) by congruence.
      rewrite lookup_insert_ne by assumption. now apply IH.
Qed.

Lemma auth_keeps_other_headers config h k :
  k <> "Authorization" ->
  provider.set_bearer config (provider.set_basic_auth config h) !! k = h !! k.
Proof.
  intros Hk.
  assert (Hset : forall h' v, http.Header_Set h' "Authorization" v !! k = h' !! k).
  { intros h' v. unfold http.Header_Set.
    change (http.CanonicalMIMEHeaderKey "Authorization") with "Authorization".
    now rewrite lookup_insert_ne. }
  assert (Hbasic : provider.set_basic_auth config h !! k = h !! k).
  { unfold provider.set_basic_auth.
    destruct (RequestConfig.BasicAuth config) as [ba|].
    - destruct (_ && _)%bool; [apply Hset | reflexivity].
    - destruct (RequestConfig.ProviderDefaults config) as [defaults|]; [|reflexivity].
      destruct (config.BasicAuth defaults) as [ba|]; [|reflexivity].
      destruct (_ && _)%bool; [apply Hset | reflexivity]. }
  unfold provider.set_bearer.
  destruct (provider.is_set _); [now rewrite Hset |].
  destruct (RequestConfig.ProviderDefaults config) as [defaults|]; [|exact Hbasic].
  destruct (config.BearerToken defaults); [now rewrite Hset | exact Hbasic].
Qed.

End header_merge.

(** X30: how the headers of a request come about.  For a header name in
    lower case, other than [authorization] and [content-type], the values
    that the built request carries under that name are: the value the
    request's own [headers] map gives for it under any spelling or, when it
    gives none, the value of the provider's default headers; followed by
    the values of the [header] blocks of that name, in their order. *)
Theorem BuildRequest_merges_headers :
  forall (env : Env) (config : RequestConfig.t) (req : http.Request) (key : string),
    provider.BuildRequest env config = Ok req ->
    Go.ToLower key = key -> key <> "authorization" -> key <> "content-type" ->
    http.Header_Values (http.ReqHeader req) key
    = (match last (provider.map_values key (default [] (RequestConfig.Headers config))),
             last (provider.map_values key
                     (from_option config.DefaultHeaders []
                                  (RequestConfig.ProviderDefaults config))) with
       | Some v, _ => [v]
       | None, Some v => [v]
       | None, None => []
       end ++ provider.block_values key (RequestConfig.HeaderBlocks config))%list.
Proof.
  intros env config req key Hbuild Hkey Hauth Hct.
  unfold provider.BuildRequest in Hbuild.
  destruct (url_Parse env _); [|discriminate].
  destruct (1 <? provider.body_count config); [discriminate |].
  destruct (provider.select_body env config) as [[bodyReader contentTypeSet]|];
    [|discriminate].
  destruct (http_NewRequest env _ _); [discriminate |].
  injection Hbuild as <-. cbn [http.ReqHeader]. unfold http.Header_Values.
  rewrite auth_keeps_other_headers.
  - rewrite apply_headers_values.
    + now apply merge_headers_lookup.
    + intros k. apply merge_headers_lower.
    + exact Hkey.
  - intros Heq. apply (f_equal Go.ToLower) in Heq. rewrite ToLower_Canonical, Hkey in Heq.
    contradiction.
Qed.

Lemma BuildRequest_merges_headers_witness :
  match provider.BuildRequest sample.quiet
          (sample.post_json (Some [("X-Trace", "own")])
             [HeaderBlockModel.mk (tf.Known "X-TRACE") (tf.Known "block")] None tf.Null
             (Some (sample.defaults [("x-trace", "inherited")] None None))) with
  | Ok req =>
      http.Header_Values (http.ReqHeader req) "x-trace"
      = (match last (provider.map_values "x-trace" [("X-Trace", "own")]),
               last (provider.map_values "x-trace" [("x-trace", "inherited")]) with
         | Some v, _ => [v]
         | None, Some v => [v]
         | None, None => []
         end ++ provider.block_values "x-trace"
                  [HeaderBlockModel.mk (tf.Known "X-TRACE") (tf.Known "block")])%list
  | Err _ => False
  end.
Proof.
  destruct (provider.BuildRequest _ _) as [req|e] eqn:Hbuild.
  - exact (BuildRequest_merges_headers _ _ req "x-trace" Hbuild eq_refl
             ltac:(discriminate) ltac:(discriminate)).
  - vm_compute in Hbuild. discriminate.
Defined.
